(** * PDF4QT 3-D scene processor: a shallow embedding of
      [pdf3dsceneprocessor.cpp] and the properties of the scene build.

    The C++ translation unit (in the sources, the part of
    [Pdf4QtViewerPlugins/Pdf4QtViewerPlugins.pro] that includes
    [pdf3dsceneprocessor.h]) turns a parsed U3D model (nodes, geometries,
    lights, shaders, materials) into a Qt3D node tree.  The definitions below
    follow the functions of that file one by one and keep their names; line
    numbers are those of the source file.

    Conventions of the embedding.
    - [uint], [uint32_t] and [unsigned int] values are integers of [Z] reduced
      modulo 2^32 wherever the C++ expression is evaluated in 32 bits.
    - [float] is a parameter ([FloatOps]); two instances are given, IEEE
      binary floating point ([IEEE], primitive floats) and exact rational
      arithmetic ([Exact]).  A [double] that the code passes where Qt takes a
      [float] goes through the conversion [fnarrow].
    - A byte buffer filled through a typed pointer is a record of the size
      that [QByteArray::resize] gives it and of the sequence of values written.
      The file is written against Qt 5 ([setDataType], [setDataSize]), where
      [resize] takes an [int].
    - Calls return an [outcome]: a value, a failed [Q_ASSERT], undefined
      behaviour of the C++ program (null dereference, write past the end of
      a buffer), or exhausted fuel for the recursive traversal. *)

From Stdlib Require Import ZArith List String Bool Lia.
From Stdlib Require Import Floats.PrimFloat Floats.SpecFloat Floats.FloatOps Floats.FloatAxioms.
From Stdlib Require Import QArith Qcanon.
From Stdlib Require Import Sorting.Permutation Sorting.Sorted.
Import ListNotations.

Open Scope Z_scope.
Open Scope list_scope.

Set Warnings "-register-all".

(** ** Enumerations *)

(** [pdf::u3d::PDF3D_U3D_Node::NodeType]. *)
Module NodeType.
Inductive t : Set := Unknown | Group | Model | Light | View.
Definition eqb (a b : t) : bool :=
  match a, b with
  | Unknown, Unknown | Group, Group | Model, Model | Light, Light | View, View => true
  | _, _ => false
  end.
End NodeType.

(** [pdf::u3d::PDF3D_U3D_Light::Type]. *)
Module LightType.
Inductive t : Set := Ambient | Directional | Point | Spot.
End LightType.

(** [PDF3DSceneProcessor::SceneMode], the fifteen modes named in the file. *)
Module SceneMode.
Inductive t : Set :=
| Solid | SolidWireframe | Transparent | TransparentWireframe
| BoundingBox | TransparentBoundingBox | TransparentBoundingBoxOutline
| Wireframe | ShadedWireframe | HiddenWireframe
| Vertices | ShadedVertices | Illustration | SolidOutline | ShadedIllustration.
End SceneMode.

(** [pdf::u3d::PDF3D_U3D_Shader] alpha test functions. *)
Module AlphaTestFunction.
Inductive t : Set := NEVER | LESS | GREATER | EQUAL | NOT_EQUAL | LEQUAL | GEQUAL | ALWAYS.
End AlphaTestFunction.

(** [Qt3DRender::QAlphaTest::AlphaFunction]. *)
Module QAlphaTest.
Inductive AlphaFunction : Set :=
  Never | Always | Less | LessOrEqual | Equal | GreaterOrEqual | Greater | NotEqual.
End QAlphaTest.

(** [Qt3DRender::QGeometryRenderer::PrimitiveType], the three kinds used. *)
Module PrimitiveType.
Inductive t : Set := Points | Lines | Triangles.
End PrimitiveType.

(** [Qt3DRender::QBuffer::BufferType]. *)
Module BufferType.
Inductive t : Set := VertexBuffer | IndexBuffer.
End BufferType.

(** [Qt3DRender::QAttribute::AttributeType] and [VertexBaseType]. *)
Module AttributeType.
Inductive t : Set := VertexAttribute | IndexAttribute.
End AttributeType.

Module VertexBaseType.
Inductive t : Set := Float | UnsignedInt.
End VertexBaseType.

(** ** Outcomes of a call *)

Inductive outcome (A : Type) : Type :=
| Done (a : A)
| AssertFailed        (* a [Q_ASSERT] whose condition is false, assertions enabled *)
| Undefined           (* undefined behaviour: null dereference, buffer overrun *)
| OutOfFuel.          (* the recursion budget of the model is exhausted *)

Arguments Done {A} a.
Arguments AssertFailed {A}.
Arguments Undefined {A}.
Arguments OutOfFuel {A}.

Definition bind {A B : Type} (m : outcome A) (k : A -> outcome B) : outcome B :=
  match m with
  | Done a => k a
  | AssertFailed => AssertFailed
  | Undefined => Undefined
  | OutOfFuel => OutOfFuel
  end.

Notation "x <- m ;; k" := (bind m (fun x => k))
  (at level 61, m at next level, right associativity).

Fixpoint mapM {A B : Type} (f : A -> outcome B) (l : list A) : outcome (list B) :=
  match l with
  | [] => Done []
  | a :: l' => b <- f a ;; bs <- mapM f l' ;; Done (b :: bs)
  end.

(** [Q_ASSERT(cond)]: aborts when assertions are compiled in and the condition
    is false; expands to nothing under [QT_NO_DEBUG]. *)
Definition Q_ASSERT (assertions cond : bool) : outcome unit :=
  if assertions && negb cond then AssertFailed else Done tt.

(** ** 32-bit unsigned arithmetic *)

Definition UINT_MODULUS : Z := 2 ^ 32.

(** Conversion to [uint] ([static_cast<uint>] and the result of every
    [uint] operation). *)
Definition to_uint (z : Z) : Z := z mod UINT_MODULUS.

Definition uint_mul (a b : Z) : Z := to_uint (a * b).

(** Conversion of a [size_t] value to [int], as done where a byte count is
    passed to [QByteArray::resize(int)]: reduction modulo 2^32 into the range
    of a 32-bit two's complement integer. *)
Definition to_int (z : Z) : Z :=
  let r := z mod UINT_MODULUS in
  if r <? 2 ^ 31 then r else r - UINT_MODULUS.

(** [sizeof(float)] and [sizeof(unsigned int)]. *)
Definition sizeof_float : Z := 4.
Definition sizeof_uint : Z := 4.

(** [std::vector::size()], a [size_t]. *)
Definition size {A : Type} (l : list A) : Z := Z.of_nat (List.length l).

(** ** The scalar type *)

Class FloatOps (float : Type) : Type := {
  fzero : float;
  flt : float -> float -> bool;      (* operator< *)
  fadd : float -> float -> float;    (* operator+ *)
  fmul : float -> float -> float;    (* operator* *)
  fnarrow : float -> float           (* conversion of a [double] to [float] *)
}.

(** The conversion of a binary64 value to binary32 (24 bits of precision,
    exponents up to 128): rounding to nearest, ties to even, overflow to an
    infinity; zeros, infinities and NaN are kept. *)
Definition narrow (x : PrimFloat.float) : PrimFloat.float :=
  match Prim2SF x with
  | S754_finite s m e => SF2Prim (binary_normalize 24 128 (cond_Zopp s (Z.pos m)) e s)
  | _ => x
  end.

(** IEEE binary floating point, on the primitive floats of Rocq.  These are
    binary64 where the C++ [float] is binary32; the comparisons, additions and
    multiplications follow the same IEEE 754 rules (NaN, signed zeros,
    infinities, rounding to nearest) at the other precision. *)
#[global] Instance IEEE : FloatOps PrimFloat.float := {|
  fzero := 0%float;
  flt := PrimFloat.ltb;
  fadd := PrimFloat.add;
  fmul := PrimFloat.mul;
  fnarrow := narrow
|}.

Definition Qc_ltb (a b : Qc) : bool :=
  match (a ?= b)%Qc with Lt => true | _ => false end.

(** Exact rational arithmetic; the conversion keeps the value. *)
#[global] Instance Exact : FloatOps Qc := {|
  fzero := Q2Qc 0;
  flt := Qc_ltb;
  fadd := Qcplus;
  fmul := Qcmult;
  fnarrow := fun x => x
|}.

(** ** Values shared by the model data and the Qt3D output *)

Section Model.

Context {float : Type} {FO : FloatOps float}.

(** [true] for a build with assertions, [false] when [QT_NO_DEBUG] is defined. *)
Variable assertions : bool.

Record QVector3D : Type := { vx : float; vy : float; vz : float }.

Record QVector4D : Type := { wx : float; wy : float; wz : float; ww : float }.

Definition toVector3D (v : QVector4D) : QVector3D :=
  {| vx := wx v; vy := wy v; vz := wz v |}.

(** [QVector3D(0.0, 0.0, 0.0)], also the value of the default constructor. *)
Definition QVector3D_zero : QVector3D := {| vx := fzero; vy := fzero; vz := fzero |}.

Definition setX (v : QVector3D) (a : float) : QVector3D := {| vx := a; vy := vy v; vz := vz v |}.
Definition setY (v : QVector3D) (a : float) : QVector3D := {| vx := vx v; vy := a; vz := vz v |}.
Definition setZ (v : QVector3D) (a : float) : QVector3D := {| vx := vx v; vy := vy v; vz := a |}.

(** [qMin(a, b)] is [(a < b) ? a : b] and [qMax(a, b)] is [(a < b) ? b : a]. *)
Definition qMin (a b : float) : float := if flt a b then a else b.
Definition qMax (a b : float) : float := if flt a b then b else a.

(** [QColor], read and written through its floating point accessors. *)
Record QColor : Type := { redF : float; greenF : float; blueF : float; alphaF : float }.

Definition setRedF (c : QColor) (a : float) : QColor :=
  {| redF := a; greenF := greenF c; blueF := blueF c; alphaF := alphaF c |}.
Definition setGreenF (c : QColor) (a : float) : QColor :=
  {| redF := redF c; greenF := a; blueF := blueF c; alphaF := alphaF c |}.
Definition setBlueF (c : QColor) (a : float) : QColor :=
  {| redF := redF c; greenF := greenF c; blueF := a; alphaF := alphaF c |}.
Definition setAlphaF (c : QColor) (a : float) : QColor :=
  {| redF := redF c; greenF := greenF c; blueF := blueF c; alphaF := a |}.

(** [QColor(Qt::transparent)]. *)
Definition Qt_transparent : QColor :=
  {| redF := fzero; greenF := fzero; blueF := fzero; alphaF := fzero |}.

(** [QMatrix4x4]: the sixteen coefficients, carried through unchanged. *)
Definition QMatrix4x4 : Type := list float.

(** [QImage]: a decoded pixel buffer, carried through unchanged. *)
Record QImage : Type := { img_width : Z; img_height : Z; img_pixels : list Z }.

(** ** The model data ([pdf3d_u3d.h])

    The classes of the U3D model are declared in a header that is not part of
    the sources at hand.  Each class is a record of the results of the member
    functions that the scene processor calls. *)

Record PDF3D_U3D_Node : Type := {
  getType : NodeType.t;
  getNodeName : string;
  getChildren : list string;
  hasChildTransform : bool;
  hasConstantChildTransform : bool;
  getConstantChildTransform : QMatrix4x4;
  getChildTransform : string -> QMatrix4x4;
  getResourceName : string
}.

Record Vertex : Type := {
  positionIndex : Z;
  normalIndex : Z;
  diffuseColorIndex : Z;
  textureCoordIndex : Z
}.

(** [Triangle::vertices] is a [std::array<Vertex, 3>]. *)
Record Triangle : Type := {
  vertex0 : Vertex;
  vertex1 : Vertex;
  vertex2 : Vertex;
  hasTexture : bool;
  hasDiffuse : bool;
  hasSpecular : bool
}.

Definition vertices (t : Triangle) : list Vertex := [vertex0 t; vertex1 t; vertex2 t].

Record PDF3D_U3D_MeshGeometry : Type := {
  mesh_isEmpty : bool;
  mesh_getPositions : list QVector3D;
  mesh_getTriangles : list Triangle;
  mesh_getPosition : Z -> QVector3D;
  mesh_getNormal : Z -> QVector3D;
  mesh_getDiffuseColor : Z -> QVector4D;
  mesh_getTextureCoordinate : Z -> QVector4D;
  mesh_getShaderName : Z -> string
}.

(** Modelled from the spec: [getTriangleCount] is declared in the absent header
    [pdf3d_u3d.h]; the spec's data model gives a mesh one list of triangles, and
    the count is the size of that list. *)
Definition mesh_getTriangleCount (m : PDF3D_U3D_MeshGeometry) : Z :=
  size (mesh_getTriangles m).

Record Point : Type := { point_position : Z; point_diffuseColor : Z }.

Record PDF3D_U3D_PointSetGeometry : Type := {
  pointSet_isEmpty : bool;
  pointSet_getPositions : list QVector3D;
  pointSet_queryPointsByVertexIndex : Z -> list Point;
  pointSet_getDiffuseColor : Z -> QVector4D
}.

Record Line : Type := {
  position1 : Z;
  position2 : Z;
  diffuseColor1 : Z;
  diffuseColor2 : Z;
  shadingId : Z
}.

Record PDF3D_U3D_LineSetGeometry : Type := {
  lineSet_isEmpty : bool;
  lineSet_getPositions : list QVector3D;
  lineSet_getLines : list Line;
  lineSet_getPosition : Z -> QVector3D;
  lineSet_getDiffuseColor : Z -> QVector4D;
  lineSet_getShaderName : Z -> string;
  lineSet_queryLinesByVertexIndex : Z -> list Line
}.

(** Modelled from the spec: [getLineCount] and [getLine] are declared in the
    absent header [pdf3d_u3d.h]; the spec's data model gives a line set one list
    of lines, counted and indexed by these two accessors.  [getLine] is only
    called with an index below the count. *)
Definition lineSet_getLineCount (g : PDF3D_U3D_LineSetGeometry) : Z :=
  size (lineSet_getLines g).

Definition lineSet_getLine (g : PDF3D_U3D_LineSetGeometry) (i : nat) : option Line :=
  nth_error (lineSet_getLines g) i.

(** What [getGeometry] points to; [asMeshGeometry], [asPointSetGeometry] and
    [asLineSetGeometry] succeed on the first three, and all fail on the last. *)
Inductive PDF3D_U3D_Geometry : Type :=
| MeshGeometry (g : PDF3D_U3D_MeshGeometry)
| PointSetGeometry (g : PDF3D_U3D_PointSetGeometry)
| LineSetGeometry (g : PDF3D_U3D_LineSetGeometry)
| OtherGeometry.

Record PDF3D_U3D_Light : Type := {
  light_getType : LightType.t;
  light_getColor : QColor;
  light_getIntensity : float;
  light_getAttenuation : float * float * float;
  light_getSpotAngle : float
}.

Record PDF_U3D_TextureInfo : Type := { textureName : string }.

Record PDF3D_U3D_Shader : Type := {
  getTextureInfos : list PDF_U3D_TextureInfo;
  isUseVertexColor : bool;
  isAlphaTestEnabled : bool;
  getAlphaTestReference : float;
  getAlphaTestFunction : AlphaTestFunction.t;
  getMaterialName : string
}.

Record PDF3D_U3D_Material : Type := {
  getAmbientColor : QColor;
  getDiffuseColor : QColor;
  getSpecularColor : QColor
}.

(** [PDF3D_U3D]: [getNode] returns a reference, the four resource lookups a
    pointer that may be null, [getTexture] an image by value. *)
Record PDF3D_U3D : Type := {
  getNode : string -> PDF3D_U3D_Node;
  getGeometry : string -> option PDF3D_U3D_Geometry;
  getLight : string -> option PDF3D_U3D_Light;
  getShader : string -> option PDF3D_U3D_Shader;
  getMaterial : string -> option PDF3D_U3D_Material;
  getTexture : string -> QImage
}.

(** ** The Qt3D output

    A buffer is the byte size of the array after [QByteArray::resize] and the
    values stored through the typed pointer, in the order of the stores. *)

Inductive BufferData : Type :=
| FloatData (values : list float)
| UIntData (values : list Z).

Record QBuffer : Type := {
  buffer_type : BufferType.t;
  buffer_size : Z;
  buffer_data : BufferData
}.

Record QAttribute : Type := {
  attribute_name : string;
  attributeType : AttributeType.t;
  vertexBaseType : VertexBaseType.t;
  vertexSize : Z;
  attribute_buffer : QBuffer;
  byteOffset : Z;
  byteStride : Z;
  count : Z
}.

(** [QAttribute::defaultPositionAttributeName()] and its three siblings. *)
Definition defaultPositionAttributeName : string := "vertexPosition".
Definition defaultNormalAttributeName : string := "vertexNormal".
Definition defaultColorAttributeName : string := "vertexColor".
Definition defaultTextureCoordinateAttributeName : string := "vertexTexCoord".

Definition setName (a : QAttribute) (n : string) : QAttribute :=
  {| attribute_name := n; attributeType := attributeType a;
     vertexBaseType := vertexBaseType a; vertexSize := vertexSize a;
     attribute_buffer := attribute_buffer a; byteOffset := byteOffset a;
     byteStride := byteStride a; count := count a |}.

(** A [QGeometryRenderer] with the attributes of its [QGeometry]. *)
Record QGeometryRenderer : Type := {
  geometry : list QAttribute;
  primitiveRestartEnabled : bool;
  primitiveType : PrimitiveType.t
}.

(** Render states; the processor adds one state object to every render pass of
    every technique of a material's effect, recorded once per material. *)
Inductive QRenderState : Type :=
| QPointSize_Fixed (value : float)
| QCullFace_NoCulling
| QAlphaTest_state (alphaFunction : QAlphaTest.AlphaFunction) (referenceValue : float).

Record PDF3DTextureImage : Type := { m_image : QImage; textureImage_size : Z * Z }.

Record QTexture2D : Type := {
  texture_size : Z * Z;
  textureImages : list PDF3DTextureImage
}.

(** The [diffuse] property is a [QVariant] holding a colour or a texture. *)
Inductive QVariant : Type :=
| ColorValue (c : QColor)
| TextureValue (t : QTexture2D).

Record QDiffuseSpecularMaterial : Type := {
  ambient : QColor;
  diffuse : QVariant;
  specular : QColor;
  alphaBlendingEnabled : bool
}.

Inductive MaterialKind : Type :=
| QPerVertexColorMaterial
| QDiffuseSpecular (m : QDiffuseSpecularMaterial).

Record QMaterial : Type := {
  material_kind : MaterialKind;
  renderStates : list QRenderState
}.

Definition addRenderState (m : QMaterial) (s : QRenderState) : QMaterial :=
  {| material_kind := material_kind m; renderStates := renderStates m ++ [s] |}.

Inductive QComponent : Type :=
| TransformComponent (matrix : QMatrix4x4)
| GeometryRendererComponent (r : QGeometryRenderer)
| MaterialComponent (m : QMaterial)
| DirectionalLightComponent (color : QColor) (intensity : float)
| PointLightComponent (color : QColor) (intensity : float)
    (constantAttenuation linearAttenuation quadraticAttenuation : float)
| SpotLightComponent (color : QColor) (intensity : float)
    (constantAttenuation linearAttenuation quadraticAttenuation : float)
    (cutOffAngle : float).

(** A [Qt3DCore::QNode] ([isEntity] for a [QEntity]) with its object name, its
    components and its children in the order in which they were parented. *)
Inductive QNode : Type :=
| mkQNode (isEntity : bool) (objectName : string)
    (components : list QComponent) (children : list QNode).

Definition new_QNode : QNode := mkQNode false EmptyString [] [].
Definition new_QEntity : QNode := mkQNode true EmptyString [] [].

Definition objectName (n : QNode) : string :=
  match n with mkQNode _ name _ _ => name end.
Definition components (n : QNode) : list QComponent :=
  match n with mkQNode _ _ cs _ => cs end.
Definition children (n : QNode) : list QNode :=
  match n with mkQNode _ _ _ ch => ch end.

Definition setObjectName (n : QNode) (name : string) : QNode :=
  match n with mkQNode e _ cs ch => mkQNode e name cs ch end.
Definition addComponent (n : QNode) (c : QComponent) : QNode :=
  match n with mkQNode e name cs ch => mkQNode e name (cs ++ [c]) ch end.
(** [child->setParent(parent)], seen from the parent. *)
Definition setParent (child parent : QNode) : QNode :=
  match parent with mkQNode e name cs ch => mkQNode e name cs (ch ++ [child]) end.

Record Scene : Type := { sceneRoot : option QNode }.

(** ** The processor *)

Record PDF3DSceneProcessor : Type := {
  m_mode : SceneMode.t;
  m_auxiliaryColor : QColor;
  m_faceColor : QColor;
  m_opacity : float;
  m_creaseAngle : float;
  m_sceneRoot : string;
  m_pointSize : float;
  m_globalAmbientColor : QColor;
  m_processedNodes : list string;
  m_sceneData : PDF3D_U3D
}.

Definition getMode (p : PDF3DSceneProcessor) : SceneMode.t := m_mode p.
Definition getAuxiliaryColor (p : PDF3DSceneProcessor) : QColor := m_auxiliaryColor p.
Definition getFaceColor (p : PDF3DSceneProcessor) : QColor := m_faceColor p.
Definition getOpacity (p : PDF3DSceneProcessor) : float := m_opacity p.
Definition getCreaseAngle (p : PDF3DSceneProcessor) : float := m_creaseAngle p.
Definition getSceneRoot (p : PDF3DSceneProcessor) : string := m_sceneRoot p.
Definition getPointSize (p : PDF3DSceneProcessor) : float := m_pointSize p.

Definition setMode (p : PDF3DSceneProcessor) (newMode : SceneMode.t) : PDF3DSceneProcessor :=
  {| m_mode := newMode; m_auxiliaryColor := m_auxiliaryColor p; m_faceColor := m_faceColor p;
     m_opacity := m_opacity p; m_creaseAngle := m_creaseAngle p; m_sceneRoot := m_sceneRoot p;
     m_pointSize := m_pointSize p; m_globalAmbientColor := m_globalAmbientColor p;
     m_processedNodes := m_processedNodes p; m_sceneData := m_sceneData p |}.

Definition setAuxiliaryColor (p : PDF3DSceneProcessor) (c : QColor) : PDF3DSceneProcessor :=
  {| m_mode := m_mode p; m_auxiliaryColor := c; m_faceColor := m_faceColor p;
     m_opacity := m_opacity p; m_creaseAngle := m_creaseAngle p; m_sceneRoot := m_sceneRoot p;
     m_pointSize := m_pointSize p; m_globalAmbientColor := m_globalAmbientColor p;
     m_processedNodes := m_processedNodes p; m_sceneData := m_sceneData p |}.

Definition setFaceColor (p : PDF3DSceneProcessor) (newFaceColor : QColor) : PDF3DSceneProcessor :=
  {| m_mode := m_mode p; m_auxiliaryColor := m_auxiliaryColor p; m_faceColor := newFaceColor;
     m_opacity := m_opacity p; m_creaseAngle := m_creaseAngle p; m_sceneRoot := m_sceneRoot p;
     m_pointSize := m_pointSize p; m_globalAmbientColor := m_globalAmbientColor p;
     m_processedNodes := m_processedNodes p; m_sceneData := m_sceneData p |}.

Definition setOpacity (p : PDF3DSceneProcessor) (a : float) : PDF3DSceneProcessor :=
  {| m_mode := m_mode p; m_auxiliaryColor := m_auxiliaryColor p; m_faceColor := m_faceColor p;
     m_opacity := a; m_creaseAngle := m_creaseAngle p; m_sceneRoot := m_sceneRoot p;
     m_pointSize := m_pointSize p; m_globalAmbientColor := m_globalAmbientColor p;
     m_processedNodes := m_processedNodes p; m_sceneData := m_sceneData p |}.

Definition setCreaseAngle (p : PDF3DSceneProcessor) (a : float) : PDF3DSceneProcessor :=
  {| m_mode := m_mode p; m_auxiliaryColor := m_auxiliaryColor p; m_faceColor := m_faceColor p;
     m_opacity := m_opacity p; m_creaseAngle := a; m_sceneRoot := m_sceneRoot p;
     m_pointSize := m_pointSize p; m_globalAmbientColor := m_globalAmbientColor p;
     m_processedNodes := m_processedNodes p; m_sceneData := m_sceneData p |}.

Definition setSceneRoot (p : PDF3DSceneProcessor) (r : string) : PDF3DSceneProcessor :=
  {| m_mode := m_mode p; m_auxiliaryColor := m_auxiliaryColor p; m_faceColor := m_faceColor p;
     m_opacity := m_opacity p; m_creaseAngle := m_creaseAngle p; m_sceneRoot := r;
     m_pointSize := m_pointSize p; m_globalAmbientColor := m_globalAmbientColor p;
     m_processedNodes := m_processedNodes p; m_sceneData := m_sceneData p |}.

Definition setPointSize (p : PDF3DSceneProcessor) (a : float) : PDF3DSceneProcessor :=
  {| m_mode := m_mode p; m_auxiliaryColor := m_auxiliaryColor p; m_faceColor := m_faceColor p;
     m_opacity := m_opacity p; m_creaseAngle := m_creaseAngle p; m_sceneRoot := m_sceneRoot p;
     m_pointSize := a; m_globalAmbientColor := m_globalAmbientColor p;
     m_processedNodes := m_processedNodes p; m_sceneData := m_sceneData p |}.

(** The three members written by a build: [createScene] clears the processed
    nodes and stores the scene data, ambient lights add to the ambient colour. *)
Definition beginScene (p : PDF3DSceneProcessor) (sceneData : PDF3D_U3D) : PDF3DSceneProcessor :=
  {| m_mode := m_mode p; m_auxiliaryColor := m_auxiliaryColor p; m_faceColor := m_faceColor p;
     m_opacity := m_opacity p; m_creaseAngle := m_creaseAngle p; m_sceneRoot := m_sceneRoot p;
     m_pointSize := m_pointSize p; m_globalAmbientColor := m_globalAmbientColor p;
     m_processedNodes := []; m_sceneData := sceneData |}.

Definition setGlobalAmbientColor (p : PDF3DSceneProcessor) (c : QColor) : PDF3DSceneProcessor :=
  {| m_mode := m_mode p; m_auxiliaryColor := m_auxiliaryColor p; m_faceColor := m_faceColor p;
     m_opacity := m_opacity p; m_creaseAngle := m_creaseAngle p; m_sceneRoot := m_sceneRoot p;
     m_pointSize := m_pointSize p; m_globalAmbientColor := c;
     m_processedNodes := m_processedNodes p; m_sceneData := m_sceneData p |}.

(** ** [PDF3DBoundingBox] *)

(** The class is declared in the absent header [pdf3dsceneprocessor.h]; a value
    is built by the default constructor or by the constructor taking the two
    corners, the only two ways the file builds one. *)
Inductive PDF3DBoundingBox : Type :=
| PDF3DBoundingBox_default
| PDF3DBoundingBox_corners (min max : QVector3D).

(** Modelled from the spec: [PDF3DBoundingBox::isEmpty] is declared in the absent
    header [pdf3dsceneprocessor.h]; the spec's data model says of a bounding box
    "min and max corner (empty iff no input points)", so the box of the default
    constructor, returned for no points, is the empty one. *)
Definition isEmpty (b : PDF3DBoundingBox) : bool :=
  match b with
  | PDF3DBoundingBox_default => true
  | PDF3DBoundingBox_corners _ _ => false
  end.

Definition getMin (b : PDF3DBoundingBox) : QVector3D :=
  match b with
  | PDF3DBoundingBox_default => QVector3D_zero
  | PDF3DBoundingBox_corners mn _ => mn
  end.

Definition getMax (b : PDF3DBoundingBox) : QVector3D :=
  match b with
  | PDF3DBoundingBox_default => QVector3D_zero
  | PDF3DBoundingBox_corners _ mx => mx
  end.

(** One iteration of the loop of [getBoundingBox]. *)
Definition getBoundingBox_step (acc : QVector3D * QVector3D) (point : QVector3D)
  : QVector3D * QVector3D :=
  let (min, max) := acc in
  let min := setX min (qMin (vx min) (vx point)) in
  let min := setY min (qMin (vy min) (vy point)) in
  let min := setZ min (qMin (vz min) (vz point)) in
  let max := setX max (qMax (vx max) (vx point)) in
  let max := setY max (qMax (vy max) (vy point)) in
  let max := setZ max (qMax (vz max) (vz point)) in
  (min, max).

(** [PDF3DBoundingBox::getBoundingBox] (lines 1501-1523): the loop runs over
    all points, the first one included. *)
Definition getBoundingBox (points : list QVector3D) : PDF3DBoundingBox :=
  match points with
  | [] => PDF3DBoundingBox_default
  | front :: _ =>
      let (min, max) := fold_left getBoundingBox_step points (front, front) in
      PDF3DBoundingBox_corners min max
  end.

(** ** Buffers and attributes *)

(** The values [0 .. n-1] of a counting loop. *)
Definition indices (n : Z) : list Z := map Z.of_nat (seq 0 (Z.to_nat n)).

(** The elements visited by [for (i = 0; i < n; ++i) ... values[i]]. *)
Definition firstZ {A : Type} (n : Z) (values : list A) : list A :=
  firstn (Z.to_nat n) values.

Definition xyz (v : QVector3D) : list float := [vx v; vy v; vz v].

(** The size of a byte array after [resize(bytes)], where [bytes] is the
    [size_t] (or [uint]) value of the argument expression.  The parameter of
    [QByteArray::resize] is an [int] in Qt 5: the argument is converted, and a
    negative size gives the empty array. *)
Definition QByteArray_resize (bytes : Z) : Z := Z.max 0 (to_int bytes).

(** A buffer resized with [resize(bytes)] and filled with [values] through a
    [float*]: storing past the end of the array is undefined. *)
Definition fillFloatBuffer (t : BufferType.t) (bytes : Z) (values : list float)
  : outcome QBuffer :=
  let byteSize := QByteArray_resize bytes in
  if size values * sizeof_float <=? byteSize
  then Done {| buffer_type := t; buffer_size := byteSize; buffer_data := FloatData values |}
  else Undefined.

(** The same through an [unsigned int*]; every stored value is converted to
    [unsigned int]. *)
Definition fillUIntBuffer (t : BufferType.t) (bytes : Z) (values : list Z)
  : outcome QBuffer :=
  let byteSize := QByteArray_resize bytes in
  if size values * sizeof_uint <=? byteSize
  then Done {| buffer_type := t; buffer_size := byteSize;
               buffer_data := UIntData (map to_uint values) |}
  else Undefined.

(** [createGenericAttribute] (lines 1341-1370): the count is the vector size
    converted to [uint],
    [positionCount * 3] is a [uint] product and the multiplication by
    [sizeof(float)] is done in [size_t]. *)
Definition createGenericAttribute (values : list QVector3D) : outcome QAttribute :=
  let positionCount := to_uint (size values) in
  vertexBuffer <- fillFloatBuffer BufferType.VertexBuffer
                    (uint_mul positionCount 3 * sizeof_float)
                    (flat_map xyz (firstZ positionCount values)) ;;
  Done {| attribute_name := EmptyString;
          attributeType := AttributeType.VertexAttribute;
          vertexBaseType := VertexBaseType.Float;
          vertexSize := 3;
          attribute_buffer := vertexBuffer;
          byteOffset := 0;
          byteStride := 3 * sizeof_float;
          count := positionCount |}.

Definition createPositionAttribute (positions : list QVector3D) : outcome QAttribute :=
  attribute <- createGenericAttribute positions ;;
  Done (setName attribute defaultPositionAttributeName).

Definition createNormalAttribute (normals : list QVector3D) : outcome QAttribute :=
  attribute <- createGenericAttribute normals ;;
  Done (setName attribute defaultNormalAttributeName).

Definition createColorAttribute (colors : list QVector3D) : outcome QAttribute :=
  attribute <- createGenericAttribute colors ;;
  Done (setName attribute defaultColorAttributeName).

(** An index attribute: only the attribute type, the base type, the buffer and
    the count are set, the other properties keep the values of [QAttribute()]. *)
Definition indexAttribute (indexBuffer : QBuffer) (n : Z) : QAttribute :=
  {| attribute_name := EmptyString;
     attributeType := AttributeType.IndexAttribute;
     vertexBaseType := VertexBaseType.UnsignedInt;
     vertexSize := 1;
     attribute_buffer := indexBuffer;
     byteOffset := 0;
     byteStride := 0;
     count := n |}.

(** [QDiffuseSpecularMaterial] with ambient set to the auxiliary colour and
    transparent diffuse and specular, used for lines and points; alpha blending
    keeps the default of the Qt class, which is off. *)
Definition auxiliaryMaterial (p : PDF3DSceneProcessor) : QMaterial :=
  {| material_kind := QDiffuseSpecular
       {| ambient := getAuxiliaryColor p;
          diffuse := ColorValue Qt_transparent;
          specular := Qt_transparent;
          alphaBlendingEnabled := false |};
     renderStates := [] |}.

Definition renderEntity (r : QGeometryRenderer) (m : QMaterial) : QNode :=
  addComponent (addComponent new_QEntity (GeometryRendererComponent r)) (MaterialComponent m).

(** ** [createVertexGeometry] (lines 1087-1122)

    [m_pointSize] is a [pdf::PDFReal], a [double]; [QPointSize::setValue] takes
    a [float], so the value is converted. *)

Definition createVertexGeometry (p : PDF3DSceneProcessor) (positions : list QVector3D)
  : outcome QNode :=
  positionAttribute <- createPositionAttribute positions ;;
  let geometryRenderer :=
    {| geometry := [positionAttribute];
       primitiveRestartEnabled := false;
       primitiveType := PrimitiveType.Points |} in
  let material :=
    addRenderState (auxiliaryMaterial p) (QPointSize_Fixed (fnarrow (m_pointSize p))) in
  Done (renderEntity geometryRenderer material).

(** ** The bounding box geometries (lines 1124-1339) *)

(** The eight corners, numbered as in both bounding box functions. *)
Definition boundingBoxPositions (boundingBox : PDF3DBoundingBox) : list QVector3D :=
  let min := getMin boundingBox in
  let max := getMax boundingBox in
  [ {| vx := vx min; vy := vy min; vz := vz min |};
    {| vx := vx max; vy := vy min; vz := vz min |};
    {| vx := vx max; vy := vy max; vz := vz min |};
    {| vx := vx min; vy := vy max; vz := vz min |};
    {| vx := vx min; vy := vy min; vz := vz max |};
    {| vx := vx max; vy := vy min; vz := vz max |};
    {| vx := vx max; vy := vy max; vz := vz max |};
    {| vx := vx min; vy := vy max; vz := vz max |} ].

Definition wireIndices : list Z :=
  [ 0; 1;  1; 2;  2; 3;  3; 0;
    4; 5;  5; 6;  6; 7;  7; 4;
    0; 4;  1; 5;  2; 6;  3; 7 ].

Definition transparentIndices : list Z :=
  [ 0; 1; 2;  2; 3; 0;
    4; 5; 6;  6; 7; 4;
    0; 1; 5;  0; 4; 5;
    1; 2; 6;  1; 5; 6;
    2; 3; 7;  2; 6; 7;
    3; 0; 4;  3; 7; 4 ].

(** The position attribute written out in both bounding box functions. *)
Definition boundingBoxPositionAttribute (positions : list QVector3D) : outcome QAttribute :=
  let positionCount := to_uint (size positions) in
  vertexBuffer <- fillFloatBuffer BufferType.VertexBuffer
                    (uint_mul positionCount 3 * sizeof_float)
                    (flat_map xyz (firstZ positionCount positions)) ;;
  Done {| attribute_name := defaultPositionAttributeName;
          attributeType := AttributeType.VertexAttribute;
          vertexBaseType := VertexBaseType.Float;
          vertexSize := 3;
          attribute_buffer := vertexBuffer;
          byteOffset := 0;
          byteStride := 3 * sizeof_float;
          count := positionCount |}.

Definition createBoundingBoxWireGeometry (p : PDF3DSceneProcessor)
  (boundingBox : PDF3DBoundingBox) : outcome QNode :=
  let positions := boundingBoxPositions boundingBox in
  positionAttribute <- boundingBoxPositionAttribute positions ;;
  let lineCount := to_uint (size wireIndices) / 2 in
  indexBuffer <- fillUIntBuffer BufferType.IndexBuffer
                   (uint_mul lineCount 2 * sizeof_uint) wireIndices ;;
  let indexAttribute := indexAttribute indexBuffer (uint_mul 2 lineCount) in
  let geometryRenderer :=
    {| geometry := [positionAttribute; indexAttribute];
       primitiveRestartEnabled := false;
       primitiveType := PrimitiveType.Lines |} in
  Done (renderEntity geometryRenderer (auxiliaryMaterial p)).

Definition createBoundingBoxTransparentGeometry (p : PDF3DSceneProcessor)
  (boundingBox : PDF3DBoundingBox) : outcome QNode :=
  let positions := boundingBoxPositions boundingBox in
  positionAttribute <- boundingBoxPositionAttribute positions ;;
  let triangleCount := to_uint (size transparentIndices) / 3 in
  indexBuffer <- fillUIntBuffer BufferType.IndexBuffer
                   (uint_mul triangleCount 3 * sizeof_uint) transparentIndices ;;
  let indexAttribute := indexAttribute indexBuffer (uint_mul 3 triangleCount) in
  let geometryRenderer :=
    {| geometry := [positionAttribute; indexAttribute];
       primitiveRestartEnabled := false;
       primitiveType := PrimitiveType.Triangles |} in
  let color := setAlphaF (getAuxiliaryColor p) (getOpacity p) in
  let material :=
    {| material_kind := QDiffuseSpecular
         {| ambient := Qt_transparent;
            diffuse := ColorValue color;
            specular := Qt_transparent;
            alphaBlendingEnabled := true |};
       renderStates := [QCullFace_NoCulling] |} in
  Done (renderEntity geometryRenderer material).

(** The three bounding box cases shared by the three geometry kinds.  In the
    outline case the two [Q_ASSERT]s test pointers that were just returned by
    [new]; they hold in every run. *)
Definition boundingBoxWire (p : PDF3DSceneProcessor) (positions : list QVector3D)
  : outcome (option QNode) :=
  let boundingBox := getBoundingBox positions in
  if negb (isEmpty boundingBox)
  then n <- createBoundingBoxWireGeometry p boundingBox ;; Done (Some n)
  else Done None.

Definition boundingBoxTransparent (p : PDF3DSceneProcessor) (positions : list QVector3D)
  : outcome (option QNode) :=
  let boundingBox := getBoundingBox positions in
  if negb (isEmpty boundingBox)
  then n <- createBoundingBoxTransparentGeometry p boundingBox ;; Done (Some n)
  else Done None.

Definition boundingBoxOutline (p : PDF3DSceneProcessor) (positions : list QVector3D)
  : outcome (option QNode) :=
  let boundingBox := getBoundingBox positions in
  if negb (isEmpty boundingBox)
  then
    wireGeometry <- createBoundingBoxWireGeometry p boundingBox ;;
    transparentGeometry <- createBoundingBoxTransparentGeometry p boundingBox ;;
    let node := new_QNode in
    let node := setParent wireGeometry node in
    let node := setParent transparentGeometry node in
    Done (Some node)
  else Done None.

(** ** [createMaterialFromShader] (lines 1393-1489)

    The [default] label of the switch over the alpha test function is not
    reached for the eight functions. *)

Definition alphaFunctionOf (f : AlphaTestFunction.t) : QAlphaTest.AlphaFunction :=
  match f with
  | AlphaTestFunction.NEVER => QAlphaTest.Never
  | AlphaTestFunction.LESS => QAlphaTest.Less
  | AlphaTestFunction.GREATER => QAlphaTest.Greater
  | AlphaTestFunction.EQUAL => QAlphaTest.Equal
  | AlphaTestFunction.NOT_EQUAL => QAlphaTest.NotEqual
  | AlphaTestFunction.LEQUAL => QAlphaTest.LessOrEqual
  | AlphaTestFunction.GEQUAL => QAlphaTest.GreaterOrEqual
  | AlphaTestFunction.ALWAYS => QAlphaTest.Always
  end.

(** The texture of the textured material, built from the decoded image. *)
Definition textureOf (image : QImage) : QTexture2D :=
  {| texture_size := (img_width image, img_height image);
     textureImages :=
       [ {| m_image := image; textureImage_size := (img_width image, img_height image) |} ] |}.

(** The shader pointer and, on the flat branch, the material pointer are
    dereferenced without a test. *)
Definition createMaterialFromShader (p : PDF3DSceneProcessor) (shaderName : string)
  (forceUseVertexColors : bool) : outcome QMaterial :=
  match getShader (m_sceneData p) shaderName with
  | None => Undefined
  | Some shader =>
      material <-
        match getTextureInfos shader with
        | [] =>
            if isUseVertexColor shader || forceUseVertexColors
            then Done {| material_kind := QPerVertexColorMaterial; renderStates := [] |}
            else
              match getMaterial (m_sceneData p) (getMaterialName shader) with
              | None => Undefined
              | Some u3dMaterial =>
                  Done {| material_kind := QDiffuseSpecular
                            {| ambient := getAmbientColor u3dMaterial;
                               diffuse := ColorValue (getDiffuseColor u3dMaterial);
                               specular := getSpecularColor u3dMaterial;
                               alphaBlendingEnabled := isAlphaTestEnabled shader |};
                          renderStates := [] |}
              end
        | textureInfo :: _ =>
            let image := getTexture (m_sceneData p) (textureName textureInfo) in
            Done {| material_kind := QDiffuseSpecular
                      {| ambient := Qt_transparent;
                         diffuse := TextureValue (textureOf image);
                         specular := Qt_transparent;
                         alphaBlendingEnabled := isAlphaTestEnabled shader |};
                    renderStates := [] |}
        end ;;
      if isAlphaTestEnabled shader
      then Done (addRenderState material
                   (QAlphaTest_state (alphaFunctionOf (getAlphaTestFunction shader))
                                     (getAlphaTestReference shader)))
      else Done material
  end.

(** ** [createLightNode] (lines 305-365)

    The only member written during the traversal is [m_globalAmbientColor];
    the traversal functions take it and return it next to their result.  The
    [default] label of the switch over the light type is not reached for the
    four types. *)

Definition createLightNode (p : PDF3DSceneProcessor) (node : PDF3D_U3D_Node)
  (globalAmbientColor : QColor) : outcome (option QNode * QColor) :=
  _ <- Q_ASSERT assertions (NodeType.eqb (getType node) NodeType.Light) ;;
  match getLight (m_sceneData p) (getResourceName node) with
  | Some light =>
      match light_getType light with
      | LightType.Ambient =>
          let c := globalAmbientColor in
          let c := setRedF c (fadd (redF c)
                     (fmul (redF (light_getColor light)) (light_getIntensity light))) in
          let c := setGreenF c (fadd (greenF c)
                     (fmul (greenF (light_getColor light)) (light_getIntensity light))) in
          let c := setBlueF c (fadd (blueF c)
                     (fmul (blueF (light_getColor light)) (light_getIntensity light))) in
          Done (None, c)
      | LightType.Directional =>
          let processedLight :=
            DirectionalLightComponent (light_getColor light) (light_getIntensity light) in
          Done (Some (addComponent new_QEntity processedLight), globalAmbientColor)
      | LightType.Point =>
          let '(a0, a1, a2) := light_getAttenuation light in
          let processedLight :=
            PointLightComponent (light_getColor light) (light_getIntensity light) a0 a1 a2 in
          Done (Some (addComponent new_QEntity processedLight), globalAmbientColor)
      | LightType.Spot =>
          let '(a0, a1, a2) := light_getAttenuation light in
          let processedLight :=
            SpotLightComponent (light_getColor light) (light_getIntensity light) a0 a1 a2
              (light_getSpotAngle light) in
          Done (Some (addComponent new_QEntity processedLight), globalAmbientColor)
      end
  | None => Done (None, globalAmbientColor)
  end.

(** ** [createMeshGeometry] (lines 367-637) *)

(** The six indices stored for one triangle in wireframe mode. *)
Definition edgeIndices (triangle : Triangle) : list Z :=
  [ positionIndex (vertex0 triangle); positionIndex (vertex1 triangle);
    positionIndex (vertex1 triangle); positionIndex (vertex2 triangle);
    positionIndex (vertex2 triangle); positionIndex (vertex0 triangle) ].

(** The twelve floats stored for one triangle corner in solid mode. *)
Definition vertexFloats (meshGeometry : PDF3D_U3D_MeshGeometry) (vertex : Vertex)
  : list float :=
  let position := mesh_getPosition meshGeometry (positionIndex vertex) in
  let normal := mesh_getNormal meshGeometry (normalIndex vertex) in
  let diffuseColor := mesh_getDiffuseColor meshGeometry (diffuseColorIndex vertex) in
  let textureCoordinate := mesh_getTextureCoordinate meshGeometry (textureCoordIndex vertex) in
  [ vx position; vy position; vz position;
    vx normal; vy normal; vz normal;
    wx diffuseColor; wy diffuseColor; wz diffuseColor; ww diffuseColor;
    wx textureCoordinate; wy textureCoordinate ].

Definition solidVertexData (meshGeometry : PDF3D_U3D_MeshGeometry) : list float :=
  flat_map (fun triangle => flat_map (vertexFloats meshGeometry) (vertices triangle))
           (mesh_getTriangles meshGeometry).

Definition positionVertexSize : Z := 3.
Definition normalVertexSize : Z := 3.
Definition colorVertexSize : Z := 4.
Definition textureVertexSize : Z := 2.

(** The [constexpr uint32_t] stride and byte offsets of the solid case. *)
Definition stride : Z :=
  to_uint ((positionVertexSize + normalVertexSize + colorVertexSize + textureVertexSize)
           * sizeof_float).
Definition positionVertexByteOffset : Z := 0.
Definition normalVertexByteOffset : Z :=
  to_uint (positionVertexByteOffset + positionVertexSize * sizeof_float).
Definition colorVertexByteOffset : Z :=
  to_uint (normalVertexByteOffset + normalVertexSize * sizeof_float).
Definition textureVertexByteOffset : Z :=
  to_uint (colorVertexByteOffset + colorVertexSize * sizeof_float).

Definition solidAttribute (name : string) (dataSize : Z) (vertexBuffer : QBuffer)
  (offset n : Z) : QAttribute :=
  {| attribute_name := name;
     attributeType := AttributeType.VertexAttribute;
     vertexBaseType := VertexBaseType.Float;
     vertexSize := dataSize;
     attribute_buffer := vertexBuffer;
     byteOffset := offset;
     byteStride := stride;
     count := n |}.

(** The wireframe case.  [lineCount] is a [uint]; [lineCount * 2] is a [uint]
    product, multiplied by [sizeof(unsigned int)] in [size_t]. *)
Definition createMeshWireframe (p : PDF3DSceneProcessor)
  (meshGeometry : PDF3D_U3D_MeshGeometry) : outcome QNode :=
  positionAttribute <- createPositionAttribute (mesh_getPositions meshGeometry) ;;
  let lineCount := uint_mul (to_uint (mesh_getTriangleCount meshGeometry)) 3 in
  indexBuffer <- fillUIntBuffer BufferType.IndexBuffer
                   (uint_mul lineCount 2 * sizeof_uint)
                   (flat_map edgeIndices (mesh_getTriangles meshGeometry)) ;;
  let indexAttribute := indexAttribute indexBuffer (uint_mul 2 lineCount) in
  let geometryRenderer :=
    {| geometry := [positionAttribute; indexAttribute];
       primitiveRestartEnabled := false;
       primitiveType := PrimitiveType.Lines |} in
  Done (renderEntity geometryRenderer (auxiliaryMaterial p)).

(** The vertex buffer of the solid case, filled vertex by vertex.  The
    [Q_ASSERT] of line 550 compares the write pointer with the end of the
    array after the twelve stores of each vertex: it holds as long as the
    stores fit, and is false after the first vertex that is stored past the
    end.  With assertions the build aborts there; without them the stores past
    the end are undefined. *)
Definition fillSolidBuffer (bytes : Z) (values : list float) : outcome QBuffer :=
  let byteSize := QByteArray_resize bytes in
  let fits := size values * sizeof_float <=? byteSize in
  _ <- Q_ASSERT assertions fits ;;
  if fits
  then Done {| buffer_type := BufferType.VertexBuffer; buffer_size := byteSize;
               buffer_data := FloatData values |}
  else Undefined.

(** The solid case.  [triangleCount * 3 * stride] is a product of [uint]
    values.  The three flags accumulated over the triangles are not read again
    and are left out. *)
Definition createMeshSolid (p : PDF3DSceneProcessor)
  (meshGeometry : PDF3D_U3D_MeshGeometry) : outcome QNode :=
  let triangleCount := to_uint (mesh_getTriangleCount meshGeometry) in
  vertexBuffer <- fillSolidBuffer (uint_mul (uint_mul triangleCount 3) stride)
                                  (solidVertexData meshGeometry) ;;
  let n := uint_mul triangleCount 3 in
  let positionAttribute :=
    solidAttribute defaultPositionAttributeName positionVertexSize vertexBuffer
                   positionVertexByteOffset n in
  let normalAttribute :=
    solidAttribute defaultNormalAttributeName normalVertexSize vertexBuffer
                   normalVertexByteOffset n in
  let colorAttribute :=
    solidAttribute defaultColorAttributeName colorVertexSize vertexBuffer
                   colorVertexByteOffset n in
  let textureAttribute :=
    solidAttribute defaultTextureCoordinateAttributeName textureVertexSize vertexBuffer
                   textureVertexByteOffset n in
  let geometryRenderer :=
    {| geometry := [positionAttribute; normalAttribute; colorAttribute; textureAttribute];
       primitiveRestartEnabled := false;
       primitiveType := PrimitiveType.Triangles |} in
  let entity := addComponent new_QEntity (GeometryRendererComponent geometryRenderer) in
  let shaderName := mesh_getShaderName meshGeometry 0 in
  material <- createMaterialFromShader p shaderName false ;;
  Done (addComponent entity (MaterialComponent material)).

Definition createMeshGeometry (p : PDF3DSceneProcessor)
  (meshGeometry : PDF3D_U3D_MeshGeometry) : outcome (option QNode) :=
  if mesh_isEmpty meshGeometry then Done None
  else
    match m_mode p with
    | SceneMode.BoundingBox => boundingBoxWire p (mesh_getPositions meshGeometry)
    | SceneMode.TransparentBoundingBox =>
        boundingBoxTransparent p (mesh_getPositions meshGeometry)
    | SceneMode.TransparentBoundingBoxOutline =>
        boundingBoxOutline p (mesh_getPositions meshGeometry)
    | SceneMode.Wireframe =>
        entity <- createMeshWireframe p meshGeometry ;; Done (Some entity)
    | SceneMode.Vertices =>
        entity <- createVertexGeometry p (mesh_getPositions meshGeometry) ;; Done (Some entity)
    | SceneMode.Solid =>
        entity <- createMeshSolid p meshGeometry ;; Done (Some entity)
    | SceneMode.Illustration
    | SceneMode.ShadedIllustration
    | SceneMode.ShadedWireframe
    | SceneMode.HiddenWireframe
    | SceneMode.SolidOutline
    | SceneMode.Transparent
    | SceneMode.TransparentWireframe
    | SceneMode.SolidWireframe
    | SceneMode.ShadedVertices =>
        _ <- Q_ASSERT assertions false ;; Done None
    end.

(** ** [createPointSetGeometry] (lines 639-796)

    The labels of the switch name all fifteen modes, here and in
    [createLineSetGeometry]; the [default] label with its [Q_ASSERT(false)] is
    not reached. *)

(** A separate colour buffer, three floats per position, and the per-vertex
    colour material with a fixed point size; shared by the point set and the
    line set. *)
Definition coloredPoints (p : PDF3DSceneProcessor) (positionAttribute : QAttribute)
  (colorOf : Z -> QVector3D) : outcome QNode :=
  let positionCount := count positionAttribute in
  colorBuffer <- fillFloatBuffer BufferType.VertexBuffer
                   (uint_mul positionCount 3 * sizeof_float)
                   (flat_map (fun i => xyz (colorOf i)) (indices positionCount)) ;;
  let colorAttribute :=
    {| attribute_name := defaultColorAttributeName;
       attributeType := AttributeType.VertexAttribute;
       vertexBaseType := VertexBaseType.Float;
       vertexSize := 3;
       attribute_buffer := colorBuffer;
       byteOffset := 0;
       byteStride := 3 * sizeof_float;
       count := positionCount |} in
  let geometryRenderer :=
    {| geometry := [positionAttribute; colorAttribute];
       primitiveRestartEnabled := false;
       primitiveType := PrimitiveType.Points |} in
  let material :=
    {| material_kind := QPerVertexColorMaterial;
       renderStates := [QPointSize_Fixed (fnarrow (m_pointSize p))] |} in
  Done (renderEntity geometryRenderer material).

Definition pointSetColor (pointSetGeometry : PDF3D_U3D_PointSetGeometry) (i : Z)
  : QVector3D :=
  match pointSet_queryPointsByVertexIndex pointSetGeometry i with
  | [] => QVector3D_zero
  | point :: _ =>
      toVector3D (pointSet_getDiffuseColor pointSetGeometry (point_diffuseColor point))
  end.

Definition createPointSetGeometry (p : PDF3DSceneProcessor)
  (pointSetGeometry : PDF3D_U3D_PointSetGeometry) : outcome (option QNode) :=
  if pointSet_isEmpty pointSetGeometry then Done None
  else
    match m_mode p with
    | SceneMode.BoundingBox => boundingBoxWire p (pointSet_getPositions pointSetGeometry)
    | SceneMode.TransparentBoundingBox =>
        boundingBoxTransparent p (pointSet_getPositions pointSetGeometry)
    | SceneMode.TransparentBoundingBoxOutline =>
        boundingBoxOutline p (pointSet_getPositions pointSetGeometry)
    | SceneMode.Illustration
    | SceneMode.ShadedIllustration
    | SceneMode.Wireframe
    | SceneMode.Vertices =>
        entity <- createVertexGeometry p (pointSet_getPositions pointSetGeometry) ;;
        Done (Some entity)
    | SceneMode.ShadedWireframe
    | SceneMode.HiddenWireframe
    | SceneMode.SolidOutline
    | SceneMode.Transparent
    | SceneMode.TransparentWireframe
    | SceneMode.Solid
    | SceneMode.SolidWireframe
    | SceneMode.ShadedVertices =>
        positionAttribute <- createPositionAttribute (pointSet_getPositions pointSetGeometry) ;;
        entity <- coloredPoints p positionAttribute (pointSetColor pointSetGeometry) ;;
        Done (Some entity)
    end.

(** ** [createLineSetGeometry] (lines 798-1085) *)

(** [shadingIdToLines[key].push_back(line)] on a [std::map<uint32_t,
    std::vector<Line>>], kept as the list of its entries in ascending key order,
    which is the order of iteration of the map. *)
Fixpoint map_push_back (key : Z) (line : Line) (m : list (Z * list Line))
  : list (Z * list Line) :=
  match m with
  | [] => [(key, [line])]
  | (k, lines) :: m' =>
      if key <? k then (key, [line]) :: m
      else if key =? k then (k, lines ++ [line]) :: m'
      else (k, lines) :: map_push_back key line m'
  end.

Definition shadingIdToLines (lines : list Line) : list (Z * list Line) :=
  fold_left (fun m line => map_push_back (to_uint (shadingId line)) line m) lines [].

Definition linePositions (lineSetGeometry : PDF3D_U3D_LineSetGeometry) (lines : list Line)
  : list QVector3D :=
  flat_map (fun line => [ lineSet_getPosition lineSetGeometry (position1 line);
                          lineSet_getPosition lineSetGeometry (position2 line) ]) lines.

Definition lineColors (lineSetGeometry : PDF3D_U3D_LineSetGeometry) (lines : list Line)
  : list QVector3D :=
  flat_map (fun line =>
              [ toVector3D (lineSet_getDiffuseColor lineSetGeometry (diffuseColor1 line));
                toVector3D (lineSet_getDiffuseColor lineSetGeometry (diffuseColor2 line)) ])
           lines.

(** The body of the loop over the entries of the map: one entity per entry. *)
Definition createLineSetEntity (p : PDF3DSceneProcessor)
  (lineSetGeometry : PDF3D_U3D_LineSetGeometry) (item : Z * list Line) : outcome QNode :=
  let shadingId := fst item in
  let lines := snd item in
  positionAttribute <- createPositionAttribute (linePositions lineSetGeometry lines) ;;
  colorAttribute <- createColorAttribute (lineColors lineSetGeometry lines) ;;
  let geometryRenderer :=
    {| geometry := [positionAttribute; colorAttribute];
       primitiveRestartEnabled := false;
       primitiveType := PrimitiveType.Lines |} in
  let shaderName := lineSet_getShaderName lineSetGeometry shadingId in
  material <- createMaterialFromShader p shaderName true ;;
  Done (renderEntity geometryRenderer material).

(** The entity returned for the entities of the entries: the only one, or a new
    entity that is the parent of all of them. *)
Definition groupEntities (entities : list QNode) : QNode :=
  match entities with
  | [entity] => entity
  | _ => fold_left (fun entity currentEntity => setParent currentEntity entity)
                   entities new_QEntity
  end.

Definition createLineSetSolid (p : PDF3DSceneProcessor)
  (lineSetGeometry : PDF3D_U3D_LineSetGeometry) : outcome QNode :=
  entities <- mapM (createLineSetEntity p lineSetGeometry)
                   (shadingIdToLines (lineSet_getLines lineSetGeometry)) ;;
  Done (groupEntities entities).

Definition createLineSetWireframe (p : PDF3DSceneProcessor)
  (lineSetGeometry : PDF3D_U3D_LineSetGeometry) : outcome QNode :=
  positionAttribute <- createPositionAttribute (lineSet_getPositions lineSetGeometry) ;;
  let lineCount := to_uint (lineSet_getLineCount lineSetGeometry) in
  indexBuffer <- fillUIntBuffer BufferType.IndexBuffer
                   (uint_mul lineCount 2 * sizeof_uint)
                   (flat_map (fun line => [position1 line; position2 line])
                             (firstZ lineCount (lineSet_getLines lineSetGeometry))) ;;
  let indexAttribute := indexAttribute indexBuffer (uint_mul 2 lineCount) in
  let geometryRenderer :=
    {| geometry := [positionAttribute; indexAttribute];
       primitiveRestartEnabled := false;
       primitiveType := PrimitiveType.Lines |} in
  Done (renderEntity geometryRenderer (auxiliaryMaterial p)).

(** The colour of vertex [i] in shaded vertices mode: the two tests are made
    one after the other, so the second endpoint wins when both match. *)
Definition lineSetColor (lineSetGeometry : PDF3D_U3D_LineSetGeometry) (i : Z) : QVector3D :=
  match lineSet_queryLinesByVertexIndex lineSetGeometry i with
  | [] => QVector3D_zero
  | line :: _ =>
      let color := QVector3D_zero in
      let color :=
        if position1 line =? i
        then toVector3D (lineSet_getDiffuseColor lineSetGeometry (diffuseColor1 line))
        else color in
      let color :=
        if position2 line =? i
        then toVector3D (lineSet_getDiffuseColor lineSetGeometry (diffuseColor2 line))
        else color in
      color
  end.

Definition createLineSetGeometry (p : PDF3DSceneProcessor)
  (lineSetGeometry : PDF3D_U3D_LineSetGeometry) : outcome (option QNode) :=
  if lineSet_isEmpty lineSetGeometry then Done None
  else
    match m_mode p with
    | SceneMode.BoundingBox => boundingBoxWire p (lineSet_getPositions lineSetGeometry)
    | SceneMode.TransparentBoundingBox =>
        boundingBoxTransparent p (lineSet_getPositions lineSetGeometry)
    | SceneMode.TransparentBoundingBoxOutline =>
        boundingBoxOutline p (lineSet_getPositions lineSetGeometry)
    | SceneMode.Illustration
    | SceneMode.ShadedIllustration
    | SceneMode.Wireframe =>
        entity <- createLineSetWireframe p lineSetGeometry ;; Done (Some entity)
    | SceneMode.ShadedWireframe
    | SceneMode.HiddenWireframe
    | SceneMode.SolidOutline
    | SceneMode.Transparent
    | SceneMode.TransparentWireframe
    | SceneMode.Solid
    | SceneMode.SolidWireframe =>
        entity <- createLineSetSolid p lineSetGeometry ;; Done (Some entity)
    | SceneMode.Vertices =>
        entity <- createVertexGeometry p (lineSet_getPositions lineSetGeometry) ;;
        Done (Some entity)
    | SceneMode.ShadedVertices =>
        positionAttribute <- createPositionAttribute (lineSet_getPositions lineSetGeometry) ;;
        entity <- coloredPoints p positionAttribute (lineSetColor lineSetGeometry) ;;
        Done (Some entity)
    end.

(** ** [createModelNode] (lines 277-303) *)

Definition createModelNode (p : PDF3DSceneProcessor) (node : PDF3D_U3D_Node)
  : outcome (option QNode) :=
  processedNode <-
    match getGeometry (m_sceneData p) (getResourceName node) with
    | Some (MeshGeometry meshGeometry) => createMeshGeometry p meshGeometry
    | Some (PointSetGeometry pointSetGeometry) => createPointSetGeometry p pointSetGeometry
    | Some (LineSetGeometry lineSetGeometry) => createLineSetGeometry p lineSetGeometry
    | Some OtherGeometry => Done None
    | None => Done None
    end ;;
  match processedNode with
  | Some n => Done (Some (setObjectName n (getNodeName node)))
  | None => Done None
  end.

(** ** [createNode] (lines 197-275) *)

(** The loop over the children of [node], for a non-null [processedNode];
    [visit] is the recursive call on the node of a child name. *)
Fixpoint attachChildren
  (visit : PDF3D_U3D_Node -> QColor -> outcome (option QNode * QColor))
  (p : PDF3DSceneProcessor) (node : PDF3D_U3D_Node) (childNodeNames : list string)
  (processedNode : QNode) (globalAmbientColor : QColor) : outcome (QNode * QColor) :=
  match childNodeNames with
  | [] => Done (processedNode, globalAmbientColor)
  | childNodeName :: rest =>
      r <- visit (getNode (m_sceneData p) childNodeName) globalAmbientColor ;;
      let (childNode, globalAmbientColor) := r in
      match childNode with
      | None => attachChildren visit p node rest processedNode globalAmbientColor
      | Some childNode =>
          let processedNode :=
            if hasChildTransform node && negb (hasConstantChildTransform node)
            then
              let entity := addComponent new_QEntity
                              (TransformComponent (getChildTransform node childNodeName)) in
              setParent (setParent childNode entity) processedNode
            else setParent childNode processedNode in
          attachChildren visit p node rest processedNode globalAmbientColor
      end
  end.

(** [createNode]; [fuel] bounds the depth of the recursion.  A [View] node
    returns at once; the [default] label of the switch is never reached for the
    five node types. *)
Fixpoint createNode (fuel : nat) (p : PDF3DSceneProcessor) (node : PDF3D_U3D_Node)
  (globalAmbientColor : QColor) {struct fuel} : outcome (option QNode * QColor) :=
  match fuel with
  | O => OutOfFuel
  | S fuel' =>
      r <-
        match getType node with
        | NodeType.Unknown => Done (Some new_QNode, globalAmbientColor)
        | NodeType.Group =>
            if hasChildTransform node && hasConstantChildTransform node
            then Done (Some (addComponent new_QEntity
                               (TransformComponent (getConstantChildTransform node))),
                       globalAmbientColor)
            else Done (Some new_QNode, globalAmbientColor)
        | NodeType.Model =>
            processedNode <- createModelNode p node ;;
            Done (processedNode, globalAmbientColor)
        | NodeType.Light => createLightNode p node globalAmbientColor
        | NodeType.View => Done (None, globalAmbientColor)
        end ;;
      let (processedNode, globalAmbientColor) := r in
      match processedNode with
      | None => Done (None, globalAmbientColor)
      | Some processedNode =>
          let processedNode := setObjectName processedNode (getNodeName node) in
          r <- attachChildren (createNode fuel' p) p node (getChildren node)
                              processedNode globalAmbientColor ;;
          let (processedNode, globalAmbientColor) := r in
          Done (Some processedNode, globalAmbientColor)
      end
  end.

(** ** [createScene] (lines 124-135) *)

Definition createScene (fuel : nat) (p : PDF3DSceneProcessor) (sceneData : PDF3D_U3D)
  : outcome (Scene * PDF3DSceneProcessor) :=
  let p := beginScene p sceneData in
  r <- createNode fuel p (getNode sceneData (m_sceneRoot p)) (m_globalAmbientColor p) ;;
  let (root, globalAmbientColor) := r in
  Done ({| sceneRoot := root |}, setGlobalAmbientColor p globalAmbientColor).

End Model.

(** ** Vocabulary of the statements *)

Section Vocabulary.

Context {float : Type} {FO : FloatOps float}.

(** The object names of a node and of all the nodes below it. *)
Fixpoint nodeNames (n : @QNode float) : list string :=
  match n with
  | mkQNode _ name _ ch => name :: flat_map nodeNames ch
  end.

(** The attributes of the geometry renderers of an entity. *)
Definition rendererAttributes (n : @QNode float) : list QAttribute :=
  flat_map (fun c => match c with
                     | GeometryRendererComponent r => geometry r
                     | _ => []
                     end) (components n).

(** The modes of the colored-lines case of [createLineSetGeometry]. *)
Definition solidFamily (mode : SceneMode.t) : bool :=
  match mode with
  | SceneMode.ShadedWireframe | SceneMode.HiddenWireframe | SceneMode.SolidOutline
  | SceneMode.Transparent | SceneMode.TransparentWireframe | SceneMode.Solid
  | SceneMode.SolidWireframe => true
  | _ => false
  end.

(** The modes whose labels of [createMeshGeometry] fall through to [default]. *)
Definition meshModeNotCovered (mode : SceneMode.t) : bool :=
  match mode with
  | SceneMode.Illustration | SceneMode.ShadedIllustration | SceneMode.ShadedWireframe
  | SceneMode.HiddenWireframe | SceneMode.SolidOutline | SceneMode.Transparent
  | SceneMode.TransparentWireframe | SceneMode.SolidWireframe
  | SceneMode.ShadedVertices => true
  | _ => false
  end.

(** The resource of a node resolves to no renderable geometry: it is missing,
    it is of a kind that none of the three casts accepts, or it is empty. *)
Definition noRenderableGeometry (p : @PDF3DSceneProcessor float)
  (node : @PDF3D_U3D_Node float) : Prop :=
  match getGeometry (m_sceneData p) (getResourceName node) with
  | None => True
  | Some OtherGeometry => True
  | Some (MeshGeometry g) => mesh_isEmpty g = true
  | Some (PointSetGeometry g) => pointSet_isEmpty g = true
  | Some (LineSetGeometry g) => lineSet_isEmpty g = true
  end.

(** The child relation of the node graph is well founded: [rank] decreases
    from every node name to the names of its children. *)
Definition ranked (sceneData : @PDF3D_U3D float) (rank : string -> nat) : Prop :=
  forall name child,
    In child (getChildren (getNode sceneData name)) -> (rank child < rank name)%nat.

(** The four components of the colour added by an ambient light. *)
Definition addAmbient (c : QColor) (light : PDF3D_U3D_Light) : QColor :=
  {| redF := fadd (redF c) (fmul (redF (light_getColor light)) (light_getIntensity light));
     greenF := fadd (greenF c) (fmul (greenF (light_getColor light)) (light_getIntensity light));
     blueF := fadd (blueF c) (fmul (blueF (light_getColor light)) (light_getIntensity light));
     alphaF := alphaF c |}.

(** The attribute that reads [dataSize] floats per vertex at [offset] bytes into
    vertices of [stride] bytes. *)
Definition interleaved (a : @QAttribute float) (name : string) (dataSize offset stride n : Z)
  (buffer : QBuffer) : Prop :=
  attribute_name a = name /\ attributeType a = AttributeType.VertexAttribute /\
  vertexBaseType a = VertexBaseType.Float /\ vertexSize a = dataSize /\
  byteOffset a = offset /\ byteStride a = stride /\ count a = n /\
  attribute_buffer a = buffer.

(** [operator<] is a strict weak order on the values of [xs]: it is asymmetric
    and its complement is transitive. *)
Definition ordered_on (xs : list float) : Prop :=
  (forall a b, In a xs -> In b xs -> flt a b = true -> flt b a = false) /\
  (forall a b c, In a xs -> In b xs -> In c xs ->
                 flt a b = false -> flt b c = false -> flt a c = false).

(** A call that did not exhaust the fuel. *)
Definition terminated {A : Type} (o : outcome A) : Prop := o <> OutOfFuel.

(** The key of a line in the map from shading ids to lines. *)
Definition lineKey (l : Line) : Z := to_uint (shadingId l).

(** The map describes the lines seen so far: ascending keys, every entry the
    non-empty list of the lines of its key in their order, every key present. *)
Definition partitions (m : list (Z * list Line)) (lines : list Line) : Prop :=
  StronglySorted Z.lt (map fst m) /\
  (forall k ls, In (k, ls) m ->
                ls <> [] /\ ls = filter (fun l => lineKey l =? k) lines) /\
  (forall l, In l lines -> In (lineKey l) (map fst m)).

End Vocabulary.

(** ** Vocabulary of the encodings, the boxes and the traversal *)

Section EncodingVocabulary.

Context {float : Type} {FO : FloatOps float}.

(** The attribute of tightly packed values: three floats per value, one after
    the other, in a vertex buffer of twelve bytes per value. *)
Definition packedAttribute (name : string) (values : list (@QVector3D float)) : QAttribute :=
  {| attribute_name := name;
     attributeType := AttributeType.VertexAttribute;
     vertexBaseType := VertexBaseType.Float;
     vertexSize := 3;
     attribute_buffer :=
       {| buffer_type := BufferType.VertexBuffer;
          buffer_size := 12 * size values;
          buffer_data := FloatData (flat_map xyz values) |};
     byteOffset := 0;
     byteStride := 12;
     count := size values |}.

(** The entity of points drawn in the auxiliary colour, with the point size of
    the processor converted to [float]. *)
Definition vertexEntity (p : @PDF3DSceneProcessor float) (positions : list QVector3D)
  : QNode :=
  renderEntity
    {| geometry := [packedAttribute defaultPositionAttributeName positions];
       primitiveRestartEnabled := false;
       primitiveType := PrimitiveType.Points |}
    {| material_kind := QDiffuseSpecular
         {| ambient := m_auxiliaryColor p;
            diffuse := ColorValue Qt_transparent;
            specular := Qt_transparent;
            alphaBlendingEnabled := false |};
       renderStates := [QPointSize_Fixed (fnarrow (m_pointSize p))] |}.

(** The entity of points drawn in colours of their own. *)
Definition coloredPointsEntity (p : @PDF3DSceneProcessor float)
  (positions colors : list QVector3D) : QNode :=
  renderEntity
    {| geometry := [packedAttribute defaultPositionAttributeName positions;
                    packedAttribute defaultColorAttributeName colors];
       primitiveRestartEnabled := false;
       primitiveType := PrimitiveType.Points |}
    {| material_kind := QPerVertexColorMaterial;
       renderStates := [QPointSize_Fixed (fnarrow (m_pointSize p))] |}.

(** The entity of indexed lines drawn in the auxiliary colour. *)
Definition indexedLinesEntity (p : @PDF3DSceneProcessor float)
  (positions : list QVector3D) (lineIndices : list Z) : QNode :=
  renderEntity
    {| geometry := [packedAttribute defaultPositionAttributeName positions;
                    indexAttribute
                      {| buffer_type := BufferType.IndexBuffer;
                         buffer_size := 4 * size lineIndices;
                         buffer_data := UIntData lineIndices |}
                      (size lineIndices)];
       primitiveRestartEnabled := false;
       primitiveType := PrimitiveType.Lines |}
    (auxiliaryMaterial p).

(** The modes in which a point set is drawn as plain vertices. *)
Definition pointsAsVertices (mode : SceneMode.t) : bool :=
  match mode with
  | SceneMode.Illustration | SceneMode.ShadedIllustration
  | SceneMode.Wireframe | SceneMode.Vertices => true
  | _ => false
  end.

(** The modes in which a point set is drawn as coloured vertices. *)
Definition pointsAsColored (mode : SceneMode.t) : bool :=
  match mode with
  | SceneMode.ShadedWireframe | SceneMode.HiddenWireframe | SceneMode.SolidOutline
  | SceneMode.Transparent | SceneMode.TransparentWireframe | SceneMode.Solid
  | SceneMode.SolidWireframe | SceneMode.ShadedVertices => true
  | _ => false
  end.

(** The modes in which a line set is drawn as indexed lines. *)
Definition linesAsWireframe (mode : SceneMode.t) : bool :=
  match mode with
  | SceneMode.Illustration | SceneMode.ShadedIllustration | SceneMode.Wireframe => true
  | _ => false
  end.

(** The three bounding box modes. *)
Definition boundingBoxMode (mode : SceneMode.t) : bool :=
  match mode with
  | SceneMode.BoundingBox | SceneMode.TransparentBoundingBox
  | SceneMode.TransparentBoundingBoxOutline => true
  | _ => false
  end.

(** The two indices stored for a line of a line set, as [unsigned int]. *)
Definition lineIndexPair (line : Line) : list Z :=
  [to_uint (position1 line); to_uint (position2 line)].

End EncodingVocabulary.

Section BoxVocabulary.

Context {float : Type} {FO : FloatOps float}.

(** What the three bounding box modes return for the two box entities. *)
Definition boundingBoxNode (mode : SceneMode.t) (wire transparent : @QNode float)
  : option QNode :=
  match mode with
  | SceneMode.BoundingBox => Some wire
  | SceneMode.TransparentBoundingBox => Some transparent
  | SceneMode.TransparentBoundingBoxOutline =>
      Some (mkQNode false EmptyString [] [wire; transparent])
  | _ => None
  end.

(** The corner of a box that an index of the index buffers refers to. *)
Definition corner (boundingBox : @PDF3DBoundingBox float) (i : Z) : QVector3D :=
  nth (Z.to_nat i) (boundingBoxPositions boundingBox) QVector3D_zero.

(** The index buffer of a line list, two indices per line, and of a triangle
    list, three indices per triangle. *)
Fixpoint pairs {A : Type} (l : list A) : list (A * A) :=
  match l with
  | a :: b :: rest => (a, b) :: pairs rest
  | _ => []
  end.

Fixpoint triples {A : Type} (l : list A) : list (A * A * A) :=
  match l with
  | a :: b :: c :: rest => (a, b, c) :: triples rest
  | _ => []
  end.

(** Two corners that take two of their three coordinates from the same corner
    of the box: they lie on a line parallel to an axis. *)
Definition alongAxis (u v : @QVector3D float) : Prop :=
  (vy u = vy v /\ vz u = vz v) \/ (vx u = vx v /\ vz u = vz v) \/
  (vx u = vx v /\ vy u = vy v).

(** Three corners that take one coordinate from the same corner of the box:
    they lie in one face. *)
Definition inOneFace (u v w : @QVector3D float) : Prop :=
  (vx u = vx v /\ vx v = vx w) \/ (vy u = vy v /\ vy v = vy w) \/
  (vz u = vz v /\ vz v = vz w).

(** An edge without its direction. *)
Definition undirected (e : Z * Z) : Z * Z := (Z.min (fst e) (snd e), Z.max (fst e) (snd e)).

(** The two cases in which [createMaterialFromShader] dereferences a null
    pointer: no shader of that name, or a shader without texture that does not
    use vertex colours and names a material that is missing. *)
Definition materialUnresolved (p : @PDF3DSceneProcessor float) (shaderName : string)
  (forceUseVertexColors : bool) : Prop :=
  match getShader (m_sceneData p) shaderName with
  | None => True
  | Some shader =>
      getTextureInfos shader = [] /\
      isUseVertexColor shader || forceUseVertexColors = false /\
      getMaterial (m_sceneData p) (getMaterialName shader) = None
  end.

End BoxVocabulary.

Section TraversalVocabulary.

Context {float : Type} {FO : FloatOps float}.

(** The two ways in which a call stops without a value, the fuel of the model
    apart. *)
Inductive Failure : Set := AssertionFailure | UndefinedBehaviour.

Definition fails {A : Type} (f : Failure) (o : outcome A) : Prop :=
  match f, o with
  | AssertionFailure, AssertFailed => True
  | UndefinedBehaviour, Undefined => True
  | _, _ => False
  end.

(** The two modes that draw the faces of the bounding box. *)
Definition transparentBoxMode (mode : SceneMode.t) : bool :=
  match mode with
  | SceneMode.TransparentBoundingBox | SceneMode.TransparentBoundingBoxOutline => true
  | _ => false
  end.

(** What a caller sees of a build: the scene and the ambient colour. *)
Definition sceneAndAmbient (o : outcome (@Scene float * @PDF3DSceneProcessor float))
  : outcome (Scene * QColor) :=
  r <- o ;; Done (fst r, m_globalAmbientColor (snd r)).

(** What the loop over the children attaches for the node built for a child. *)
Definition attachedChild (node : @PDF3D_U3D_Node float) (childNodeName : string)
  (childNode : @QNode float) : QNode :=
  if hasChildTransform node && negb (hasConstantChildTransform node)
  then mkQNode true EmptyString
               [TransformComponent (getChildTransform node childNodeName)] [childNode]
  else childNode.

(** The nodes that the loop over the children attaches, in their order, and
    the ambient colour it leaves: the child names are visited one after the
    other, each visit starting from the ambient colour that the one before
    left; a visit that gives a node attaches it, a visit that gives none
    attaches nothing. *)
Fixpoint attachedNodes
  (visit : @PDF3D_U3D_Node float -> @QColor float -> outcome (option QNode * QColor))
  (p : @PDF3DSceneProcessor float) (node : @PDF3D_U3D_Node float)
  (childNodeNames : list string) (globalAmbientColor : QColor)
  : outcome (list QNode * QColor) :=
  match childNodeNames with
  | [] => Done ([], globalAmbientColor)
  | childNodeName :: rest =>
      r <- visit (getNode (m_sceneData p) childNodeName) globalAmbientColor ;;
      r' <- attachedNodes visit p node rest (snd r) ;;
      Done (match fst r with
            | Some childNode => attachedChild node childNodeName childNode :: fst r'
            | None => fst r'
            end, snd r')
  end.

End TraversalVocabulary.

Section NameVocabulary.

Context {float : Type} {FO : FloatOps float}.

(** A node without a name over nodes without names. *)
Definition anonymous (n : @QNode float) : Prop :=
  Forall (fun name => name = EmptyString) (nodeNames n).

(** The names that the visit of [node] may give to a node: none, the name of
    [node], or the name of a node of the scene data. *)
Definition namedAfter (sceneData : @PDF3D_U3D float) (node : @PDF3D_U3D_Node float)
  (name : string) : Prop :=
  name = EmptyString \/ name = getNodeName node \/
  exists nodeName, name = getNodeName (getNode sceneData nodeName).

(** The shape of the tree built for a node of the model: the root carries the
    name of the node; its first children, none unless the node is a model
    node, are nodes without names over nodes without names; the children after
    them belong to the child names of the node in their order, none or one per
    child name, and each is the tree built for the node of that child name,
    below an entity without a name when the node has child transforms that are
    not constant. *)
Inductive built (sceneData : @PDF3D_U3D float)
  : @PDF3D_U3D_Node float -> @QNode float -> Prop :=
| built_node (node : PDF3D_U3D_Node) (e : bool) (cs : list QComponent)
    (own attached : list QNode) :
    Forall anonymous own ->
    (getType node <> NodeType.Model -> own = []) ->
    builtChildren sceneData node (getChildren node) attached ->
    built sceneData node (mkQNode e (getNodeName node) cs (own ++ attached))
with builtChildren (sceneData : @PDF3D_U3D float)
  : @PDF3D_U3D_Node float -> list string -> list (@QNode float) -> Prop :=
| builtChildren_nil (node : PDF3D_U3D_Node) : builtChildren sceneData node [] []
| builtChildren_none (node : PDF3D_U3D_Node) (childNodeName : string) (rest : list string)
    (attached : list QNode) :
    builtChildren sceneData node rest attached ->
    builtChildren sceneData node (childNodeName :: rest) attached
| builtChildren_some (node : PDF3D_U3D_Node) (childNodeName : string) (rest : list string)
    (childNode : QNode) (attached : list QNode) :
    built sceneData (getNode sceneData childNodeName) childNode ->
    builtChildren sceneData node rest attached ->
    builtChildren sceneData node (childNodeName :: rest)
                  (attachedChild node childNodeName childNode :: attached).

End NameVocabulary.

(** ** Vocabulary of the IEEE comparisons

    The statements about the bounding box are made for IEEE floating point,
    with the comparisons [<=?] and [=?] of the primitive floats ([operator<=]
    and [operator==]), on the coordinates that hold no NaN. *)

(** A value that is not NaN: it is equal to itself. *)
Definition notNaN (x : PrimFloat.float) : Prop := PrimFloat.is_nan x = false.

(** The three coordinates of a point. *)
Definition axes : list (@QVector3D PrimFloat.float -> PrimFloat.float) := [vx; vy; vz].

(** No point of [P] has a NaN as its coordinate [axis]. *)
Definition noNaN (axis : @QVector3D PrimFloat.float -> PrimFloat.float)
  (P : list (@QVector3D PrimFloat.float)) : Prop :=
  forall q, In q P -> notNaN (axis q).

(** The place of a value that is not NaN in the order of [SFcompare], the
    comparison that specifies the primitive ones: the class (negative infinity,
    negative, zero, positive, positive infinity), then the exponent and the
    mantissa, both negated for a negative value. *)
Definition SFclass (x : spec_float) : Z :=
  match x with
  | S754_infinity true => -2
  | S754_finite true _ _ => -1
  | S754_finite false _ _ => 1
  | S754_infinity false => 2
  | _ => 0
  end.

Definition SFexponent (x : spec_float) : Z :=
  match x with
  | S754_finite true _ e => - e
  | S754_finite false _ e => e
  | _ => 0
  end.

Definition SFmantissa (x : spec_float) : Z :=
  match x with
  | S754_finite true m _ => Z.neg m
  | S754_finite false m _ => Z.pos m
  | _ => 0
  end.

Definition SFbelow (x y : spec_float) : Prop :=
  SFclass x < SFclass y \/
  (SFclass x = SFclass y /\
   (SFexponent x < SFexponent y \/
    (SFexponent x = SFexponent y /\ SFmantissa x < SFmantissa y))).

(** ** Example model data *)

Section ExampleBuilders.

Context {float : Type} {FO : FloatOps float}.

Definition ex_node (t : NodeType.t) (name : string) (childNames : list string)
  (resource : string) : @PDF3D_U3D_Node float :=
  {| getType := t; getNodeName := name; getChildren := childNames;
     hasChildTransform := false; hasConstantChildTransform := false;
     getConstantChildTransform := []; getChildTransform := fun _ => [];
     getResourceName := resource |}.

Definition ex_image : QImage :=
  {| img_width := 2; img_height := 1; img_pixels := [255; 0] |}.

(** Model data with the given nodes and resources and one texture image. *)
Definition ex_data (nodes : string -> @PDF3D_U3D_Node float)
  (geometries : string -> option (@PDF3D_U3D_Geometry float))
  (lights : string -> option (@PDF3D_U3D_Light float))
  (shaders : string -> option (@PDF3D_U3D_Shader float))
  (materials : string -> option (@PDF3D_U3D_Material float)) : @PDF3D_U3D float :=
  {| getNode := nodes; getGeometry := geometries; getLight := lights;
     getShader := shaders; getMaterial := materials; getTexture := fun _ => ex_image |}.

Definition ex_color (r g b a : float) : @QColor float :=
  {| redF := r; greenF := g; blueF := b; alphaF := a |}.

Definition ex_processor (mode : SceneMode.t) (aux face ambientColor : @QColor float)
  (opacity pointSize : float) (root : string) (sceneData : @PDF3D_U3D float)
  : @PDF3DSceneProcessor float :=
  {| m_mode := mode; m_auxiliaryColor := aux; m_faceColor := face;
     m_opacity := opacity; m_creaseAngle := fzero; m_sceneRoot := root;
     m_pointSize := pointSize; m_globalAmbientColor := ambientColor;
     m_processedNodes := ["stale"%string]; m_sceneData := sceneData |}.

Definition ex_vertex (i : Z) : Vertex :=
  {| positionIndex := i; normalIndex := 0; diffuseColorIndex := 0; textureCoordIndex := 0 |}.

Definition ex_triangle : Triangle :=
  {| vertex0 := ex_vertex 0; vertex1 := ex_vertex 1; vertex2 := ex_vertex 2;
     hasTexture := false; hasDiffuse := true; hasSpecular := false |}.

(** A mesh of [n] copies of one triangle over the given positions. *)
Definition ex_mesh (empty : bool) (positions : list (@QVector3D float)) (n : nat)
  : @PDF3D_U3D_MeshGeometry float :=
  {| mesh_isEmpty := empty;
     mesh_getPositions := positions;
     mesh_getTriangles := repeat ex_triangle n;
     mesh_getPosition := fun i => nth (Z.to_nat i) positions QVector3D_zero;
     mesh_getNormal := fun _ => {| vx := fzero; vy := fzero; vz := fzero |};
     mesh_getDiffuseColor := fun _ => {| wx := fzero; wy := fzero; wz := fzero; ww := fzero |};
     mesh_getTextureCoordinate :=
       fun _ => {| wx := fzero; wy := fzero; wz := fzero; ww := fzero |};
     mesh_getShaderName := fun _ => "shader"%string |}.

Definition ex_line (a b sid : Z) : Line :=
  {| position1 := a; position2 := b; diffuseColor1 := 0; diffuseColor2 := 1; shadingId := sid |}.

Definition ex_lineSet (positions : list (@QVector3D float)) (lines : list Line)
  : @PDF3D_U3D_LineSetGeometry float :=
  {| lineSet_isEmpty := false;
     lineSet_getPositions := positions;
     lineSet_getLines := lines;
     lineSet_getPosition := fun i => nth (Z.to_nat i) positions QVector3D_zero;
     lineSet_getDiffuseColor :=
       fun _ => {| wx := fzero; wy := fzero; wz := fzero; ww := fzero |};
     lineSet_getShaderName := fun sid => if sid =? 7 then "seven"%string else "other"%string;
     lineSet_queryLinesByVertexIndex :=
       fun i => filter (fun l => (position1 l =? i) || (position2 l =? i)) lines |}.

Definition ex_noNode (name : string) : @PDF3D_U3D_Node float :=
  ex_node NodeType.Unknown name [] EmptyString.

End ExampleBuilders.

Open Scope string_scope.

(** A group "R" whose child "M" is a model node with a missing resource and a
    child "C" of its own. *)
Definition ex_dropNodes (name : string) : @PDF3D_U3D_Node PrimFloat.float :=
  if String.eqb name "R" then ex_node NodeType.Group "R" ["M"] ""
  else if String.eqb name "M" then ex_node NodeType.Model "M" ["C"] "geometry"
  else ex_noNode name.

Definition ex_dropData : @PDF3D_U3D PrimFloat.float :=
  ex_data ex_dropNodes (fun _ => None) (fun _ => None) (fun _ => None) (fun _ => None).

(** A rank for the nodes of [ex_dropData]. *)
Definition ex_rank (name : string) : nat :=
  if String.eqb name "R" then 2%nat else if String.eqb name "M" then 1%nat else 0%nat.

(** A view node with a child. *)
Definition ex_viewNode : @PDF3D_U3D_Node PrimFloat.float :=
  ex_node NodeType.View "V" ["C"] "".

(** A group "R" that names itself as its child. *)
Definition ex_cyclicData : @PDF3D_U3D PrimFloat.float :=
  ex_data (fun _ => ex_node NodeType.Group "R" ["R"] "")
          (fun _ => None) (fun _ => None) (fun _ => None) (fun _ => None).

Definition ex_red : @QColor PrimFloat.float := ex_color 1%float 0%float 0%float 1%float.
Definition ex_green : @QColor PrimFloat.float := ex_color 0%float 1%float 0%float 1%float.
Definition ex_black : @QColor PrimFloat.float := ex_color 0%float 0%float 0%float 1%float.

Definition ex_positions : list (@QVector3D PrimFloat.float) :=
  [ {| vx := 0%float; vy := 1%float; vz := 2%float |};
    {| vx := 3%float; vy := (-1)%float; vz := 5%float |};
    {| vx := 1%float; vy := 1%float; vz := 1%float |} ].

(** Three shaders: flat with an alpha test, per-vertex colour, textured. *)
Definition ex_shaders (name : string) : option (@PDF3D_U3D_Shader PrimFloat.float) :=
  if String.eqb name "shader" then
    Some {| getTextureInfos := []; isUseVertexColor := false; isAlphaTestEnabled := true;
            getAlphaTestReference := 0.5%float;
            getAlphaTestFunction := AlphaTestFunction.GREATER;
            getMaterialName := "material" |}
  else if String.eqb name "seven" then
    Some {| getTextureInfos := []; isUseVertexColor := true; isAlphaTestEnabled := false;
            getAlphaTestReference := 0%float;
            getAlphaTestFunction := AlphaTestFunction.ALWAYS;
            getMaterialName := "material" |}
  else if String.eqb name "other" then
    Some {| getTextureInfos := [ {| textureName := "first" |}; {| textureName := "second" |} ];
            isUseVertexColor := false; isAlphaTestEnabled := false;
            getAlphaTestReference := 0%float;
            getAlphaTestFunction := AlphaTestFunction.ALWAYS;
            getMaterialName := "material" |}
  else None.

Definition ex_materials (name : string) : option (@PDF3D_U3D_Material PrimFloat.float) :=
  if String.eqb name "material" then
    Some {| getAmbientColor := ex_red; getDiffuseColor := ex_green; getSpecularColor := ex_black |}
  else None.

Definition ex_shaderData : @PDF3D_U3D PrimFloat.float :=
  ex_data ex_noNode (fun _ => None) (fun _ => None) ex_shaders ex_materials.

Definition ex_processorIEEE (mode : SceneMode.t) (sceneData : @PDF3D_U3D PrimFloat.float)
  : @PDF3DSceneProcessor PrimFloat.float :=
  ex_processor mode ex_red ex_green ex_black 0.5%float 3%float "R" sceneData.

(** Meshes of two triangles, of 14913081 triangles and of 89478486 triangles. *)
Definition ex_twoTriangles : @PDF3D_U3D_MeshGeometry PrimFloat.float :=
  ex_mesh false ex_positions 2.
Definition ex_hugeSolidMesh : @PDF3D_U3D_MeshGeometry PrimFloat.float :=
  ex_mesh false ex_positions (Z.to_nat 14913081).
Definition ex_hugeWireMesh : @PDF3D_U3D_MeshGeometry PrimFloat.float :=
  ex_mesh false ex_positions (Z.to_nat 89478486).
Definition ex_emptyMesh : @PDF3D_U3D_MeshGeometry PrimFloat.float :=
  ex_mesh true [] 0.

(** Three lines, two with shading id 7 and one with shading id 3. *)
Definition ex_lines : @PDF3D_U3D_LineSetGeometry PrimFloat.float :=
  ex_lineSet ex_positions [ex_line 0 1 7; ex_line 1 2 3; ex_line 2 0 7].

(** 89478486 lines with shading id 7. *)
Definition ex_hugeLines : @PDF3D_U3D_LineSetGeometry PrimFloat.float :=
  ex_lineSet ex_positions (repeat (ex_line 0 1 7) (S (Z.to_nat 89478485))).

(** Points with a NaN coordinate, in two orders that differ after the first. *)
Definition ex_nanPoints1 : list (@QVector3D PrimFloat.float) :=
  [ {| vx := 0%float; vy := 0%float; vz := 0%float |};
    {| vx := 1%float; vy := 0%float; vz := 0%float |};
    {| vx := nan; vy := 0%float; vz := 0%float |} ].
Definition ex_nanPoints2 : list (@QVector3D PrimFloat.float) :=
  [ {| vx := 0%float; vy := 0%float; vz := 0%float |};
    {| vx := nan; vy := 0%float; vz := 0%float |};
    {| vx := 1%float; vy := 0%float; vz := 0%float |} ].





(** Two ambient lights over exact arithmetic. *)
Definition ex_half : Qc := Q2Qc (1 # 2).
Definition ex_light1 : @PDF3D_U3D_Light Qc :=
  {| light_getType := LightType.Ambient;
     light_getColor := ex_color ex_half (Q2Qc 1) (Q2Qc 0) (Q2Qc 1);
     light_getIntensity := Q2Qc 3;
     light_getAttenuation := (Q2Qc 1, Q2Qc 0, Q2Qc 0);
     light_getSpotAngle := Q2Qc 0 |}.

Definition ex_light2 : @PDF3D_U3D_Light Qc :=
  {| light_getType := LightType.Ambient;
     light_getColor := ex_color (Q2Qc 1) ex_half ex_half (Q2Qc 1);
     light_getIntensity := ex_half;
     light_getAttenuation := (Q2Qc 1, Q2Qc 0, Q2Qc 0);
     light_getSpotAngle := Q2Qc 0 |}.

Definition ex_lightsExact (name : string) : option (@PDF3D_U3D_Light Qc) :=
  if String.eqb name "L1" then Some ex_light1
  else if String.eqb name "L2" then Some ex_light2
  else None.

Definition ex_lightData : @PDF3D_U3D Qc :=
  ex_data ex_noNode (fun _ => None) ex_lightsExact (fun _ => None) (fun _ => None).

Definition ex_processorExact : @PDF3DSceneProcessor Qc :=
  ex_processor SceneMode.Solid
    (ex_color (Q2Qc 1) (Q2Qc 0) (Q2Qc 0) (Q2Qc 1))
    (ex_color (Q2Qc 0) (Q2Qc 1) (Q2Qc 0) (Q2Qc 1))
    (ex_color ex_half ex_half ex_half (Q2Qc 1))
    ex_half (Q2Qc 3) "R" ex_lightData.

Definition ex_lightNode (resource : string) : @PDF3D_U3D_Node Qc :=
  ex_node NodeType.Light resource [] resource.

(** Model data whose every node is the node of the ambient light "L1", and
    model data with a spot light. *)
Definition ex_ambientData : @PDF3D_U3D Qc :=
  ex_data (fun _ => ex_lightNode "L1") (fun _ => None) ex_lightsExact
          (fun _ => None) (fun _ => None).

Definition ex_spotLight : @PDF3D_U3D_Light Qc :=
  {| light_getType := LightType.Spot;
     light_getColor := ex_color (Q2Qc 1) (Q2Qc 1) ex_half (Q2Qc 1);
     light_getIntensity := Q2Qc 2;
     light_getAttenuation := (Q2Qc 1, ex_half, Q2Qc 0);
     light_getSpotAngle := Q2Qc 30 |}.

Definition ex_spotData : @PDF3D_U3D Qc :=
  ex_data ex_noNode (fun _ => None) (fun _ => Some ex_spotLight)
          (fun _ => None) (fun _ => None).

Definition ex_spotProcessor : @PDF3DSceneProcessor Qc :=
  ex_processor SceneMode.Solid
    (m_globalAmbientColor ex_processorExact) (m_globalAmbientColor ex_processorExact)
    (m_globalAmbientColor ex_processorExact) ex_half ex_half "R" ex_spotData.

(** Three points: the first red, the second referenced by no point, the third
    green. *)
Definition ex_pointSet : @PDF3D_U3D_PointSetGeometry PrimFloat.float :=
  {| pointSet_isEmpty := false;
     pointSet_getPositions := ex_positions;
     pointSet_queryPointsByVertexIndex :=
       fun i => if (i =? 1)%Z then []
                else [ {| point_position := i; point_diffuseColor := i |} ];
     pointSet_getDiffuseColor :=
       fun k => if (k =? 0)%Z
                then {| wx := 1%float; wy := 0%float; wz := 0%float; ww := 1%float |}
                else {| wx := 0%float; wy := 1%float; wz := 0%float; ww := 1%float |} |}.

(** The lines of [ex_lines] with colour 0 red and every other colour green. *)
Definition ex_coloredLines : @PDF3D_U3D_LineSetGeometry PrimFloat.float :=
  {| lineSet_isEmpty := false;
     lineSet_getPositions := ex_positions;
     lineSet_getLines := lineSet_getLines ex_lines;
     lineSet_getPosition := lineSet_getPosition ex_lines;
     lineSet_getDiffuseColor :=
       fun k => if (k =? 0)%Z
                then {| wx := 1%float; wy := 0%float; wz := 0%float; ww := 1%float |}
                else {| wx := 0%float; wy := 1%float; wz := 0%float; ww := 1%float |};
     lineSet_getShaderName := lineSet_getShaderName ex_lines;
     lineSet_queryLinesByVertexIndex := lineSet_queryLinesByVertexIndex ex_lines |}.

(** A group "R" over three model nodes: a mesh, a point set and a line set. *)
Definition ex_modelNodes (name : string) : @PDF3D_U3D_Node PrimFloat.float :=
  if String.eqb name "R" then ex_node NodeType.Group "R" ["M"; "P"; "L"] ""
  else if String.eqb name "M" then ex_node NodeType.Model "M" [] "mesh"
  else if String.eqb name "P" then ex_node NodeType.Model "P" [] "points"
  else if String.eqb name "L" then ex_node NodeType.Model "L" [] "lines"
  else ex_noNode name.

Definition ex_modelGeometries (name : string) : option (@PDF3D_U3D_Geometry PrimFloat.float) :=
  if String.eqb name "mesh" then Some (MeshGeometry ex_twoTriangles)
  else if String.eqb name "points" then Some (PointSetGeometry ex_pointSet)
  else if String.eqb name "lines" then Some (LineSetGeometry ex_lines)
  else None.

Definition ex_modelData : @PDF3D_U3D PrimFloat.float :=
  ex_data ex_modelNodes ex_modelGeometries (fun _ => None) ex_shaders ex_materials.

Definition ex_modelRank (name : string) : nat :=
  if String.eqb name "R" then 1%nat else 0%nat.

(** A group "G" with a transform per child over a leaf "A", a view "V" and a
    leaf "B". *)
Definition ex_transform (x : PrimFloat.float) : @QMatrix4x4 PrimFloat.float :=
  [ 1%float; 0%float; 0%float; x;
    0%float; 1%float; 0%float; 0%float;
    0%float; 0%float; 1%float; 0%float;
    0%float; 0%float; 0%float; 1%float ].

Definition ex_groupNode : @PDF3D_U3D_Node PrimFloat.float :=
  {| getType := NodeType.Group; getNodeName := "G"; getChildren := ["A"; "V"; "B"];
     hasChildTransform := true; hasConstantChildTransform := false;
     getConstantChildTransform := [];
     getChildTransform := fun name => if String.eqb name "A" then ex_transform 1%float
                                      else ex_transform 2%float;
     getResourceName := "" |}.

Definition ex_groupNodes (name : string) : @PDF3D_U3D_Node PrimFloat.float :=
  if String.eqb name "G" then ex_groupNode
  else if String.eqb name "V" then ex_node NodeType.View "V" [] ""
  else ex_noNode name.

Definition ex_groupData : @PDF3D_U3D PrimFloat.float :=
  ex_data ex_groupNodes (fun _ => None) (fun _ => None) (fun _ => None) (fun _ => None).

(** The node built for [ex_groupNode]. *)
Definition ex_groupBuilt : @QNode PrimFloat.float :=
  mkQNode false "G" []
    [ mkQNode true "" [TransformComponent (ex_transform 1%float)] [mkQNode false "A" [] []];
      mkQNode true "" [TransformComponent (ex_transform 2%float)] [mkQNode false "B" [] []] ].

(** A processor that differs from [ex_processorIEEE] in the auxiliary colour,
    the face colour, the opacity, the crease angle and the stored scene. *)
Definition ex_otherProcessor (mode : SceneMode.t) : @PDF3DSceneProcessor PrimFloat.float :=
  {| m_mode := mode; m_auxiliaryColor := ex_green; m_faceColor := ex_red;
     m_opacity := 0.25%float; m_creaseAngle := 45%float; m_sceneRoot := "R";
     m_pointSize := 3%float; m_globalAmbientColor := ex_black;
     m_processedNodes := []; m_sceneData := ex_dropData |}.

Close Scope string_scope.

(** * Properties *)

(** ** Lists and sizes *)

Lemma length_flat_map_const {A B : Type} (f : A -> list B) (n : nat) (l : list A) :
  (forall x, List.length (f x) = n) -> List.length (flat_map f l) = (n * List.length l)%nat.
Proof.
  intro Hf. induction l as [| x l IH]; simpl.
  - lia.
  - rewrite length_app, Hf, IH. lia.
Qed.

Lemma flat_map_chunk {A B : Type} (f : A -> list B) (n : nat) :
  (forall x, List.length (f x) = n) ->
  forall (l : list A) (k : nat) (a : A),
    nth_error l k = Some a ->
    firstn n (skipn (n * k) (flat_map f l)) = f a.
Proof.
  intro Hf. induction l as [| x l IH]; intros k a Hk.
  - destruct k; discriminate.
  - destruct k as [| k]; simpl in Hk.
    + injection Hk as ->. rewrite Nat.mul_0_r. simpl.
      rewrite <- (Hf a) at 1. rewrite firstn_app, Nat.sub_diag, firstn_all. simpl.
      apply app_nil_r.
    + simpl flat_map. replace (n * S k)%nat with (List.length (f x) + n * k)%nat
        by (rewrite Hf; lia).
      rewrite skipn_app, Nat.add_comm, Nat.add_sub.
      rewrite (skipn_all2 (f x)) by lia. simpl. now apply IH.
Qed.

Lemma nth_error_flat_map_chunk {A B : Type} (f : A -> list B) (n : nat) :
  (forall x, List.length (f x) = n) ->
  forall (l : list A) (k j : nat) (a : A) (b : B),
    nth_error l k = Some a -> nth_error (f a) j = Some b ->
    nth_error (flat_map f l) (n * k + j) = Some b.
Proof.
  intro Hf. induction l as [| x l IH]; intros k j a b Hk Hj.
  - destruct k; discriminate.
  - destruct k as [| k]; simpl in Hk.
    + injection Hk as ->. rewrite Nat.mul_0_r. simpl.
      rewrite nth_error_app1; [exact Hj |].
      apply nth_error_Some. rewrite Hj. discriminate.
    + simpl flat_map. rewrite nth_error_app2 by (rewrite Hf; lia).
      replace (n * S k + j - List.length (f x))%nat with (n * k + j)%nat by (rewrite Hf; lia).
      now apply (IH k j a b).
Qed.

Lemma flat_map_flat_map {A B C : Type} (f : B -> list C) (g : A -> list B) (l : list A) :
  flat_map (fun x => flat_map f (g x)) l = flat_map f (flat_map g l).
Proof.
  induction l as [| x l IH]; simpl.
  - reflexivity.
  - now rewrite flat_map_app, IH.
Qed.

Lemma map_flat_map {A B C : Type} (f : B -> C) (g : A -> list B) (l : list A) :
  map f (flat_map g l) = flat_map (fun x => map f (g x)) l.
Proof.
  induction l as [| x l IH]; simpl.
  - reflexivity.
  - now rewrite map_app, IH.
Qed.

(** Values that fit 32 bits are not changed by the conversion. *)

Lemma to_uint_small (z : Z) : 0 <= z < 2 ^ 32 -> to_uint z = z.
Proof. intro H. unfold to_uint, UINT_MODULUS. now apply Z.mod_small. Qed.

Lemma to_uint_bound (z : Z) : 0 <= to_uint z < 2 ^ 32.
Proof. unfold to_uint, UINT_MODULUS. apply Z.mod_pos_bound. lia. Qed.

Lemma to_int_small (z : Z) : 0 <= z < 2 ^ 31 -> to_int z = z.
Proof.
  intro H. unfold to_int, UINT_MODULUS. rewrite Z.mod_small by lia.
  destruct (Z.ltb_spec z (2 ^ 31)); lia.
Qed.

Lemma QByteArray_resize_small (z : Z) : 0 <= z < 2 ^ 31 -> QByteArray_resize z = z.
Proof. intro H. unfold QByteArray_resize. rewrite to_int_small by exact H. lia. Qed.

Lemma QByteArray_resize_bound (z : Z) : 0 <= QByteArray_resize z < 2 ^ 31.
Proof.
  unfold QByteArray_resize, to_int, UINT_MODULUS.
  pose proof (Z.mod_pos_bound z (2 ^ 32) ltac:(lia)) as H.
  destruct (Z.ltb_spec (z mod 2 ^ 32) (2 ^ 31)); lia.
Qed.

Lemma size_nonneg {A : Type} (l : list A) : 0 <= size l.
Proof. unfold size. lia. Qed.


(** ** The bounding box *)

Section BoundingBoxProperties.

Context {float : Type} {FO : FloatOps float}.


Lemma ordered_on_irrefl (xs : list float) (a : float) :
  ordered_on xs -> In a xs -> flt a a = false.
Proof.
  intros [Hasym _] Ha. destruct (flt a a) eqn:E; [| reflexivity].
  rewrite (Hasym a a Ha Ha E) in E. discriminate.
Qed.

Lemma ordered_on_incl (xs ys : list float) :
  incl xs ys -> ordered_on ys -> ordered_on xs.
Proof.
  intros Hi [Ha Ht]. split.
  - intros a b Hx Hy. apply Ha; auto.
  - intros a b c Hx Hy Hz. apply Ht; auto.
Qed.

Lemma qMin_cases (a b : float) : qMin a b = a \/ qMin a b = b.
Proof. unfold qMin. destruct (flt a b); auto. Qed.

Lemma qMax_cases (a b : float) : qMax a b = a \/ qMax a b = b.
Proof. unfold qMax. destruct (flt a b); auto. Qed.

Lemma qMin_idem (a : float) : qMin a a = a.
Proof. unfold qMin. now destruct (flt a a). Qed.

Lemma qMax_idem (a : float) : qMax a a = a.
Proof. unfold qMax. now destruct (flt a a). Qed.

(** The fold of [qMin] returns one of the values it was given. *)
Lemma fold_qMin_In (xs : list float) (a : float) :
  In (fold_left qMin xs a) (a :: xs).
Proof.
  revert a. induction xs as [| x xs IH]; intro a; simpl.
  - now left.
  - destruct (IH (qMin a x)) as [H | H].
    + destruct (qMin_cases a x) as [E | E]; [left | right; left]; congruence.
    + right; right; exact H.
Qed.

Lemma fold_qMax_In (xs : list float) (a : float) :
  In (fold_left qMax xs a) (a :: xs).
Proof.
  revert a. induction xs as [| x xs IH]; intro a; simpl.
  - now left.
  - destruct (IH (qMax a x)) as [H | H].
    + destruct (qMax_cases a x) as [E | E]; [left | right; left]; congruence.
    + right; right; exact H.
Qed.

(** On ordered values the fold of [qMin] is below every value it has seen. *)
Lemma fold_qMin_lower (S : list float) (HS : ordered_on S) :
  forall (xs : list float) (a b : float),
    In a S -> incl xs S -> In b S ->
    In b xs \/ flt b a = false ->
    flt b (fold_left qMin xs a) = false.
Proof.
  induction xs as [| x xs IH]; intros a b Ha Hxs Hb Hcase; simpl.
  - destruct Hcase as [[] | H]; exact H.
  - assert (Hx : In x S) by (apply Hxs; now left).
    assert (Hxs' : incl xs S) by (intros y Hy; apply Hxs; now right).
    assert (Hq : In (qMin a x) S)
      by (destruct (qMin_cases a x) as [E | E]; rewrite E; assumption).
    apply IH; auto.
    destruct Hcase as [[Hbx | Hbxs] | Hba].
    + subst b. right. unfold qMin. destruct (flt a x) eqn:E.
      * destruct HS as [Hasym _]. now apply Hasym.
      * now apply (ordered_on_irrefl S).
    + now left.
    + right. unfold qMin. destruct (flt a x) eqn:E; [exact Hba |].
      destruct HS as [_ Htrans]. now apply (Htrans b a x).
Qed.

Lemma fold_qMax_upper (S : list float) (HS : ordered_on S) :
  forall (xs : list float) (a b : float),
    In a S -> incl xs S -> In b S ->
    In b xs \/ flt a b = false ->
    flt (fold_left qMax xs a) b = false.
Proof.
  induction xs as [| x xs IH]; intros a b Ha Hxs Hb Hcase; simpl.
  - destruct Hcase as [[] | H]; exact H.
  - assert (Hx : In x S) by (apply Hxs; now left).
    assert (Hxs' : incl xs S) by (intros y Hy; apply Hxs; now right).
    assert (Hq : In (qMax a x) S)
      by (destruct (qMax_cases a x) as [E | E]; rewrite E; assumption).
    apply IH; auto.
    destruct Hcase as [[Hbx | Hbxs] | Hba].
    + subst b. right. unfold qMax. destruct (flt a x) eqn:E.
      * now apply (ordered_on_irrefl S).
      * exact E.
    + now left.
    + right. unfold qMax. destruct (flt a x) eqn:E; [| exact Hba].
      destruct (flt x b) eqn:Exb; [| reflexivity].
      destruct HS as [Hasym Htrans].
      assert (Hbx : flt b x = false) by now apply Hasym.
      rewrite (Htrans a b x Ha Hb Hx Hba Hbx) in E. discriminate.
Qed.

(** The loop of [getBoundingBox] works on the six coordinates independently. *)
Lemma fold_getBoundingBox_step (points : list (@QVector3D float)) (min max : (@QVector3D float)) :
  fold_left getBoundingBox_step points (min, max) =
  ({| vx := fold_left qMin (map vx points) (vx min);
      vy := fold_left qMin (map vy points) (vy min);
      vz := fold_left qMin (map vz points) (vz min) |},
   {| vx := fold_left qMax (map vx points) (vx max);
      vy := fold_left qMax (map vy points) (vy max);
      vz := fold_left qMax (map vz points) (vz max) |}).
Proof.
  revert min max. induction points as [| q points IH]; intros min max.
  - now destruct min, max.
  - simpl. rewrite IH. reflexivity.
Qed.

Lemma getBoundingBox_cons (front : (@QVector3D float)) (rest : list (@QVector3D float)) :
  getBoundingBox (front :: rest) =
  PDF3DBoundingBox_corners
    {| vx := fold_left qMin (map vx (front :: rest)) (vx front);
       vy := fold_left qMin (map vy (front :: rest)) (vy front);
       vz := fold_left qMin (map vz (front :: rest)) (vz front) |}
    {| vx := fold_left qMax (map vx (front :: rest)) (vx front);
       vy := fold_left qMax (map vy (front :: rest)) (vy front);
       vz := fold_left qMax (map vz (front :: rest)) (vz front) |}.
Proof.
  unfold getBoundingBox. now rewrite fold_getBoundingBox_step.
Qed.

(** What the loop computes for one coordinate [f] of a non-empty list whose
    values [operator<] orders. *)
Lemma coordinate_extrema (f : (@QVector3D float) -> float) (front : (@QVector3D float))
  (rest : list (@QVector3D float)) :
  ordered_on (map f (front :: rest)) ->
  let lo := fold_left qMin (map f (front :: rest)) (f front) in
  let hi := fold_left qMax (map f (front :: rest)) (f front) in
  In lo (map f (front :: rest)) /\ In hi (map f (front :: rest)) /\
  (forall q, In q (front :: rest) -> flt (f q) lo = false /\ flt hi (f q) = false).
Proof.
  intros HS lo hi.
  assert (Hfront : In (f front) (map f (front :: rest))) by now left.
  split; [| split].
  - destruct (fold_qMin_In (map f (front :: rest)) (f front)) as [H | H].
    + unfold lo. rewrite <- H. now left.
    + exact H.
  - destruct (fold_qMax_In (map f (front :: rest)) (f front)) as [H | H].
    + unfold hi. rewrite <- H. now left.
    + exact H.
  - intros q Hq.
    assert (Hfq : In (f q) (map f (front :: rest))) by now apply in_map.
    split.
    + apply (fold_qMin_lower _ HS); auto using incl_refl.
    + apply (fold_qMax_upper _ HS); auto using incl_refl.
Qed.

(** The fold of [qMin] or [qMax] over values that are all one of two ordered
    values [lo] and [hi] is neither below nor above [lo], respectively [hi]. *)
Lemma fold_two_values (S : list float) (HS : ordered_on S) (lo hi : float)
  (xs : list float) :
  In lo S -> In hi S -> flt hi lo = false ->
  (forall x, In x xs -> x = lo \/ x = hi) -> In lo xs -> In hi xs ->
  (flt (fold_left qMin xs lo) lo = false /\ flt lo (fold_left qMin xs lo) = false) /\
  (flt (fold_left qMax xs lo) hi = false /\ flt hi (fold_left qMax xs lo) = false).
Proof.
  intros Hlo Hhi Hle Hxs Hinlo Hinhi.
  assert (Hincl : incl xs S) by (intros x Hx; destruct (Hxs x Hx); subst; assumption).
  assert (Hll : flt lo lo = false) by now apply (ordered_on_irrefl S).
  assert (Hhh : flt hi hi = false) by now apply (ordered_on_irrefl S).
  repeat split.
  - destruct (fold_qMin_In xs lo) as [E | E]; [now rewrite <- E |].
    destruct (Hxs _ E) as [-> | ->]; assumption.
  - apply (fold_qMin_lower S HS); auto.
  - apply (fold_qMax_upper S HS); auto.
  - destruct (fold_qMax_In xs lo) as [E | E]; [now rewrite <- E |].
    destruct (Hxs _ E) as [-> | ->]; assumption.
Qed.

End BoundingBoxProperties.

(** ** The bounding box in IEEE arithmetic *)

Section IEEEBoundingBox.

(** [SFcompare] on two values that are not NaN is the comparison of their
    places. *)
Lemma SFcompare_below (x y : spec_float) :
  x <> S754_nan -> y <> S754_nan ->
  (SFcompare x y = Some Lt <-> SFbelow x y) /\
  (SFcompare x y = Some Gt <-> SFbelow y x) /\
  (SFcompare x y = Some Eq <-> ~ SFbelow x y /\ ~ SFbelow y x).
Proof.
  unfold SFbelow.
  destruct x as [sx | sx | | sx mx ex], y as [sy | sy | | sy my ey]; intros Hx Hy;
    try (now elim Hx); try (now elim Hy); clear Hx Hy;
    try destruct sx; try destruct sy; cbn [SFcompare SFclass SFexponent SFmantissa];
    try (repeat split; intros; try discriminate; lia).
  all: change (PosDef.Pos.compare_cont Eq mx my) with (Pos.compare mx my);
    destruct (Z.compare_spec ex ey); [destruct (Pos.compare_spec mx my) | ..];
    cbn [CompOpp]; repeat split; intros; try discriminate; try reflexivity;
    try lia; exfalso; lia.
Qed.

Lemma notNaN_Prim2SF (x : PrimFloat.float) : notNaN x -> Prim2SF x <> S754_nan.
Proof.
  unfold notNaN, PrimFloat.is_nan. rewrite FloatAxioms.eqb_spec. intros H E.
  rewrite E in H. discriminate H.
Qed.

(** The three comparisons of the primitive floats on values that are not
    NaN. *)
Lemma ltb_below (x y : PrimFloat.float) :
  notNaN x -> notNaN y ->
  ((x <? y)%float = true <-> SFbelow (Prim2SF x) (Prim2SF y)) /\
  ((x <=? y)%float = true <-> ~ SFbelow (Prim2SF y) (Prim2SF x)) /\
  ((x =? y)%float = true <->
   ~ SFbelow (Prim2SF x) (Prim2SF y) /\ ~ SFbelow (Prim2SF y) (Prim2SF x)).
Proof.
  intros Hx Hy. apply notNaN_Prim2SF in Hx, Hy.
  rewrite FloatAxioms.ltb_spec, FloatAxioms.leb_spec, FloatAxioms.eqb_spec.
  unfold SFltb, SFleb, SFeqb.
  destruct (SFcompare_below _ _ Hx Hy) as [Hlt [Hgt Heq]].
  destruct (SFcompare (Prim2SF x) (Prim2SF y)) as [[| |] |] eqn:E.
  - destruct Heq as [Heq _]. specialize (Heq eq_refl). intuition discriminate.
  - destruct Hlt as [Hlt _]. specialize (Hlt eq_refl).
    assert (~ SFbelow (Prim2SF y) (Prim2SF x)) by (unfold SFbelow in *; lia).
    intuition discriminate.
  - destruct Hgt as [Hgt _]. specialize (Hgt eq_refl).
    assert (~ SFbelow (Prim2SF x) (Prim2SF y)) by (unfold SFbelow in *; lia).
    intuition discriminate.
  - exfalso. destruct (Prim2SF x) as [sx | sx | | sx mx ex];
      destruct (Prim2SF y) as [sy | sy | | sy my ey];
      try (now elim Hx); try (now elim Hy);
      try destruct sx; try destruct sy; discriminate E.
Qed.

Lemma ltb_asym (a b : PrimFloat.float) : (a <? b)%float = true -> (b <? a)%float = false.
Proof.
  rewrite !FloatAxioms.ltb_spec. unfold SFltb.
  destruct (Prim2SF a) as [sx | sx | | sx mx ex], (Prim2SF b) as [sy | sy | | sy my ey];
    try destruct sx; try destruct sy; cbn [SFcompare]; try discriminate; try reflexivity.
  all: change (PosDef.Pos.compare_cont Eq mx my) with (Pos.compare mx my);
    change (PosDef.Pos.compare_cont Eq my mx) with (Pos.compare my mx);
    rewrite (Z.compare_antisym ex ey), (Pos.compare_antisym mx my);
    destruct (ex ?= ey); cbn [CompOpp]; try discriminate; try reflexivity;
    destruct (mx ?= my)%positive; cbn [CompOpp]; try discriminate; reflexivity.
Qed.

Lemma ltb_negtrans (a b c : PrimFloat.float) :
  notNaN a -> notNaN b -> notNaN c ->
  (a <? b)%float = false -> (b <? c)%float = false -> (a <? c)%float = false.
Proof.
  intros Ha Hb Hc Hab Hbc.
  destruct (ltb_below a b Ha Hb) as [Lab _], (ltb_below b c Hb Hc) as [Lbc _],
           (ltb_below a c Ha Hc) as [Lac _].
  destruct (a <? c)%float; [| reflexivity].
  assert (Hac : SFbelow (Prim2SF a) (Prim2SF c)) by now apply Lac.
  assert (Hnab : ~ SFbelow (Prim2SF a) (Prim2SF b))
    by (intro H; apply Lab in H; rewrite H in Hab; discriminate).
  assert (Hnbc : ~ SFbelow (Prim2SF b) (Prim2SF c))
    by (intro H; apply Lbc in H; rewrite H in Hbc; discriminate).
  exfalso. unfold SFbelow in *. lia.
Qed.

Lemma ltb_leb (a b : PrimFloat.float) :
  notNaN a -> notNaN b -> (b <? a)%float = false -> (a <=? b)%float = true.
Proof.
  intros Ha Hb H. destruct (ltb_below a b Ha Hb) as [_ [Lle _]].
  destruct (ltb_below b a Hb Ha) as [Lba _].
  apply Lle. intro Hlt. apply Lba in Hlt. rewrite Hlt in H. discriminate.
Qed.

Lemma ltb_eqb (a b : PrimFloat.float) :
  notNaN a -> notNaN b ->
  (a <? b)%float = false -> (b <? a)%float = false -> (a =? b)%float = true.
Proof.
  intros Ha Hb H1 H2. destruct (ltb_below a b Ha Hb) as [Lab [_ Leq]].
  destruct (ltb_below b a Hb Ha) as [Lba _].
  apply Leq. split; intro Hlt; [apply Lab in Hlt | apply Lba in Hlt]; congruence.
Qed.

(** IEEE [operator<] is a strict weak order on values that are not NaN. *)
Lemma notNaN_ordered_on (S : list PrimFloat.float) :
  (forall x, In x S -> notNaN x) -> ordered_on S.
Proof.
  intro H. split.
  - intros a b _ _. apply ltb_asym.
  - intros a b c Ha Hb Hc. apply ltb_negtrans; auto.
Qed.

Lemma noNaN_map (axis : @QVector3D PrimFloat.float -> PrimFloat.float)
  (P : list QVector3D) :
  noNaN axis P -> forall x, In x (map axis P) -> notNaN x.
Proof. intros H x Hx. apply in_map_iff in Hx. destruct Hx as [q [<- Hq]]. now apply H. Qed.

(** The coordinates of the corners of the box of a non-empty list. *)
Lemma axes_getBoundingBox (axis : @QVector3D PrimFloat.float -> PrimFloat.float)
  (front : QVector3D) (rest : list QVector3D) :
  In axis axes ->
  axis (getMin (getBoundingBox (front :: rest)))
  = fold_left qMin (map axis (front :: rest)) (axis front) /\
  axis (getMax (getBoundingBox (front :: rest)))
  = fold_left qMax (map axis (front :: rest)) (axis front).
Proof.
  intros [<- | [<- | [<- | []]]]; rewrite getBoundingBox_cons; split; reflexivity.
Qed.

(** What the loop computes on a coordinate without NaN. *)
Lemma axis_extrema (axis : @QVector3D PrimFloat.float -> PrimFloat.float)
  (front : QVector3D) (rest : list QVector3D) :
  noNaN axis (front :: rest) ->
  let lo := fold_left qMin (map axis (front :: rest)) (axis front) in
  let hi := fold_left qMax (map axis (front :: rest)) (axis front) in
  (In lo (map axis (front :: rest)) /\ In hi (map axis (front :: rest))) /\
  (notNaN lo /\ notNaN hi) /\
  (forall q, In q (front :: rest) ->
             (axis q <? lo)%float = false /\ (hi <? axis q)%float = false) /\
  (hi <? lo)%float = false.
Proof.
  intros Hnan lo hi.
  pose proof (notNaN_ordered_on _ (noNaN_map axis _ Hnan)) as HS.
  destruct (coordinate_extrema axis front rest HS) as [Hlo [Hhi Hb]].
  fold lo in Hlo, Hb. fold hi in Hhi, Hb.
  assert (Nlo : notNaN lo) by (apply (noNaN_map axis _ Hnan); exact Hlo).
  assert (Nhi : notNaN hi) by (apply (noNaN_map axis _ Hnan); exact Hhi).
  repeat split; auto; try (now apply Hb).
  destruct (Hb front (or_introl eq_refl)) as [H1 H2].
  apply (ltb_negtrans hi (axis front) lo); auto. apply Hnan. now left.
Qed.

(** C7 (amended).  The box of no points is the empty one and the box of one
    point has that point as both corners.  On every coordinate on which no
    point holds a NaN: the coordinate of the min corner is [<=] that of every
    point and is that of one of the points, likewise the max corner with
    [>=], min [<=] max, and a permutation of the points gives corners whose
    coordinate is [==] (the sign of a zero may differ). *)
Theorem getBoundingBox_extrema (P : list (@QVector3D PrimFloat.float)) :
  (isEmpty (getBoundingBox P) = true <-> P = []) /\
  (forall p, P = [p] -> getBoundingBox P = PDF3DBoundingBox_corners p p) /\
  (forall axis, In axis axes -> noNaN axis P -> P <> [] ->
   let b := getBoundingBox P in
   (forall q, In q P ->
      (axis (getMin b) <=? axis q)%float = true /\
      (axis q <=? axis (getMax b))%float = true) /\
   In (axis (getMin b)) (map axis P) /\ In (axis (getMax b)) (map axis P) /\
   (axis (getMin b) <=? axis (getMax b))%float = true /\
   (forall P', Permutation P P' ->
      (axis (getMin b) =? axis (getMin (getBoundingBox P')))%float = true /\
      (axis (getMax b) =? axis (getMax (getBoundingBox P')))%float = true)).
Proof.
  split; [| split].
  - destruct P as [| front rest]; simpl.
    + now split.
    + rewrite fold_getBoundingBox_step. simpl. split; discriminate.
  - intros p ->. rewrite getBoundingBox_cons. simpl.
    rewrite !qMin_idem, !qMax_idem. now destruct p.
  - intros axis Hax Hnan Hne. destruct P as [| front rest]; [now elim Hne |].
    destruct (axes_getBoundingBox axis front rest Hax) as [Emin Emax].
    cbv zeta. rewrite Emin, Emax.
    destruct (axis_extrema axis front rest Hnan) as [[Hlo Hhi] [[Nlo Nhi] [Hb Hlohi]]].
    split; [| split; [exact Hlo | split; [exact Hhi | split]]].
    + intros q Hq. destruct (Hb q Hq) as [H1 H2].
      split; apply ltb_leb; auto; now apply Hnan.
    + now apply ltb_leb.
    + intros P' Hperm.
      destruct P' as [| front' rest'];
        [apply Permutation_sym, Permutation_nil in Hperm; discriminate |].
      destruct (axes_getBoundingBox axis front' rest' Hax) as [Emin' Emax'].
      rewrite Emin', Emax'.
      assert (Hnan' : noNaN axis (front' :: rest'))
        by (intros q Hq; apply Hnan; exact (Permutation_in q (Permutation_sym Hperm) Hq)).
      destruct (axis_extrema axis front' rest' Hnan')
        as [[Hlo' Hhi'] [[Nlo' Nhi'] [Hb' _]]].
      apply in_map_iff in Hlo, Hhi, Hlo', Hhi'.
      destruct Hlo as [q1 [E1 Hq1]], Hhi as [q2 [E2 Hq2]].
      destruct Hlo' as [q3 [E3 Hq3]], Hhi' as [q4 [E4 Hq4]].
      pose proof (Hb' q1 (Permutation_in q1 Hperm Hq1)) as [A1 _].
      pose proof (Hb' q2 (Permutation_in q2 Hperm Hq2)) as [_ A2].
      pose proof (Hb q3 (Permutation_in q3 (Permutation_sym Hperm) Hq3)) as [A3 _].
      pose proof (Hb q4 (Permutation_in q4 (Permutation_sym Hperm) Hq4)) as [_ A4].
      rewrite E1 in A1. rewrite E2 in A2. rewrite E3 in A3. rewrite E4 in A4.
      split; apply ltb_eqb; auto.
Qed.

End IEEEBoundingBox.

(** ** The conversion of a [double] to [float] *)

(** A value that binary32 holds is kept; another one is rounded to the nearest
    value of binary32, to the even one of two that are as near; a value beyond
    the range becomes an infinity, and one of at most half the least subnormal
    of binary32 becomes zero. *)
Lemma narrow_values :
  narrow 3%float = 3%float /\ narrow 0.5%float = 0.5%float /\
  narrow (-0)%float = (-0)%float /\ narrow infinity = infinity /\ narrow nan = nan /\
  narrow 16777217%float = 16777216%float /\ narrow 16777219%float = 16777220%float /\
  narrow 0x1.999999999999ap-4%float = 0x1.99999ap-4%float /\
  narrow 0x1p128%float = infinity /\ narrow (-0x1p128)%float = neg_infinity /\
  narrow 0x1p-150%float = 0%float.
Proof. repeat split; vm_compute; reflexivity. Qed.

(** ** The traversal *)

Section TraversalProperties.

Context {float : Type} {FO : FloatOps float}.
Variable assertions : bool.

(** *** The face colour is not read *)

Lemma createModelNode_setFaceColor (p : @PDF3DSceneProcessor float) (c : QColor)
  (node : PDF3D_U3D_Node) :
  createModelNode assertions (setFaceColor p c) node = createModelNode assertions p node.
Proof. destruct p. reflexivity. Qed.

Lemma createLightNode_setFaceColor (p : @PDF3DSceneProcessor float) (c : QColor)
  (node : PDF3D_U3D_Node) (ambientColor : QColor) :
  createLightNode assertions (setFaceColor p c) node ambientColor =
  createLightNode assertions p node ambientColor.
Proof. destruct p. reflexivity. Qed.

Lemma attachChildren_ext
  (visit visit' : @PDF3D_U3D_Node float -> QColor -> outcome (option QNode * QColor))
  (p p' : @PDF3DSceneProcessor float) (node : PDF3D_U3D_Node) :
  (forall n a, visit n a = visit' n a) -> m_sceneData p = m_sceneData p' ->
  forall childNodeNames processedNode ambientColor,
    attachChildren visit p node childNodeNames processedNode ambientColor =
    attachChildren visit' p' node childNodeNames processedNode ambientColor.
Proof.
  intros Hv Hd. induction childNodeNames as [| name rest IH]; intros pn a; simpl.
  - reflexivity.
  - rewrite Hv, Hd. destruct (visit' _ a) as [[[child |] a'] | | |]; simpl; auto.
Qed.

Lemma createNode_setFaceColor (fuel : nat) :
  forall (p : @PDF3DSceneProcessor float) (c : QColor) (node : PDF3D_U3D_Node)
         (ambientColor : QColor),
    createNode assertions fuel (setFaceColor p c) node ambientColor =
    createNode assertions fuel p node ambientColor.
Proof.
  induction fuel as [| fuel IH]; intros p c node a; simpl.
  - reflexivity.
  - rewrite createModelNode_setFaceColor, createLightNode_setFaceColor.
    destruct (getType node); simpl;
      repeat match goal with
             | |- context [if ?b then _ else _] => destruct b; simpl
             | |- context [createModelNode ?a ?p ?n] =>
                 destruct (createModelNode a p n) as [[?|] | | |]; simpl
             | |- context [createLightNode ?a ?p ?n ?c] =>
                 destruct (createLightNode a p n c) as [[[?|] ?] | | |]; simpl
             end; try reflexivity;
      erewrite attachChildren_ext; try reflexivity; intros; apply IH.
Qed.

(** The faces of the transparent bounding box take the auxiliary colour with
    the opacity as alpha; the box is always built. *)
Lemma createBoundingBoxTransparentGeometry_material (p : @PDF3DSceneProcessor float)
  (boundingBox : PDF3DBoundingBox) :
  exists renderer,
    createBoundingBoxTransparentGeometry p boundingBox =
    Done (renderEntity renderer
            {| material_kind := QDiffuseSpecular
                 {| ambient := Qt_transparent;
                    diffuse := ColorValue (setAlphaF (getAuxiliaryColor p) (getOpacity p));
                    specular := Qt_transparent;
                    alphaBlendingEnabled := true |};
               renderStates := [QCullFace_NoCulling] |}).
Proof. eexists. reflexivity. Qed.

(** C10.  A build does not depend on the face colour: the accessor reads back
    the stored colour, and with another face colour the build has the same
    outcome, the same scene and the same members afterwards up to the stored
    face colour; the faces of a transparent bounding box are coloured with the
    auxiliary colour and the opacity. *)
Theorem createScene_ignores_faceColor (fuel : nat) (p : @PDF3DSceneProcessor float)
  (sceneData : PDF3D_U3D) (newFaceColor : QColor) :
  getFaceColor (setFaceColor p newFaceColor) = newFaceColor /\
  createScene assertions fuel (setFaceColor p newFaceColor) sceneData =
  (r <- createScene assertions fuel p sceneData ;;
   Done (fst r, setFaceColor (snd r) newFaceColor)) /\
  (forall boundingBox,
   exists renderer,
     createBoundingBoxTransparentGeometry (setFaceColor p newFaceColor) boundingBox =
     Done (renderEntity renderer
             {| material_kind := QDiffuseSpecular
                  {| ambient := Qt_transparent;
                     diffuse := ColorValue (setAlphaF (getAuxiliaryColor p) (getOpacity p));
                     specular := Qt_transparent;
                     alphaBlendingEnabled := true |};
                renderStates := [QCullFace_NoCulling] |})).
Proof.
  split; [reflexivity |]. split.
  - unfold createScene.
    change (beginScene (setFaceColor p newFaceColor) sceneData)
      with (setFaceColor (beginScene p sceneData) newFaceColor).
    rewrite createNode_setFaceColor.
    change (m_sceneRoot (setFaceColor (beginScene p sceneData) newFaceColor))
      with (m_sceneRoot (beginScene p sceneData)).
    change (m_globalAmbientColor (setFaceColor (beginScene p sceneData) newFaceColor))
      with (m_globalAmbientColor (beginScene p sceneData)).
    destruct (createNode _ _ _ _ _) as [[root a] | | |]; reflexivity.
  - intro boundingBox.
    apply (createBoundingBoxTransparentGeometry_material (setFaceColor p newFaceColor)).
Qed.

(** *** Model nodes without geometry *)

Lemma createModelNode_nothing (p : @PDF3DSceneProcessor float) (node : PDF3D_U3D_Node) :
  noRenderableGeometry p node -> createModelNode assertions p node = Done None.
Proof.
  unfold noRenderableGeometry, createModelNode.
  destruct (getGeometry _ _) as [[g | g | g |] |]; intro H; try reflexivity.
  - unfold createMeshGeometry. now rewrite H.
  - unfold createPointSetGeometry. now rewrite H.
  - unfold createLineSetGeometry. now rewrite H.
Qed.

(** C1 (amended).  A model node whose resource resolves to no renderable
    geometry builds to nothing, and the visit returns before the loop over
    the children: one unit of fuel is enough whatever the children are, and the
    ambient colour is the one the visit started with. *)
Theorem createNode_model_without_geometry (p : @PDF3DSceneProcessor float)
  (node : PDF3D_U3D_Node) :
  getType node = NodeType.Model -> noRenderableGeometry p node ->
  createModelNode assertions p node = Done None /\
  forall fuel ambientColor,
    createNode assertions (S fuel) p node ambientColor = Done (None, ambientColor).
Proof.
  intros Ht Hg. pose proof (createModelNode_nothing p node Hg) as Hm.
  split; [exact Hm |]. intros fuel a. simpl. now rewrite Ht, Hm.
Qed.

(** *** Termination *)


Lemma bind_terminated {A B : Type} (m : outcome A) (k : A -> outcome B) :
  terminated m -> (forall a, terminated (k a)) -> terminated (bind m k).
Proof.
  unfold terminated. destruct m; simpl; intros Hm Hk; try discriminate; auto.
Qed.

Lemma mapM_terminated {A B : Type} (f : A -> outcome B) (l : list A) :
  (forall a, terminated (f a)) -> terminated (mapM f l).
Proof.
  intro Hf. induction l as [| a l IH]; simpl.
  - discriminate.
  - apply bind_terminated; [apply Hf |]. intro b.
    apply bind_terminated; [exact IH |]. discriminate.
Qed.

Ltac terminated_step :=
  match goal with
  | |- terminated (bind _ _) => apply bind_terminated; [| intro]
  | |- terminated (mapM _ _) => apply mapM_terminated; intro
  | |- terminated (Done _) => discriminate
  | |- terminated AssertFailed => discriminate
  | |- terminated Undefined => discriminate
  | |- terminated (if ?b then _ else _) => destruct b
  | |- terminated (match ?x with _ => _ end) => destruct x
  | |- terminated (let (_, _) := ?x in _) => destruct x
  end.

Lemma createMaterialFromShader_terminated (p : @PDF3DSceneProcessor float) name force :
  terminated (createMaterialFromShader p name force).
Proof. unfold createMaterialFromShader. repeat terminated_step. Qed.

Lemma createGenericAttribute_terminated (values : list (@QVector3D float)) :
  terminated (createGenericAttribute values).
Proof. unfold createGenericAttribute, fillFloatBuffer. repeat terminated_step. Qed.

Lemma createModelNode_terminated (p : @PDF3DSceneProcessor float) (node : PDF3D_U3D_Node) :
  terminated (createModelNode assertions p node).
Proof.
  pose proof createMaterialFromShader_terminated as Hm.
  pose proof createGenericAttribute_terminated as Hg.
  unfold createModelNode, createMeshGeometry, createPointSetGeometry, createLineSetGeometry,
    createMeshWireframe, createMeshSolid, createLineSetSolid, createLineSetWireframe,
    createLineSetEntity, coloredPoints, createVertexGeometry,
    boundingBoxWire, boundingBoxTransparent, boundingBoxOutline,
    createBoundingBoxWireGeometry, createBoundingBoxTransparentGeometry,
    boundingBoxPositionAttribute, createPositionAttribute, createColorAttribute,
    fillSolidBuffer, fillFloatBuffer, fillUIntBuffer, Q_ASSERT.
  repeat (terminated_step || apply Hm || apply Hg).
Qed.

Lemma createLightNode_terminated (p : @PDF3DSceneProcessor float) node a :
  terminated (createLightNode assertions p node a).
Proof. unfold createLightNode, Q_ASSERT. repeat terminated_step. Qed.

Lemma attachChildren_terminated
  (visit : @PDF3D_U3D_Node float -> QColor -> outcome (option QNode * QColor))
  (p : @PDF3DSceneProcessor float) (node : PDF3D_U3D_Node) :
  forall childNodeNames,
    (forall name a, In name childNodeNames ->
                    terminated (visit (getNode (m_sceneData p) name) a)) ->
    forall processedNode ambientColor,
      terminated (attachChildren visit p node childNodeNames processedNode ambientColor).
Proof.
  induction childNodeNames as [| name rest IH]; intros Hv pn a; simpl.
  - discriminate.
  - apply bind_terminated; [apply Hv; now left |].
    intros [[child |] a']; apply IH; intros; apply Hv; now right.
Qed.

(** On a node graph whose child relation is well founded, fuel above the rank
    of a node suffices for its visit. *)
Theorem createNode_terminates (p : @PDF3DSceneProcessor float) (rank : string -> nat) :
  ranked (m_sceneData p) rank ->
  forall fuel name ambientColor,
    (rank name < fuel)%nat ->
    terminated (createNode assertions fuel p (getNode (m_sceneData p) name) ambientColor).
Proof.
  intro Hr. induction fuel as [| fuel IH]; intros name a Hlt; [lia |].
  simpl. apply bind_terminated.
  - destruct (getType _); repeat terminated_step;
      try apply createModelNode_terminated; try apply createLightNode_terminated.
  - intros [[pn |] a']; [| discriminate].
    apply bind_terminated; [| intros [? ?]; discriminate].
    apply attachChildren_terminated. intros child a'' Hc. apply IH.
    specialize (Hr name child Hc). lia.
Qed.

End TraversalProperties.

(** ** Meshes *)

Section MeshProperties.

Context {float : Type} {FO : FloatOps float}.
Variable assertions : bool.

(** C3 (amended).  In a mode whose label of [createMeshGeometry] falls through
    to [default], an empty mesh gives no node in every build, and a non-empty
    mesh stops at [Q_ASSERT(false)] when assertions are compiled in and gives no
    node when they are compiled out. *)
Theorem createMeshGeometry_mode_not_covered (p : @PDF3DSceneProcessor float)
  (meshGeometry : PDF3D_U3D_MeshGeometry) :
  meshModeNotCovered (m_mode p) = true ->
  createMeshGeometry assertions p meshGeometry =
  if mesh_isEmpty meshGeometry then Done None
  else if assertions then AssertFailed else Done None.
Proof.
  intro H. unfold createMeshGeometry.
  destruct (mesh_isEmpty meshGeometry); [reflexivity |].
  destruct (m_mode p); try discriminate H; destruct assertions; reflexivity.
Qed.

Lemma length_vertexFloats (m : @PDF3D_U3D_MeshGeometry float) (v : Vertex) :
  List.length (vertexFloats m v) = 12%nat.
Proof. reflexivity. Qed.

Lemma solidVertexData_vertices (m : @PDF3D_U3D_MeshGeometry float) :
  solidVertexData m = flat_map (vertexFloats m) (flat_map vertices (mesh_getTriangles m)).
Proof. unfold solidVertexData. apply flat_map_flat_map. Qed.

Lemma size_solidVertexData (m : @PDF3D_U3D_MeshGeometry float) :
  size (solidVertexData m) = 36 * size (mesh_getTriangles m).
Proof.
  unfold size. rewrite solidVertexData_vertices.
  rewrite (length_flat_map_const _ 12) by (intro; reflexivity).
  rewrite (length_flat_map_const _ 3) by (intro; reflexivity). lia.
Qed.

Lemma size_edgeIndices (l : list Triangle) :
  size (flat_map edgeIndices l) = 6 * size l.
Proof.
  unfold size. rewrite (length_flat_map_const _ 6) by (intro; reflexivity). lia.
Qed.

Lemma stride_value : stride = 48.
Proof. reflexivity. Qed.



(** The wireframe case stores past the end of its index array once the
    [24 * T] bytes of the indices do not fit an [int]. *)
Lemma createMeshWireframe_overrun (p : @PDF3DSceneProcessor float)
  (m : PDF3D_U3D_MeshGeometry) (positionAttribute : QAttribute) :
  createPositionAttribute (mesh_getPositions m) = Done positionAttribute ->
  2 ^ 31 <= 24 * size (mesh_getTriangles m) -> createMeshWireframe p m = Undefined.
Proof.
  intros Hp H. unfold createMeshWireframe. rewrite Hp. simpl.
  unfold fillUIntBuffer. rewrite size_edgeIndices.
  pose proof (QByteArray_resize_bound
                (uint_mul (uint_mul (to_uint (mesh_getTriangleCount m)) 3) 2 * sizeof_uint))
    as Hb.
  destruct (Z.leb_spec (6 * size (mesh_getTriangles m) * sizeof_uint)
              (QByteArray_resize
                 (uint_mul (uint_mul (to_uint (mesh_getTriangleCount m)) 3) 2 * sizeof_uint)))
    as [Hle | Hgt]; [| reflexivity].
  unfold sizeof_uint in Hle, Hb. lia.
Qed.

(** C4 (amended).  For a non-empty mesh of [T] triangles with [144 * T < 2^31]
    in solid mode: the encoder returns one triangle-list entity (once the
    material of shader 0 is resolved) over one vertex buffer of [3 * T] vertices
    of 48 bytes; the twelve floats of corner [j] of triangle [k] start at float
    [12 * (3 * k + j)] and are position(3), normal(3), diffuse colour(4),
    texture coordinate(2); the four attributes have byte stride 48 and byte
    offsets 0, 12, 24 and 40. *)
Theorem createMeshGeometry_solid (p : @PDF3DSceneProcessor float)
  (m : PDF3D_U3D_MeshGeometry) :
  mesh_isEmpty m = false -> m_mode p = SceneMode.Solid ->
  144 * size (mesh_getTriangles m) < 2 ^ 31 ->
  let T := size (mesh_getTriangles m) in
  exists (vertexBuffer : QBuffer)
         (positionAttribute normalAttribute colorAttribute textureAttribute : QAttribute)
         (data : list float),
    createMeshGeometry assertions p m =
      (material <- createMaterialFromShader p (mesh_getShaderName m 0) false ;;
       Done (Some (renderEntity
               {| geometry := [positionAttribute; normalAttribute;
                               colorAttribute; textureAttribute];
                  primitiveRestartEnabled := false;
                  primitiveType := PrimitiveType.Triangles |} material))) /\
    interleaved positionAttribute defaultPositionAttributeName 3 0 48 (3 * T) vertexBuffer /\
    interleaved normalAttribute defaultNormalAttributeName 3 12 48 (3 * T) vertexBuffer /\
    interleaved colorAttribute defaultColorAttributeName 4 24 48 (3 * T) vertexBuffer /\
    interleaved textureAttribute defaultTextureCoordinateAttributeName 2 40 48 (3 * T)
                vertexBuffer /\
    buffer_type vertexBuffer = BufferType.VertexBuffer /\
    buffer_size vertexBuffer = 3 * T * 48 /\
    buffer_data vertexBuffer = FloatData data /\
    size data = 3 * T * 12 /\
    forall (k j : nat) (triangle : Triangle) (vertex : Vertex),
      nth_error (mesh_getTriangles m) k = Some triangle ->
      nth_error (vertices triangle) j = Some vertex ->
      firstn 12 (skipn (12 * (3 * k + j)) data) =
      [ vx (mesh_getPosition m (positionIndex vertex));
        vy (mesh_getPosition m (positionIndex vertex));
        vz (mesh_getPosition m (positionIndex vertex));
        vx (mesh_getNormal m (normalIndex vertex));
        vy (mesh_getNormal m (normalIndex vertex));
        vz (mesh_getNormal m (normalIndex vertex));
        wx (mesh_getDiffuseColor m (diffuseColorIndex vertex));
        wy (mesh_getDiffuseColor m (diffuseColorIndex vertex));
        wz (mesh_getDiffuseColor m (diffuseColorIndex vertex));
        ww (mesh_getDiffuseColor m (diffuseColorIndex vertex));
        wx (mesh_getTextureCoordinate m (textureCoordIndex vertex));
        wy (mesh_getTextureCoordinate m (textureCoordIndex vertex)) ].
Proof.
  intros Hempty Hmode Hbound T.
  pose proof (size_nonneg (mesh_getTriangles m)) as Hn. fold T in Hn, Hbound.
  assert (Hcount : uint_mul (to_uint (mesh_getTriangleCount m)) 3 = 3 * T).
  { unfold uint_mul, mesh_getTriangleCount. fold T.
    rewrite (to_uint_small T) by lia. rewrite to_uint_small by lia. lia. }
  assert (Hbytes : uint_mul (uint_mul (to_uint (mesh_getTriangleCount m)) 3) stride
                   = 3 * T * 48).
  { rewrite Hcount, stride_value. unfold uint_mul. apply to_uint_small. lia. }
  exists {| buffer_type := BufferType.VertexBuffer; buffer_size := 3 * T * 48;
            buffer_data := FloatData (solidVertexData m) |},
    (solidAttribute defaultPositionAttributeName positionVertexSize
       {| buffer_type := BufferType.VertexBuffer; buffer_size := 3 * T * 48;
          buffer_data := FloatData (solidVertexData m) |} positionVertexByteOffset (3 * T)),
    (solidAttribute defaultNormalAttributeName normalVertexSize
       {| buffer_type := BufferType.VertexBuffer; buffer_size := 3 * T * 48;
          buffer_data := FloatData (solidVertexData m) |} normalVertexByteOffset (3 * T)),
    (solidAttribute defaultColorAttributeName colorVertexSize
       {| buffer_type := BufferType.VertexBuffer; buffer_size := 3 * T * 48;
          buffer_data := FloatData (solidVertexData m) |} colorVertexByteOffset (3 * T)),
    (solidAttribute defaultTextureCoordinateAttributeName textureVertexSize
       {| buffer_type := BufferType.VertexBuffer; buffer_size := 3 * T * 48;
          buffer_data := FloatData (solidVertexData m) |} textureVertexByteOffset (3 * T)),
    (solidVertexData m).
  split.
  - unfold createMeshGeometry. rewrite Hempty, Hmode.
    unfold createMeshSolid, fillSolidBuffer. rewrite Hbytes, Hcount, size_solidVertexData.
    fold T. rewrite QByteArray_resize_small by lia.
    replace (36 * T * sizeof_float <=? 3 * T * 48) with true
      by (symmetry; apply Z.leb_le; unfold sizeof_float; lia).
    unfold Q_ASSERT. cbn [negb]. rewrite Bool.andb_false_r.
    simpl. destruct (createMaterialFromShader p _ false); reflexivity.
  - repeat split; try reflexivity.
    + rewrite size_solidVertexData. fold T. lia.
    + intros k j triangle vertex Hk Hj. rewrite solidVertexData_vertices.
      apply (flat_map_chunk (vertexFloats m) 12 (length_vertexFloats m)).
      apply (nth_error_flat_map_chunk vertices 3 (fun _ => eq_refl) _ k j triangle); assumption.
Qed.

(** For a non-empty mesh of [T] triangles in wireframe mode whose [24 * T]
    bytes of indices fit an [int]: the encoder returns one line-list entity
    (once the position attribute is built) whose index buffer holds [6 * T]
    unsigned integers, and the six indices of triangle [k] start at index
    [6 * k] and are the position indices of the edges (v0, v1), (v1, v2),
    (v2, v0), each converted to [unsigned int]. *)
Theorem createMeshGeometry_wireframe (p : @PDF3DSceneProcessor float)
  (m : PDF3D_U3D_MeshGeometry) :
  mesh_isEmpty m = false -> m_mode p = SceneMode.Wireframe ->
  24 * size (mesh_getTriangles m) < 2 ^ 31 ->
  let T := size (mesh_getTriangles m) in
  exists (indexBuffer : @QBuffer float) (data : list Z),
    createMeshGeometry assertions p m =
      (positionAttribute <- createPositionAttribute (mesh_getPositions m) ;;
       Done (Some (renderEntity
               {| geometry := [positionAttribute; indexAttribute indexBuffer (6 * T)];
                  primitiveRestartEnabled := false;
                  primitiveType := PrimitiveType.Lines |} (auxiliaryMaterial p)))) /\
    attributeType (indexAttribute indexBuffer (6 * T)) = AttributeType.IndexAttribute /\
    vertexBaseType (indexAttribute indexBuffer (6 * T)) = VertexBaseType.UnsignedInt /\
    count (indexAttribute indexBuffer (6 * T)) = 6 * T /\
    buffer_type indexBuffer = BufferType.IndexBuffer /\
    buffer_size indexBuffer = 6 * T * 4 /\
    buffer_data indexBuffer = UIntData data /\
    size data = 6 * T /\
    forall (k : nat) (triangle : Triangle),
      nth_error (mesh_getTriangles m) k = Some triangle ->
      firstn 6 (skipn (6 * k) data) =
      [ to_uint (positionIndex (vertex0 triangle)); to_uint (positionIndex (vertex1 triangle));
        to_uint (positionIndex (vertex1 triangle)); to_uint (positionIndex (vertex2 triangle));
        to_uint (positionIndex (vertex2 triangle)); to_uint (positionIndex (vertex0 triangle)) ].
Proof.
  intros Hempty Hmode Hbound T.
  pose proof (size_nonneg (mesh_getTriangles m)) as Hn. fold T in Hn, Hbound.
  assert (Hlines : uint_mul (to_uint (mesh_getTriangleCount m)) 3 = 3 * T).
  { unfold uint_mul, mesh_getTriangleCount. fold T.
    rewrite (to_uint_small T) by lia. rewrite to_uint_small by lia. lia. }
  assert (Hbytes : uint_mul (3 * T) 2 = 6 * T).
  { unfold uint_mul. rewrite to_uint_small by lia. lia. }
  assert (Hcount : uint_mul 2 (3 * T) = 6 * T).
  { unfold uint_mul. rewrite to_uint_small by lia. lia. }
  exists {| buffer_type := BufferType.IndexBuffer; buffer_size := 6 * T * 4;
            buffer_data := UIntData (map to_uint (flat_map edgeIndices (mesh_getTriangles m))) |},
    (map to_uint (flat_map edgeIndices (mesh_getTriangles m))).
  split.
  - unfold createMeshGeometry. rewrite Hempty, Hmode.
    unfold createMeshWireframe, fillUIntBuffer.
    rewrite Hlines, Hbytes, Hcount, size_edgeIndices. fold T.
    rewrite QByteArray_resize_small by (unfold sizeof_uint; lia).
    replace (6 * T * sizeof_uint <=? 6 * T * sizeof_uint) with true
      by (symmetry; apply Z.leb_refl).
    destruct (createPositionAttribute (mesh_getPositions m)); reflexivity.
  - repeat split; try reflexivity.
    + unfold size. rewrite length_map. apply size_edgeIndices.
    + intros k triangle Hk.
      rewrite map_flat_map.
      apply (flat_map_chunk (fun t => map to_uint (edgeIndices t)) 6 (fun _ => eq_refl)
               _ k triangle Hk).
Qed.

End MeshProperties.

(** ** Materials and line sets *)

Section MaterialProperties.

Context {float : Type} {FO : FloatOps float}.
Variable assertions : bool.

(** C5.  For a shader that is found: without texture bindings it resolves to
    the per-vertex colour material when it asks for vertex colours or the
    caller forces them, and otherwise to a flat material with the three colours
    of the referenced material; with texture bindings it resolves to a material
    whose diffuse is a texture of the width and height of the image that the
    model data gives for the texture name of the first binding, with that
    image as its only texture image, and whose ambient and specular are
    transparent.  Alpha blending of a flat or textured material is the alpha
    test flag, and the alpha test state is attached exactly when the flag is
    set. *)
Theorem createMaterialFromShader_cases (p : @PDF3DSceneProcessor float)
  (shaderName : string) (forceUseVertexColors : bool) (shader : PDF3D_U3D_Shader) :
  getShader (m_sceneData p) shaderName = Some shader ->
  let alphaTest :=
    if isAlphaTestEnabled shader
    then [QAlphaTest_state (alphaFunctionOf (getAlphaTestFunction shader))
                           (getAlphaTestReference shader)]
    else [] in
  (getTextureInfos shader = [] ->
   isUseVertexColor shader || forceUseVertexColors = true ->
   createMaterialFromShader p shaderName forceUseVertexColors =
   Done {| material_kind := QPerVertexColorMaterial; renderStates := alphaTest |}) /\
  (getTextureInfos shader = [] ->
   isUseVertexColor shader || forceUseVertexColors = false ->
   forall u3dMaterial,
     getMaterial (m_sceneData p) (getMaterialName shader) = Some u3dMaterial ->
     createMaterialFromShader p shaderName forceUseVertexColors =
     Done {| material_kind := QDiffuseSpecular
               {| ambient := getAmbientColor u3dMaterial;
                  diffuse := ColorValue (getDiffuseColor u3dMaterial);
                  specular := getSpecularColor u3dMaterial;
                  alphaBlendingEnabled := isAlphaTestEnabled shader |};
             renderStates := alphaTest |}) /\
  (forall textureInfo rest,
     getTextureInfos shader = textureInfo :: rest ->
     let image := getTexture (m_sceneData p) (textureName textureInfo) in
     createMaterialFromShader p shaderName forceUseVertexColors =
     Done {| material_kind := QDiffuseSpecular
               {| ambient := Qt_transparent;
                  diffuse := TextureValue
                               {| texture_size := (img_width image, img_height image);
                                  textureImages :=
                                    [ {| m_image := image;
                                         textureImage_size :=
                                           (img_width image, img_height image) |} ] |};
                  specular := Qt_transparent;
                  alphaBlendingEnabled := isAlphaTestEnabled shader |};
             renderStates := alphaTest |}).
Proof.
  intros Hs alphaTest. unfold createMaterialFromShader. rewrite Hs.
  split; [| split].
  - intros -> ->. subst alphaTest. now destruct (isAlphaTestEnabled shader).
  - intros -> -> m ->. subst alphaTest. now destruct (isAlphaTestEnabled shader).
  - intros t rest ->. cbv zeta. subst alphaTest.
    now destruct (isAlphaTestEnabled shader).
Qed.

Lemma filter_none {A : Type} (f : A -> bool) (l : list A) :
  (forall x, In x l -> f x = false) -> filter f l = [].
Proof.
  induction l as [| x l IH]; simpl; intro H.
  - reflexivity.
  - rewrite (H x) by now left. apply IH. intros y Hy. apply H. now right.
Qed.

(** *** The map from shading ids to lines *)


Lemma map_push_back_keys (key : Z) (line : Line) (m : list (Z * list Line)) (k : Z) :
  In k (map fst (map_push_back key line m)) <-> k = key \/ In k (map fst m).
Proof.
  induction m as [| [k0 ls0] m IH]; simpl.
  - intuition.
  - destruct (key <? k0) eqn:E1; [simpl; intuition |].
    destruct (key =? k0) eqn:E2; simpl.
    + apply Z.eqb_eq in E2. subst. intuition.
    + rewrite IH. intuition.
Qed.

Lemma map_push_back_sorted (key : Z) (line : Line) (m : list (Z * list Line)) :
  StronglySorted Z.lt (map fst m) ->
  StronglySorted Z.lt (map fst (map_push_back key line m)).
Proof.
  induction m as [| [k0 ls0] m IH]; simpl; intro Hs.
  - repeat constructor.
  - inversion Hs as [| ? ? Hs' Hall]; subst.
    destruct (key <? k0) eqn:E1.
    + apply Z.ltb_lt in E1. simpl. constructor; [exact Hs |].
      constructor; [exact E1 |].
      rewrite Forall_forall in *. intros x Hx. specialize (Hall x Hx). lia.
    + destruct (key =? k0) eqn:E2; simpl.
      * exact Hs.
      * apply Z.ltb_ge in E1. apply Z.eqb_neq in E2.
        constructor; [now apply IH |].
        rewrite Forall_forall in *. intros x Hx.
        apply map_push_back_keys in Hx. destruct Hx as [-> | Hx]; [lia | now apply Hall].
Qed.

(** The entries after a [push_back], on a map with ascending keys. *)
Lemma map_push_back_entries (key : Z) (line : Line) (m : list (Z * list Line)) :
  StronglySorted Z.lt (map fst m) ->
  forall k ls,
    In (k, ls) (map_push_back key line m) <->
    (k <> key /\ In (k, ls) m) \/
    (k = key /\ ((~ In key (map fst m) /\ ls = [line]) \/
                 (exists ls0, In (key, ls0) m /\ ls = ls0 ++ [line]))).
Proof.
  induction m as [| [k0 ls0] m IH]; simpl; intros Hs k ls.
  - split.
    + intros [H | []]. injection H as <- <-. right. split; auto.
    + intros [[_ []] | [-> [[_ ->] | [? [[] _]]]]]. now left.
  - inversion Hs as [| ? ? Hs' Hall]; subst. rewrite Forall_forall in Hall.
    destruct (key <? k0) eqn:E1.
    + apply Z.ltb_lt in E1.
      assert (Hnot : ~ (k0 = key \/ In key (map fst m))).
      { intros [-> | H]; [lia | specialize (Hall _ H); lia]. }
      simpl. split.
      * intros [H | [H | H]].
        -- injection H as <- <-. right. split; auto.
        -- injection H as <- <-. left. split; [lia | now left].
        -- left. split; [| now right].
           intros ->. apply Hnot. right. change key with (fst (key, ls)). now apply in_map.
      * intros [[Hk [H | H]] | [-> [[_ ->] | [ls1 [[H | H] ->]]]]].
        -- right; now left.
        -- right; now right.
        -- now left.
        -- injection H as -> ->. lia.
        -- elim Hnot. right. change key with (fst (key, ls1)). now apply in_map.
    + apply Z.ltb_ge in E1. destruct (key =? k0) eqn:E2.
      * apply Z.eqb_eq in E2. subst k0.
        assert (Hnot : ~ In key (map fst m)).
        { intro H. specialize (Hall _ H). lia. }
        simpl. split.
        -- intros [H | H].
           ++ injection H as <- <-. right. split; auto. right. exists ls0. split; auto.
           ++ left. split; [| now right].
              intros ->. apply Hnot. change key with (fst (key, ls)). now apply in_map.
        -- intros [[Hk [H | H]] | [-> [[Hn ->] | [ls1 [[H | H] ->]]]]].
           ++ injection H as -> ->. now elim Hk.
           ++ now right.
           ++ elim Hn. now left.
           ++ injection H as ->. now left.
           ++ elim Hnot. change key with (fst (key, ls1)). now apply in_map.
      * apply Z.eqb_neq in E2. simpl. rewrite (IH Hs'). split.
        -- intros [H | [[Hk H] | [-> [[Hn ->] | [ls1 [H ->]]]]]].
           ++ injection H as <- <-. left. split; [lia | now left].
           ++ left. split; auto.
           ++ right. split; auto. left. split; auto. intros [H | H]; [lia | now apply Hn].
           ++ right. split; auto. right. exists ls1. split; auto.
        -- intros [[Hk [H | H]] | [-> [[Hn ->] | [ls1 [[H | H] ->]]]]].
           ++ now left.
           ++ right. left. split; auto.
           ++ right. right. split; auto. left. split; auto.
           ++ injection H as -> ->. lia.
           ++ right. right. split; auto. right. exists ls1. split; auto.
Qed.


Lemma partitions_push_back (m : list (Z * list Line)) (lines : list Line) (line : Line) :
  partitions m lines ->
  partitions (map_push_back (lineKey line) line m) (lines ++ [line]).
Proof.
  intros [Hs [He Hk]]. split; [| split].
  - now apply map_push_back_sorted.
  - intros k ls Hin. apply (map_push_back_entries _ _ _ Hs) in Hin.
    rewrite filter_app. simpl.
    destruct Hin as [[Hne Hin] | [-> [[Hn ->] | [ls0 [Hin ->]]]]].
    + destruct (He k ls Hin) as [H1 H2]. split; [exact H1 |].
      replace (lineKey line =? k) with false by (symmetry; apply Z.eqb_neq; congruence).
      now rewrite app_nil_r.
    + split; [discriminate |]. rewrite Z.eqb_refl.
      replace (filter (fun l => lineKey l =? lineKey line) lines) with (@nil Line);
        [reflexivity |].
      symmetry. apply filter_none. intros l Hl.
      apply Z.eqb_neq. intro E. apply Hn. rewrite <- E. now apply Hk.
    + destruct (He _ ls0 Hin) as [H1 H2]. split; [now destruct ls0 |].
      rewrite Z.eqb_refl. now rewrite <- H2.
  - intros l Hl. apply map_push_back_keys. apply in_app_iff in Hl.
    destruct Hl as [Hl | [<- | []]]; [right; now apply Hk | now left].
Qed.

Lemma partitions_fold (lines : list Line) :
  forall (m : list (Z * list Line)) (seen : list Line),
    partitions m seen ->
    partitions (fold_left (fun m line => map_push_back (to_uint (shadingId line)) line m)
                          lines m)
               (seen ++ lines).
Proof.
  induction lines as [| line lines IH]; intros m seen H; simpl.
  - now rewrite app_nil_r.
  - replace (seen ++ line :: lines) with ((seen ++ [line]) ++ lines)
      by (rewrite <- app_assoc; reflexivity).
    apply IH. now apply partitions_push_back.
Qed.

Lemma shadingIdToLines_partitions (lines : list Line) :
  partitions (shadingIdToLines lines) lines.
Proof.
  apply (partitions_fold lines [] []). repeat split; simpl; try constructor; intros; contradiction.
Qed.

Lemma mapM_Forall2 {A B : Type} (f : A -> outcome B) (l : list A) (bs : list B) :
  mapM f l = Done bs -> Forall2 (fun a b => f a = Done b) l bs.
Proof.
  revert bs. induction l as [| a l IH]; simpl; intros bs H.
  - injection H as <-. constructor.
  - destruct (f a) as [b | | |] eqn:Ea; simpl in H; try discriminate.
    destruct (mapM f l) as [bs' | | |]; simpl in H; try discriminate.
    injection H as <-. constructor; auto.
Qed.

Lemma mapM_defined {A B : Type} (f : A -> outcome B) (l : list A) :
  (forall a, In a l -> exists b, f a = Done b) -> exists bs, mapM f l = Done bs.
Proof.
  induction l as [| a l IH]; simpl; intro H.
  - now exists [].
  - destruct (H a) as [b Hb]; [now left |]. rewrite Hb. simpl.
    destruct IH as [bs Hbs]; [intros; apply H; now right |].
    rewrite Hbs. simpl. now exists (b :: bs).
Qed.

Lemma fold_setParent (entities : list (@QNode float)) (e : bool) (name : string)
  (cs : list QComponent) (ch : list QNode) :
  fold_left (fun entity currentEntity => setParent currentEntity entity) entities
            (mkQNode e name cs ch) = mkQNode e name cs (ch ++ entities).
Proof.
  revert ch. induction entities as [| x l IH]; intro ch; simpl.
  - now rewrite app_nil_r.
  - rewrite IH, <- app_assoc. reflexivity.
Qed.

Lemma createLineSetEntity_inv (p : @PDF3DSceneProcessor float)
  (g : PDF3D_U3D_LineSetGeometry) (item : Z * list Line) (entity : QNode) :
  createLineSetEntity p g item = Done entity ->
  exists positionAttribute colorAttribute material,
    createPositionAttribute (linePositions g (snd item)) = Done positionAttribute /\
    createColorAttribute (lineColors g (snd item)) = Done colorAttribute /\
    createMaterialFromShader p (lineSet_getShaderName g (fst item)) true = Done material /\
    entity = renderEntity {| geometry := [positionAttribute; colorAttribute];
                             primitiveRestartEnabled := false;
                             primitiveType := PrimitiveType.Lines |} material.
Proof.
  unfold createLineSetEntity.
  destruct (createPositionAttribute _) as [pa | | |]; simpl; try discriminate.
  destruct (createColorAttribute _) as [ca | | |]; simpl; try discriminate.
  destruct (createMaterialFromShader _ _ _) as [mat | | |]; simpl; try discriminate.
  intro H. injection H as <-. now exists pa, ca, mat.
Qed.

(** The result of the colored-lines case from the entities of the entries. *)
Lemma createLineSetGeometry_of_entities (p : @PDF3DSceneProcessor float)
  (g : PDF3D_U3D_LineSetGeometry) (entities : list QNode) :
  lineSet_isEmpty g = false -> solidFamily (m_mode p) = true ->
  mapM (createLineSetEntity p g) (shadingIdToLines (lineSet_getLines g)) = Done entities ->
  let entries := shadingIdToLines (lineSet_getLines g) in
  StronglySorted Z.lt (map fst entries) /\
  (forall k lines,
     In (k, lines) entries ->
     lines <> [] /\
     lines = filter (fun l => to_uint (shadingId l) =? k) (lineSet_getLines g)) /\
  (forall l, In l (lineSet_getLines g) -> In (to_uint (shadingId l)) (map fst entries)) /\
  Forall2 (fun entry entity =>
             exists positionAttribute colorAttribute material,
               createPositionAttribute (linePositions g (snd entry)) = Done positionAttribute /\
               createColorAttribute (lineColors g (snd entry)) = Done colorAttribute /\
               createMaterialFromShader p (lineSet_getShaderName g (fst entry)) true
               = Done material /\
               entity = renderEntity {| geometry := [positionAttribute; colorAttribute];
                                        primitiveRestartEnabled := false;
                                        primitiveType := PrimitiveType.Lines |} material)
          entries entities /\
  List.length entities = List.length entries /\
  (forall entity, entities = [entity] ->
                  createLineSetGeometry p g = Done (Some entity)) /\
  (List.length entities <> 1%nat ->
   createLineSetGeometry p g = Done (Some (mkQNode true EmptyString [] entities))).
Proof.
  intros Hempty Hmode Hmap entries.
  destruct (shadingIdToLines_partitions (lineSet_getLines g)) as [Hs [He Hk]].
  assert (Hresult : createLineSetGeometry p g = Done (Some (groupEntities entities))).
  { unfold createLineSetGeometry. rewrite Hempty.
    destruct (m_mode p); try discriminate Hmode;
      unfold createLineSetSolid; rewrite Hmap; reflexivity. }
  assert (Hall : Forall2 (fun a b => createLineSetEntity p g a = Done b) entries entities)
    by now apply mapM_Forall2.
  repeat split.
  - exact Hs.
  - now apply (He k lines).
  - now apply (He k lines).
  - exact Hk.
  - clear - Hall. induction Hall; constructor; auto. now apply createLineSetEntity_inv.
  - symmetry. now apply (Forall2_length Hall).
  - intros entity ->. exact Hresult.
  - intro Hlen. rewrite Hresult. unfold groupEntities.
    destruct entities as [| e1 [| e2 rest]].
    + reflexivity.
    + now elim Hlen.
    + unfold new_QEntity. now rewrite fold_setParent.
Qed.

(** An attribute is built when the twelve bytes per value fit an [int]. *)
Lemma createGenericAttribute_defined (values : list (@QVector3D float)) :
  12 * size values < 2 ^ 31 -> exists a, createGenericAttribute values = Done a.
Proof.
  intro H. unfold createGenericAttribute, fillFloatBuffer, uint_mul. cbv zeta.
  assert (Hn : 0 <= size values) by (unfold size; lia).
  assert (E1 : to_uint (size values) = size values)
    by (unfold to_uint, UINT_MODULUS; apply Z.mod_small; lia).
  rewrite E1.
  assert (E2 : to_uint (size values * 3) = size values * 3)
    by (unfold to_uint, UINT_MODULUS; apply Z.mod_small; lia).
  rewrite E2.
  assert (E3 : size (flat_map xyz (firstZ (size values) values)) = 3 * size values).
  { unfold firstZ, size. rewrite Nat2Z.id, firstn_all.
    assert (Hl : forall l : list (@QVector3D float),
               List.length (flat_map xyz l) = (3 * List.length l)%nat)
      by (induction l; simpl; lia).
    rewrite Hl. lia. }
  rewrite E3.
  rewrite QByteArray_resize_small by (unfold sizeof_float; lia).
  replace (3 * size values * sizeof_float <=? size values * 3 * sizeof_float) with true
    by (symmetry; apply Z.leb_le; lia).
  simpl. eauto.
Qed.

Lemma size_flat_map_xyz (values : list (@QVector3D float)) :
  size (flat_map xyz values) = 3 * size values.
Proof.
  unfold size. rewrite (length_flat_map_const xyz 3) by (intro; reflexivity). lia.
Qed.

Lemma firstZ_all {A : Type} (values : list A) : firstZ (size values) values = values.
Proof. unfold firstZ, size. rewrite Nat2Z.id. apply firstn_all. Qed.

(** [createGenericAttribute] writes past the end of its array once the twelve
    bytes per value do not fit an [int]. *)
Lemma createGenericAttribute_overrun (values : list (@QVector3D float)) :
  size values < 2 ^ 32 -> 2 ^ 31 <= 12 * size values ->
  createGenericAttribute values = Undefined.
Proof.
  intros Hlt Hge. unfold createGenericAttribute, fillFloatBuffer. cbv zeta.
  rewrite (to_uint_small (size values)) by (pose proof (size_nonneg values); lia).
  rewrite firstZ_all, size_flat_map_xyz.
  pose proof (QByteArray_resize_bound (uint_mul (size values) 3 * sizeof_float)) as Hb.
  destruct (Z.leb_spec (3 * size values * sizeof_float)
                       (QByteArray_resize (uint_mul (size values) 3 * sizeof_float)))
    as [Hle | Hgt]; [| reflexivity].
  unfold sizeof_float in Hle, Hb. lia.
Qed.

Lemma size_linePositions (g : @PDF3D_U3D_LineSetGeometry float) (lines : list Line) :
  size (linePositions g lines) = 2 * size lines.
Proof.
  unfold size, linePositions.
  rewrite (length_flat_map_const _ 2) by (intro; reflexivity). lia.
Qed.

Lemma size_lineColors (g : @PDF3D_U3D_LineSetGeometry float) (lines : list Line) :
  size (lineColors g lines) = 2 * size lines.
Proof.
  unfold size, lineColors.
  rewrite (length_flat_map_const _ 2) by (intro; reflexivity). lia.
Qed.

Lemma size_filter {A : Type} (f : A -> bool) (l : list A) : size (filter f l) <= size l.
Proof.
  unfold size. induction l as [| x l IH]; simpl; [lia |].
  destruct (f x); simpl; lia.
Qed.

(** The entity of an entry is built when the shader of its shading id resolves
    and the 24 bytes per line of each of its two buffers fit an [int]. *)
Lemma createLineSetEntity_defined (p : @PDF3DSceneProcessor float)
  (g : PDF3D_U3D_LineSetGeometry) (k : Z) (lines : list Line) (material : QMaterial) :
  24 * size lines < 2 ^ 31 ->
  createMaterialFromShader p (lineSet_getShaderName g k) true = Done material ->
  exists entity, createLineSetEntity p g (k, lines) = Done entity.
Proof.
  intros Hb Hm. unfold createLineSetEntity, createPositionAttribute, createColorAttribute.
  cbn [fst snd].
  destruct (createGenericAttribute_defined (linePositions g lines)) as [pa Hpa];
    [rewrite size_linePositions; lia |].
  destruct (createGenericAttribute_defined (lineColors g lines)) as [ca Hca];
    [rewrite size_lineColors; lia |].
  rewrite Hpa, Hca, Hm. simpl. eauto.
Qed.

Lemma shadingIdToLines_repeat_fold (line : Line) (n : nat) :
  forall acc : list Line,
    fold_left (fun m l => map_push_back (to_uint (shadingId l)) l m) (repeat line n)
              [(lineKey line, acc)]
    = [(lineKey line, acc ++ repeat line n)].
Proof.
  induction n as [| n IH]; intro acc; simpl.
  - now rewrite app_nil_r.
  - fold (lineKey line). rewrite Z.ltb_irrefl, Z.eqb_refl, IH, <- app_assoc. reflexivity.
Qed.

(** The map of equal lines has one entry. *)
Lemma shadingIdToLines_repeat (line : Line) (n : nat) :
  shadingIdToLines (repeat line (S n)) = [(lineKey line, repeat line (S n))].
Proof.
  unfold shadingIdToLines. simpl. fold (lineKey line).
  now rewrite shadingIdToLines_repeat_fold.
Qed.

(** For a non-empty line set in a mode of the colored-lines case, with the
    24 bytes per line fitting an [int] ([24 * L < 2^31]) and the shader of every
    shading id resolved: the map from shading ids to lines has ascending, hence
    distinct, keys; the lines of an entry are the lines of that shading id in
    their order, and no entry is without lines; every line is in the entry of
    its shading id; one entity is built per entry, a line list with a position
    attribute and a colour attribute of its own and the material of the shader
    of that shading id with vertex colours forced; a single entity is returned
    as it is, and otherwise the result is a new entity whose children are all
    the entities. *)
Theorem createLineSetGeometry_colored_lines (p : @PDF3DSceneProcessor float)
  (g : PDF3D_U3D_LineSetGeometry) :
  lineSet_isEmpty g = false -> solidFamily (m_mode p) = true ->
  24 * size (lineSet_getLines g) < 2 ^ 31 ->
  (forall l, In l (lineSet_getLines g) ->
             exists material,
               createMaterialFromShader p (lineSet_getShaderName g (to_uint (shadingId l))) true
               = Done material) ->
  let entries := shadingIdToLines (lineSet_getLines g) in
  exists entities : list QNode,
    mapM (createLineSetEntity p g) entries = Done entities /\
    StronglySorted Z.lt (map fst entries) /\
    (forall k lines,
       In (k, lines) entries ->
       lines <> [] /\
       lines = filter (fun l => to_uint (shadingId l) =? k) (lineSet_getLines g)) /\
    (forall l, In l (lineSet_getLines g) -> In (to_uint (shadingId l)) (map fst entries)) /\
    Forall2 (fun entry entity =>
               exists positionAttribute colorAttribute material,
                 createPositionAttribute (linePositions g (snd entry))
                 = Done positionAttribute /\
                 createColorAttribute (lineColors g (snd entry)) = Done colorAttribute /\
                 createMaterialFromShader p (lineSet_getShaderName g (fst entry)) true
                 = Done material /\
                 entity = renderEntity {| geometry := [positionAttribute; colorAttribute];
                                          primitiveRestartEnabled := false;
                                          primitiveType := PrimitiveType.Lines |} material)
            entries entities /\
    List.length entities = List.length entries /\
    (forall entity, entities = [entity] ->
                    createLineSetGeometry p g = Done (Some entity)) /\
    (List.length entities <> 1%nat ->
     createLineSetGeometry p g = Done (Some (mkQNode true EmptyString [] entities))).
Proof.
  intros Hempty Hmode Hbound Hshaders entries.
  destruct (shadingIdToLines_partitions (lineSet_getLines g)) as [_ [He _]].
  destruct (mapM_defined (createLineSetEntity p g) entries) as [entities Hmap].
  { intros [k lines] Hin. destruct (He k lines Hin) as [Hne Hfilter].
    destruct lines as [| l rest]; [now elim Hne |].
    assert (Hl : In l (filter (fun l0 => lineKey l0 =? k) (lineSet_getLines g)))
      by (rewrite <- Hfilter; now left).
    apply filter_In in Hl. destruct Hl as [Hl Hk]. apply Z.eqb_eq in Hk.
    destruct (Hshaders l Hl) as [material Hm]. fold (lineKey l) in Hm. rewrite Hk in Hm.
    apply (createLineSetEntity_defined p g k (l :: rest) material); [| exact Hm].
    pose proof (size_filter (fun l0 => lineKey l0 =? k) (lineSet_getLines g)) as Hs.
    rewrite <- Hfilter in Hs. lia. }
  exists entities. split; [exact Hmap |].
  exact (createLineSetGeometry_of_entities p g entities Hempty Hmode Hmap).
Qed.

End MaterialProperties.

(** ** Lights *)

Section LightProperties.

Context {float : Type} {FO : FloatOps float}.
Variable assertions : bool.

Lemma createLightNode_ambient_one (p : @PDF3DSceneProcessor float) (node : PDF3D_U3D_Node)
  (light : PDF3D_U3D_Light) (c : QColor) :
  getType node = NodeType.Light ->
  getLight (m_sceneData p) (getResourceName node) = Some light ->
  light_getType light = LightType.Ambient ->
  createLightNode assertions p node c = Done (None, addAmbient c light).
Proof.
  intros Ht Hl Ha. unfold createLightNode, Q_ASSERT. rewrite Ht, Hl, Ha. simpl.
  rewrite andb_false_r. reflexivity.
Qed.


End LightProperties.

(** ** Further properties of the traversal *)

Section SceneProperties.

Context {float : Type} {FO : FloatOps float}.
Variable assertions : bool.

(** A view node and everything below it is skipped: the visit needs one unit of
    fuel and changes nothing. *)
Theorem createNode_view (p : @PDF3DSceneProcessor float) (node : PDF3D_U3D_Node)
  (fuel : nat) (ambientColor : QColor) :
  getType node = NodeType.View ->
  createNode assertions (S fuel) p node ambientColor = Done (None, ambientColor).
Proof. intro H. simpl. now rewrite H. Qed.

(** On a node graph whose child relation is well founded, a build with fuel
    above the rank of the root returns: it does not exhaust the fuel.  The
    processed node names are empty when it ends. *)
Theorem createScene_terminates (p : @PDF3DSceneProcessor float) (sceneData : PDF3D_U3D)
  (rank : string -> nat) (fuel : nat) :
  ranked sceneData rank -> (rank (m_sceneRoot p) < fuel)%nat ->
  terminated (createScene assertions fuel p sceneData) /\
  forall scene p',
    createScene assertions fuel p sceneData = Done (scene, p') ->
    m_processedNodes p' = [].
Proof.
  intros Hr Hlt. split.
  - unfold createScene. apply bind_terminated.
    + apply (createNode_terminates assertions (beginScene p sceneData) rank Hr).
      exact Hlt.
    + intros [root c]. discriminate.
  - intros scene p'. unfold createScene.
    destruct (createNode _ _ _ _ _) as [[root c] | | |]; simpl; try discriminate.
    intro H. injection H as _ <-. reflexivity.
Qed.

(** A build starts from the ambient colour that the processor holds: the
    colour is not reset, so the contribution of an ambient light at the root is
    added to what earlier builds left. *)
Theorem createScene_keeps_ambient (p : @PDF3DSceneProcessor float) (sceneData : PDF3D_U3D)
  (light : PDF3D_U3D_Light) (fuel : nat) :
  getType (getNode sceneData (m_sceneRoot p)) = NodeType.Light ->
  getLight sceneData (getResourceName (getNode sceneData (m_sceneRoot p))) = Some light ->
  light_getType light = LightType.Ambient ->
  createScene assertions (S fuel) p sceneData =
  Done ({| sceneRoot := None |},
        setGlobalAmbientColor (beginScene p sceneData)
          (addAmbient (m_globalAmbientColor p) light)).
Proof.
  intros Ht Hl Ha. unfold createScene.
  change (m_sceneRoot (beginScene p sceneData)) with (m_sceneRoot p).
  change (m_globalAmbientColor (beginScene p sceneData)) with (m_globalAmbientColor p).
  cbn [createNode]. rewrite Ht.
  now rewrite (createLightNode_ambient_one assertions (beginScene p sceneData)
                 (getNode sceneData (m_sceneRoot p)) light (m_globalAmbientColor p) Ht Hl Ha).
Qed.

(** The lights that are not ambient give an entity with one light component:
    colour and intensity, for point and spot lights the three attenuation
    terms, and for spot lights the cut-off angle; the ambient colour is kept. *)
Theorem createLightNode_entity (p : @PDF3DSceneProcessor float) (node : PDF3D_U3D_Node)
  (light : PDF3D_U3D_Light) (c : QColor) :
  getType node = NodeType.Light ->
  getLight (m_sceneData p) (getResourceName node) = Some light ->
  light_getType light <> LightType.Ambient ->
  createLightNode assertions p node c =
  Done (Some (mkQNode true EmptyString
                [ match light_getType light with
                  | LightType.Spot =>
                      SpotLightComponent (light_getColor light) (light_getIntensity light)
                        (fst (fst (light_getAttenuation light)))
                        (snd (fst (light_getAttenuation light)))
                        (snd (light_getAttenuation light)) (light_getSpotAngle light)
                  | LightType.Point =>
                      PointLightComponent (light_getColor light) (light_getIntensity light)
                        (fst (fst (light_getAttenuation light)))
                        (snd (fst (light_getAttenuation light)))
                        (snd (light_getAttenuation light))
                  | _ =>
                      DirectionalLightComponent (light_getColor light)
                        (light_getIntensity light)
                  end ] []), c).
Proof.
  intros Ht Hl Ha. unfold createLightNode, Q_ASSERT. rewrite Ht, Hl. simpl.
  rewrite andb_false_r. simpl.
  destruct (light_getType light); try (now elim Ha);
    try destruct (light_getAttenuation light) as [[a0 a1] a2]; reflexivity.
Qed.

(** The eight alpha test functions of the model are mapped one to one. *)
Theorem alphaFunctionOf_injective (f g : AlphaTestFunction.t) :
  alphaFunctionOf f = alphaFunctionOf g -> f = g.
Proof. destruct f, g; simpl; intro H; try reflexivity; discriminate H. Qed.

(** The wire box is one entity without a name and without children: the eight
    corners of the box as 24 packed floats, the corners of the lower face
    counter-clockwise from the min corner and then those of the upper face; 24
    line-list indices for the four edges of the lower face, the four of the
    upper face and the four between them; and a material whose ambient colour
    is the auxiliary colour, with transparent diffuse and specular, no alpha
    blending and no render state. *)
Theorem createBoundingBoxWireGeometry_edges (p : @PDF3DSceneProcessor float)
  (boundingBox : PDF3DBoundingBox) :
  let x0 := vx (getMin boundingBox) in let x1 := vx (getMax boundingBox) in
  let y0 := vy (getMin boundingBox) in let y1 := vy (getMax boundingBox) in
  let z0 := vz (getMin boundingBox) in let z1 := vz (getMax boundingBox) in
  let transparent := {| redF := fzero; greenF := fzero; blueF := fzero; alphaF := fzero |} in
  createBoundingBoxWireGeometry p boundingBox =
  Done (mkQNode true EmptyString
          [ GeometryRendererComponent
              {| geometry :=
                   [ {| attribute_name := "vertexPosition";
                        attributeType := AttributeType.VertexAttribute;
                        vertexBaseType := VertexBaseType.Float;
                        vertexSize := 3;
                        attribute_buffer :=
                          {| buffer_type := BufferType.VertexBuffer;
                             buffer_size := 96;
                             buffer_data :=
                               FloatData [ x0; y0; z0;  x1; y0; z0;  x1; y1; z0;  x0; y1; z0;
                                           x0; y0; z1;  x1; y0; z1;  x1; y1; z1;  x0; y1; z1 ] |};
                        byteOffset := 0;
                        byteStride := 12;
                        count := 8 |};
                     {| attribute_name := EmptyString;
                        attributeType := AttributeType.IndexAttribute;
                        vertexBaseType := VertexBaseType.UnsignedInt;
                        vertexSize := 1;
                        attribute_buffer :=
                          {| buffer_type := BufferType.IndexBuffer;
                             buffer_size := 96;
                             buffer_data :=
                               UIntData [ 0; 1;  1; 2;  2; 3;  3; 0;
                                          4; 5;  5; 6;  6; 7;  7; 4;
                                          0; 4;  1; 5;  2; 6;  3; 7 ] |};
                        byteOffset := 0;
                        byteStride := 0;
                        count := 24 |} ];
                 primitiveRestartEnabled := false;
                 primitiveType := PrimitiveType.Lines |};
            MaterialComponent
              {| material_kind := QDiffuseSpecular
                   {| ambient := m_auxiliaryColor p;
                      diffuse := ColorValue transparent;
                      specular := transparent;
                      alphaBlendingEnabled := false |};
                 renderStates := [] |} ]
          []).
Proof. reflexivity. Qed.

End SceneProperties.

(** ** Buffers, attributes and the cases of the point set and the line set *)

Section EncodingProperties.

Context {float : Type} {FO : FloatOps float}.
Variable assertions : bool.

Lemma to_uint_le (z : Z) : 0 <= z -> to_uint z <= z.
Proof. intro H. unfold to_uint, UINT_MODULUS. apply Z.mod_le; lia. Qed.

Lemma size_firstZ {A : Type} (n : Z) (values : list A) :
  0 <= n <= size values -> size (firstZ n values) = n.
Proof.
  intro H. unfold firstZ, size in *. rewrite length_firstn. lia.
Qed.

(** [createGenericAttribute] on any number of values: the count is the size
    reduced to 32 bits, and the call is defined exactly when the twelve bytes
    per counted value fit an [int]. *)
Lemma createGenericAttribute_spec (values : list (@QVector3D float)) :
  createGenericAttribute values =
  if 12 * to_uint (size values) <? 2 ^ 31
  then Done (packedAttribute EmptyString (firstZ (to_uint (size values)) values))
  else Undefined.
Proof.
  pose proof (size_nonneg values) as Hn.
  pose proof (to_uint_bound (size values)) as Hb.
  pose proof (to_uint_le (size values) Hn) as Hle.
  assert (Hs : size (firstZ (to_uint (size values)) values) = to_uint (size values))
    by (apply size_firstZ; lia).
  unfold createGenericAttribute, fillFloatBuffer. cbv zeta.
  rewrite size_flat_map_xyz, Hs.
  destruct (Z.ltb_spec (12 * to_uint (size values)) (2 ^ 31)) as [Hlt | Hge].
  - unfold uint_mul. rewrite (to_uint_small (to_uint (size values) * 3)) by lia.
    rewrite QByteArray_resize_small by (unfold sizeof_float; lia).
    replace (3 * to_uint (size values) * sizeof_float <=?
             to_uint (size values) * 3 * sizeof_float) with true
      by (symmetry; apply Z.leb_le; lia).
    cbn [bind]. unfold packedAttribute. rewrite Hs.
    replace (to_uint (size values) * 3 * sizeof_float) with (12 * to_uint (size values))
      by (unfold sizeof_float; lia).
    reflexivity.
  - pose proof (QByteArray_resize_bound
                  (uint_mul (to_uint (size values)) 3 * sizeof_float)) as Hb'.
    replace (3 * to_uint (size values) * sizeof_float <=?
             QByteArray_resize (uint_mul (to_uint (size values)) 3 * sizeof_float)) with false
      by (symmetry; apply Z.leb_gt; unfold sizeof_float in *; lia).
    reflexivity.
Qed.

Lemma createGenericAttribute_small (values : list (@QVector3D float)) :
  12 * size values < 2 ^ 31 ->
  createGenericAttribute values = Done (packedAttribute EmptyString values).
Proof.
  intro H. pose proof (size_nonneg values) as Hn.
  rewrite createGenericAttribute_spec, (to_uint_small (size values)) by lia.
  rewrite firstZ_all.
  destruct (Z.ltb_spec (12 * size values) (2 ^ 31)); [reflexivity | lia].
Qed.

Lemma createPositionAttribute_small (values : list (@QVector3D float)) :
  12 * size values < 2 ^ 31 ->
  createPositionAttribute values = Done (packedAttribute defaultPositionAttributeName values).
Proof.
  intro H. unfold createPositionAttribute. now rewrite createGenericAttribute_small.
Qed.

(** [createGenericAttribute] packs three floats per value.  The count is the
    number of values reduced to 32 bits, and the stores stay inside the array
    exactly when the twelve bytes per counted value fit the [int] that
    [resize] takes.  Below that bound the three named variants return the
    packed attribute under their names; from 178956971 values on (and below
    2^32 values) they write past the end of the array. *)
Theorem createGenericAttribute_packed (values : list (@QVector3D float)) :
  createGenericAttribute values =
  (if 12 * to_uint (size values) <? 2 ^ 31
   then Done (packedAttribute EmptyString (firstZ (to_uint (size values)) values))
   else Undefined) /\
  (12 * size values < 2 ^ 31 ->
   createPositionAttribute values = Done (packedAttribute defaultPositionAttributeName values) /\
   createNormalAttribute values = Done (packedAttribute defaultNormalAttributeName values) /\
   createColorAttribute values = Done (packedAttribute defaultColorAttributeName values)) /\
  (178956971 <= size values < 2 ^ 32 ->
   createPositionAttribute values = Undefined /\
   createNormalAttribute values = Undefined /\
   createColorAttribute values = Undefined).
Proof.
  split; [apply createGenericAttribute_spec |]. split.
  - intro H. unfold createPositionAttribute, createNormalAttribute, createColorAttribute.
    rewrite (createGenericAttribute_small values H). repeat split.
  - intros Hge.
    unfold createPositionAttribute, createNormalAttribute, createColorAttribute.
    rewrite createGenericAttribute_spec.
    rewrite (to_uint_small (size values)) by (pose proof (size_nonneg values); lia).
    destruct (Z.ltb_spec (12 * size values) (2 ^ 31)); [lia |]. repeat split.
Qed.

Lemma createVertexGeometry_small (p : @PDF3DSceneProcessor float)
  (positions : list (@QVector3D float)) :
  12 * size positions < 2 ^ 31 ->
  createVertexGeometry p positions = Done (vertexEntity p positions).
Proof.
  intro H. unfold createVertexGeometry. now rewrite createPositionAttribute_small.
Qed.

(** Plain vertices.  With the twelve bytes per position fitting an [int],
    [createVertexGeometry] draws the positions as points in the auxiliary
    colour with the point size of the processor converted to [float].  A mesh in
    vertices mode, a point set in illustration, shaded illustration, wireframe
    or vertices mode and a line set in vertices mode return that entity for
    their positions, also when they have no position at all. *)
Theorem createVertexGeometry_every_kind (p : @PDF3DSceneProcessor float)
  (positions : list (@QVector3D float)) :
  12 * size positions < 2 ^ 31 ->
  createVertexGeometry p positions = Done (vertexEntity p positions) /\
  (forall meshGeometry,
     mesh_isEmpty meshGeometry = false -> mesh_getPositions meshGeometry = positions ->
     m_mode p = SceneMode.Vertices ->
     createMeshGeometry assertions p meshGeometry = Done (Some (vertexEntity p positions))) /\
  (forall pointSetGeometry,
     pointSet_isEmpty pointSetGeometry = false ->
     pointSet_getPositions pointSetGeometry = positions ->
     pointsAsVertices (m_mode p) = true ->
     createPointSetGeometry p pointSetGeometry = Done (Some (vertexEntity p positions))) /\
  (forall lineSetGeometry,
     lineSet_isEmpty lineSetGeometry = false ->
     lineSet_getPositions lineSetGeometry = positions ->
     m_mode p = SceneMode.Vertices ->
     createLineSetGeometry p lineSetGeometry = Done (Some (vertexEntity p positions))).
Proof.
  intro H. pose proof (createVertexGeometry_small p positions H) as Hv.
  split; [exact Hv |]. split; [| split].
  - intros g He Hp Hm. unfold createMeshGeometry. rewrite He, Hm, Hp, Hv. reflexivity.
  - intros g He Hp Hm. unfold createPointSetGeometry. rewrite He, Hp.
    destruct (m_mode p); try discriminate Hm; rewrite Hv; reflexivity.
  - intros g He Hp Hm. unfold createLineSetGeometry. rewrite He, Hm, Hp, Hv. reflexivity.
Qed.

Lemma size_indices (n : Z) : 0 <= n -> size (indices n) = n.
Proof. intro H. unfold size, indices. rewrite length_map, length_seq. lia. Qed.

Lemma flat_map_map {A B C : Type} (f : A -> B) (g : B -> list C) (l : list A) :
  flat_map g (map f l) = flat_map (fun x => g (f x)) l.
Proof. induction l as [| x l IH]; simpl; [reflexivity | now rewrite IH]. Qed.

Lemma size_map {A B : Type} (f : A -> B) (l : list A) : size (map f l) = size l.
Proof. unfold size. now rewrite length_map. Qed.

Lemma In_indices (n i : Z) : In i (indices n) <-> 0 <= i < n.
Proof.
  unfold indices. rewrite in_map_iff. split.
  - intros [k [<- Hk]]. apply in_seq in Hk. lia.
  - intro H. exists (Z.to_nat i). split; [lia |]. apply in_seq. lia.
Qed.

(** The coloured points of [coloredPoints] over packed positions. *)
Lemma coloredPoints_small (p : @PDF3DSceneProcessor float)
  (positions : list (@QVector3D float)) (colorOf : Z -> QVector3D) :
  12 * size positions < 2 ^ 31 ->
  coloredPoints p (packedAttribute defaultPositionAttributeName positions) colorOf =
  Done (coloredPointsEntity p positions (map colorOf (indices (size positions)))).
Proof.
  intro H. pose proof (size_nonneg positions) as Hn.
  unfold coloredPoints, fillFloatBuffer, uint_mul. cbv zeta. cbn [count packedAttribute].
  rewrite (to_uint_small (size positions * 3)) by lia.
  rewrite QByteArray_resize_small by (unfold sizeof_float; lia).
  rewrite <- (flat_map_map colorOf xyz), size_flat_map_xyz, size_map, size_indices by lia.
  replace (3 * size positions * sizeof_float <=? size positions * 3 * sizeof_float) with true
    by (symmetry; apply Z.leb_le; lia).
  cbn [bind]. unfold coloredPointsEntity, packedAttribute.
  rewrite size_map, size_indices by lia.
  replace (size positions * 3 * sizeof_float) with (12 * size positions)
    by (unfold sizeof_float; lia).
  reflexivity.
Qed.

(** Coloured points.  In the eight shaded modes a point set whose twelve bytes
    per position fit an [int] is drawn as points, of the point size of the
    processor converted to [float], with a colour buffer of its own: one colour
    per position, the diffuse colour of the first point that refers to the
    position, and black for a position that no point refers to. *)
Theorem createPointSetGeometry_colored (p : @PDF3DSceneProcessor float)
  (pointSetGeometry : PDF3D_U3D_PointSetGeometry) :
  pointSet_isEmpty pointSetGeometry = false ->
  pointsAsColored (m_mode p) = true ->
  12 * size (pointSet_getPositions pointSetGeometry) < 2 ^ 31 ->
  let positions := pointSet_getPositions pointSetGeometry in
  let colors := map (pointSetColor pointSetGeometry) (indices (size positions)) in
  createPointSetGeometry p pointSetGeometry
  = Done (Some (coloredPointsEntity p positions colors)) /\
  size colors = size positions /\
  (forall i, pointSet_queryPointsByVertexIndex pointSetGeometry i = [] ->
             pointSetColor pointSetGeometry i = QVector3D_zero) /\
  (forall i point rest,
     pointSet_queryPointsByVertexIndex pointSetGeometry i = point :: rest ->
     pointSetColor pointSetGeometry i =
     toVector3D (pointSet_getDiffuseColor pointSetGeometry (point_diffuseColor point))).
Proof.
  intros He Hm Hb positions colors. split; [| split; [| split]].
  - unfold createPointSetGeometry. rewrite He.
    destruct (m_mode p); try discriminate Hm;
      rewrite (createPositionAttribute_small _ Hb); cbn [bind];
      rewrite (coloredPoints_small p _ _ Hb); reflexivity.
  - unfold colors. rewrite size_map, size_indices; [reflexivity | apply size_nonneg].
  - intros i Hq. unfold pointSetColor. now rewrite Hq.
  - intros i point rest Hq. unfold pointSetColor. now rewrite Hq.
Qed.

(** Shaded vertices of a line set whose twelve bytes per position fit an
    [int].  Every position takes its colour from the
    first line that refers to it: the colour of the second end when the
    position is the second end, else the colour of the first end when it is
    the first end, else black; a position that no line refers to is black. *)
Theorem createLineSetGeometry_shaded_vertices (p : @PDF3DSceneProcessor float)
  (lineSetGeometry : PDF3D_U3D_LineSetGeometry) :
  lineSet_isEmpty lineSetGeometry = false ->
  m_mode p = SceneMode.ShadedVertices ->
  12 * size (lineSet_getPositions lineSetGeometry) < 2 ^ 31 ->
  let positions := lineSet_getPositions lineSetGeometry in
  let colors := map (lineSetColor lineSetGeometry) (indices (size positions)) in
  let colorAt := fun k => toVector3D (lineSet_getDiffuseColor lineSetGeometry k) in
  createLineSetGeometry p lineSetGeometry
  = Done (Some (coloredPointsEntity p positions colors)) /\
  (forall i, lineSet_queryLinesByVertexIndex lineSetGeometry i = [] ->
             lineSetColor lineSetGeometry i = QVector3D_zero) /\
  (forall i line rest,
     lineSet_queryLinesByVertexIndex lineSetGeometry i = line :: rest ->
     lineSetColor lineSetGeometry i =
     if position2 line =? i then colorAt (diffuseColor2 line)
     else if position1 line =? i then colorAt (diffuseColor1 line)
     else QVector3D_zero).
Proof.
  intros He Hm Hb positions colors colorAt. split; [| split].
  - unfold createLineSetGeometry. rewrite He, Hm.
    rewrite (createPositionAttribute_small _ Hb). cbn [bind].
    rewrite (coloredPoints_small p _ _ Hb). reflexivity.
  - intros i Hq. unfold lineSetColor. now rewrite Hq.
  - intros i line rest Hq. unfold lineSetColor. rewrite Hq.
    destruct (position2 line =? i), (position1 line =? i); reflexivity.
Qed.

Lemma size_flat_map_pair {A B : Type} (f : A -> list B) (l : list A) :
  (forall x, List.length (f x) = 2%nat) -> size (flat_map f l) = 2 * size l.
Proof.
  intro H. unfold size. rewrite (length_flat_map_const f 2 l H). lia.
Qed.

(** Indexed lines.  In illustration, shaded illustration and wireframe mode a
    line set is drawn over its own positions with an index buffer of two
    indices per line, in the order of the lines, in the auxiliary colour, as
    long as the eight bytes of indices per line fit the [int] that [resize]
    takes.  From 2^28 lines on they do not, and the stores run past the end of
    the index array. *)
Theorem createLineSetGeometry_indexed_lines (p : @PDF3DSceneProcessor float)
  (lineSetGeometry : PDF3D_U3D_LineSetGeometry) :
  lineSet_isEmpty lineSetGeometry = false ->
  linesAsWireframe (m_mode p) = true ->
  12 * size (lineSet_getPositions lineSetGeometry) < 2 ^ 31 ->
  size (lineSet_getLines lineSetGeometry) < 2 ^ 32 ->
  let lines := lineSet_getLines lineSetGeometry in
  (size lines < 2 ^ 28 ->
   createLineSetGeometry p lineSetGeometry =
   Done (Some (indexedLinesEntity p (lineSet_getPositions lineSetGeometry)
                 (flat_map lineIndexPair lines))) /\
   size (flat_map lineIndexPair lines) = 2 * size lines) /\
  (2 ^ 28 <= size lines -> createLineSetGeometry p lineSetGeometry = Undefined).
Proof.
  intros He Hm Hb Hl lines.
  pose proof (size_nonneg lines) as Hn.
  assert (Hl' : size lines < 2 ^ 32) by exact Hl.
  assert (Hw : createLineSetGeometry p lineSetGeometry =
               (entity <- createLineSetWireframe p lineSetGeometry ;; Done (Some entity))).
  { unfold createLineSetGeometry. rewrite He.
    destruct (m_mode p); try discriminate Hm; reflexivity. }
  rewrite Hw. unfold createLineSetWireframe, lineSet_getLineCount.
  rewrite (createPositionAttribute_small _ Hb). cbn [bind].
  fold lines. rewrite (to_uint_small (size lines)) by lia.
  rewrite firstZ_all. unfold fillUIntBuffer. cbv zeta.
  rewrite (size_flat_map_pair _ lines) by reflexivity.
  split.
  - intro H2. unfold uint_mul.
    rewrite (to_uint_small (size lines * 2)), (to_uint_small (2 * size lines)) by lia.
    rewrite QByteArray_resize_small by (unfold sizeof_uint; lia).
    replace (2 * size lines * sizeof_uint <=? size lines * 2 * sizeof_uint) with true
      by (symmetry; apply Z.leb_le; lia).
    cbn [bind]. rewrite map_flat_map.
    assert (Hs : size (flat_map lineIndexPair lines) = 2 * size lines)
      by (apply size_flat_map_pair; reflexivity).
    split; [| exact Hs].
    unfold indexedLinesEntity. rewrite Hs.
    replace (size lines * 2 * sizeof_uint) with (4 * (2 * size lines))
      by (unfold sizeof_uint; lia).
    reflexivity.
  - intro H2.
    pose proof (QByteArray_resize_bound (uint_mul (size lines) 2 * sizeof_uint)) as Hb'.
    replace (2 * size lines * sizeof_uint <=?
             QByteArray_resize (uint_mul (size lines) 2 * sizeof_uint)) with false
      by (symmetry; apply Z.leb_gt; unfold sizeof_uint in *; lia).
    reflexivity.
Qed.

End EncodingProperties.

(** ** Bounding boxes, materials and the map of the lines *)

Section BoxProperties.

Context {float : Type} {FO : FloatOps float}.
Variable assertions : bool.

(** The bounding box modes look at the positions only.  For the same
    positions a mesh, a point set and a line set give the same result: nothing
    when there is no position, and otherwise the wire box, the transparent box,
    or a plain node over the wire box and the transparent box, in this
    order. *)
Theorem boundingBox_modes_every_kind (p : @PDF3DSceneProcessor float)
  (positions : list (@QVector3D float)) :
  boundingBoxMode (m_mode p) = true ->
  exists wire transparent,
    createBoundingBoxWireGeometry p (getBoundingBox positions) = Done wire /\
    createBoundingBoxTransparentGeometry p (getBoundingBox positions) = Done transparent /\
    let result := match positions with
                  | [] => None
                  | _ :: _ => boundingBoxNode (m_mode p) wire transparent
                  end in
    (forall meshGeometry,
       mesh_isEmpty meshGeometry = false -> mesh_getPositions meshGeometry = positions ->
       createMeshGeometry assertions p meshGeometry = Done result) /\
    (forall pointSetGeometry,
       pointSet_isEmpty pointSetGeometry = false ->
       pointSet_getPositions pointSetGeometry = positions ->
       createPointSetGeometry p pointSetGeometry = Done result) /\
    (forall lineSetGeometry,
       lineSet_isEmpty lineSetGeometry = false ->
       lineSet_getPositions lineSetGeometry = positions ->
       createLineSetGeometry p lineSetGeometry = Done result).
Proof.
  intro Hm. eexists. eexists. split; [reflexivity |]. split; [reflexivity |].
  destruct positions as [| front rest].
  - repeat split; intros g He Hp;
      unfold createMeshGeometry, createPointSetGeometry, createLineSetGeometry;
      rewrite He, Hp; destruct (m_mode p); try discriminate Hm; reflexivity.
  - rewrite getBoundingBox_cons.
    repeat split; intros g He Hp;
      unfold createMeshGeometry, createPointSetGeometry, createLineSetGeometry,
        boundingBoxWire, boundingBoxTransparent, boundingBoxOutline;
      rewrite He, Hp, getBoundingBox_cons;
      destruct (m_mode p); try discriminate Hm; reflexivity.
Qed.

(** The index buffer of the wire box names the twelve edges of a box: every
    index refers to one of the eight corners, the two ends of an edge are
    different corners on a line parallel to an axis, and no edge is listed
    twice. *)
Theorem createBoundingBoxWireGeometry_cube_edges (boundingBox : @PDF3DBoundingBox float) :
  size (boundingBoxPositions boundingBox) = 8 /\
  List.length (pairs wireIndices) = 12%nat /\
  Forall (fun i => 0 <= i < 8) wireIndices /\
  Forall (fun e => fst e <> snd e /\
                   alongAxis (corner boundingBox (fst e)) (corner boundingBox (snd e)))
         (pairs wireIndices) /\
  NoDup (map undirected (pairs wireIndices)).
Proof.
  split; [reflexivity |]. split; [reflexivity |]. split; [| split].
  - unfold wireIndices. repeat (apply Forall_cons; [lia |]). apply Forall_nil.
  - destruct boundingBox; cbn [pairs wireIndices];
      repeat (apply Forall_cons;
              [split; [discriminate | unfold alongAxis, corner; cbn; tauto] |]);
      apply Forall_nil.
  - cbn. repeat (apply NoDup_cons;
                 [cbn; intro H; repeat (destruct H as [H | H]; [discriminate H |]); exact H |]).
    apply NoDup_nil.
Qed.

(** The transparent box: eight packed corners, 36 indices of a triangle list
    in 144 bytes, and a material with the auxiliary colour at the opacity of
    the processor as diffuse colour, alpha blending and no face culling.  Every
    index refers to one of the eight corners, and every triangle has three
    different corners in one face of the box. *)
Theorem createBoundingBoxTransparentGeometry_faces (p : @PDF3DSceneProcessor float)
  (boundingBox : PDF3DBoundingBox) :
  createBoundingBoxTransparentGeometry p boundingBox =
  Done (renderEntity
          {| geometry :=
               [ packedAttribute defaultPositionAttributeName
                                 (boundingBoxPositions boundingBox);
                 indexAttribute
                   {| buffer_type := BufferType.IndexBuffer;
                      buffer_size := 144;
                      buffer_data := UIntData transparentIndices |} 36 ];
             primitiveRestartEnabled := false;
             primitiveType := PrimitiveType.Triangles |}
          {| material_kind := QDiffuseSpecular
               {| ambient := Qt_transparent;
                  diffuse := ColorValue (setAlphaF (m_auxiliaryColor p) (m_opacity p));
                  specular := Qt_transparent;
                  alphaBlendingEnabled := true |};
             renderStates := [QCullFace_NoCulling] |}) /\
  List.length (triples transparentIndices) = 12%nat /\
  Forall (fun i => 0 <= i < 8) transparentIndices /\
  Forall (fun t => let '(i, j, k) := t in
                   i <> j /\ j <> k /\ i <> k /\
                   inOneFace (corner boundingBox i) (corner boundingBox j)
                             (corner boundingBox k))
         (triples transparentIndices).
Proof.
  split; [reflexivity |]. split; [reflexivity |]. split.
  - unfold transparentIndices. repeat (apply Forall_cons; [lia |]). apply Forall_nil.
  - destruct boundingBox; cbn [triples transparentIndices];
      repeat (apply Forall_cons;
              [repeat (split; [discriminate |]); unfold inOneFace, corner; cbn; tauto |]);
      apply Forall_nil.
Qed.

(** [createMaterialFromShader] dereferences a null pointer in exactly two
    cases: the shader is missing, or it is a shader without texture that does
    not use vertex colours and whose material is missing.  In every other case
    a material is returned.  A caller that forces vertex colours never looks a
    material up. *)
Theorem createMaterialFromShader_null_dereference (p : @PDF3DSceneProcessor float)
  (shaderName : string) (forceUseVertexColors : bool) :
  (createMaterialFromShader p shaderName forceUseVertexColors = Undefined <->
   materialUnresolved p shaderName forceUseVertexColors) /\
  (~ materialUnresolved p shaderName forceUseVertexColors ->
   exists material,
     createMaterialFromShader p shaderName forceUseVertexColors = Done material) /\
  (createMaterialFromShader p shaderName true = Undefined <->
   getShader (m_sceneData p) shaderName = None).
Proof.
  unfold createMaterialFromShader, materialUnresolved.
  destruct (getShader (m_sceneData p) shaderName) as [shader |].
  - destruct (getTextureInfos shader) as [| textureInfo rest];
      rewrite ?orb_true_r;
      [destruct (isUseVertexColor shader || forceUseVertexColors);
       [| destruct (getMaterial (m_sceneData p) (getMaterialName shader))] |];
      destruct (isAlphaTestEnabled shader); cbn [bind];
      repeat split; try discriminate; try tauto; try (intros [? [? ?]]; discriminate);
      try (intros _; eexists; reflexivity); try (intro H; now elim H).
  - repeat split; auto; intro H; now elim H.
Qed.

Lemma map_push_back_Permutation (key : Z) (line : Line) (m : list (Z * list Line)) :
  Permutation (flat_map snd (map_push_back key line m)) (line :: flat_map snd m).
Proof.
  induction m as [| [k lines] m IH]; simpl.
  - reflexivity.
  - destruct (key <? k); [reflexivity |]. destruct (key =? k); simpl.
    + rewrite <- app_assoc. simpl. symmetry. apply Permutation_middle.
    + rewrite IH. symmetry. apply Permutation_middle.
Qed.

Lemma map_push_back_length (key : Z) (line : Line) (m : list (Z * list Line)) :
  (List.length (map_push_back key line m) <= S (List.length m))%nat.
Proof.
  induction m as [| [k lines] m IH]; simpl.
  - lia.
  - destruct (key <? k); [simpl; lia |]. destruct (key =? k); simpl; lia.
Qed.

Lemma shadingIdToLines_fold_Permutation (lines : list Line) :
  forall m : list (Z * list Line),
    Permutation
      (flat_map snd (fold_left (fun m line => map_push_back (to_uint (shadingId line)) line m)
                               lines m))
      (flat_map snd m ++ lines) /\
    (List.length (fold_left (fun m line => map_push_back (to_uint (shadingId line)) line m)
                            lines m)
     <= List.length m + List.length lines)%nat.
Proof.
  induction lines as [| line lines IH]; intro m; simpl.
  - rewrite app_nil_r. split; [reflexivity | lia].
  - destruct (IH (map_push_back (to_uint (shadingId line)) line m)) as [HP HL]. split.
    + rewrite HP, map_push_back_Permutation. simpl. apply Permutation_middle.
    + pose proof (map_push_back_length (to_uint (shadingId line)) line m). lia.
Qed.

(** Grouping by shading id keeps the lines: the entries of the map, one after
    the other, are a permutation of the lines; there are at most as many
    entries as lines, and at least one when there is a line. *)
Theorem shadingIdToLines_keeps_lines (lines : list Line) :
  Permutation (flat_map snd (shadingIdToLines lines)) lines /\
  size (flat_map snd (shadingIdToLines lines)) = size lines /\
  (List.length (shadingIdToLines lines) <= List.length lines)%nat /\
  (lines <> [] -> shadingIdToLines lines <> []).
Proof.
  destruct (shadingIdToLines_fold_Permutation lines []) as [HP HL].
  fold (shadingIdToLines lines) in HP, HL. simpl in HP, HL.
  split; [exact HP |]. split; [| split; [exact HL |]].
  - unfold size. now rewrite (Permutation_length HP).
  - intros Hne He. rewrite He in HP. simpl in HP.
    apply Permutation_nil in HP. now elim Hne.
Qed.

End BoxProperties.

(** ** What a build reads, the nodes it builds and where it can fail *)

Section FrameProperties.

Context {float : Type} {FO : FloatOps float}.
Variable assertions : bool.

Lemma createLightNode_sceneData (p p' : @PDF3DSceneProcessor float) (node : PDF3D_U3D_Node)
  (c : QColor) :
  m_sceneData p = m_sceneData p' ->
  createLightNode assertions p node c = createLightNode assertions p' node c.
Proof. intro H. unfold createLightNode. now rewrite H. Qed.

(** The visit reads the processor only through the scene data and through
    [createModelNode]. *)
Lemma createNode_frame (p p' : @PDF3DSceneProcessor float) :
  m_sceneData p = m_sceneData p' ->
  (forall node, createModelNode assertions p node = createModelNode assertions p' node) ->
  forall fuel node c,
    createNode assertions fuel p node c = createNode assertions fuel p' node c.
Proof.
  intros Hd Hm. induction fuel as [| fuel IH]; intros node c; simpl.
  - reflexivity.
  - rewrite Hm, (createLightNode_sceneData p p' node c Hd).
    destruct (getType node); simpl;
      repeat match goal with
             | |- context [if ?b then _ else _] => destruct b; simpl
             | |- context [createModelNode ?a ?p ?n] =>
                 destruct (createModelNode a p n) as [[?|] | | |]; simpl
             | |- context [createLightNode ?a ?p ?n ?c] =>
                 destruct (createLightNode a p n c) as [[[?|] ?] | | |]; simpl
             end; try reflexivity;
      erewrite attachChildren_ext; try reflexivity; auto.
Qed.

(** What a build reads of the processor.  The scene and the ambient colour
    depend on the mode, the scene root and the ambient colour; on the
    auxiliary colour except in the eight shaded modes; on the opacity only in
    the two modes that draw the faces of the bounding box; on the point size
    except in the three bounding box modes.  They depend neither on the face
    colour, nor on the crease angle, nor on the processed node names, nor on
    the scene data of an earlier build. *)
Theorem createScene_settings_read (p p' : @PDF3DSceneProcessor float)
  (sceneData : PDF3D_U3D) (fuel : nat) :
  m_mode p' = m_mode p -> m_sceneRoot p' = m_sceneRoot p ->
  m_globalAmbientColor p' = m_globalAmbientColor p ->
  (pointsAsColored (m_mode p) = true \/ m_auxiliaryColor p' = m_auxiliaryColor p) ->
  (transparentBoxMode (m_mode p) = false \/ m_opacity p' = m_opacity p) ->
  (boundingBoxMode (m_mode p) = true \/ m_pointSize p' = m_pointSize p) ->
  sceneAndAmbient (createScene assertions fuel p' sceneData) =
  sceneAndAmbient (createScene assertions fuel p sceneData).
Proof.
  intros Hmode Hroot Hamb Haux Hop Hps.
  unfold sceneAndAmbient, createScene.
  change (m_sceneRoot (beginScene p' sceneData)) with (m_sceneRoot p').
  change (m_sceneRoot (beginScene p sceneData)) with (m_sceneRoot p).
  change (m_globalAmbientColor (beginScene p' sceneData)) with (m_globalAmbientColor p').
  change (m_globalAmbientColor (beginScene p sceneData)) with (m_globalAmbientColor p).
  rewrite Hroot, Hamb.
  rewrite (createNode_frame (beginScene p' sceneData) (beginScene p sceneData)).
  - destruct (createNode _ _ _ _ _) as [[root c] | | |]; reflexivity.
  - reflexivity.
  - intro node. destruct p as [mode aux face op crease root ps amb processed data].
    destruct p' as [mode' aux' face' op' crease' root' ps' amb' processed' data'].
    cbn in Hmode, Hroot, Hamb, Haux, Hop, Hps. subst mode' root' amb'.
    unfold createModelNode, beginScene. cbn [m_sceneData m_mode m_auxiliaryColor m_faceColor
      m_opacity m_creaseAngle m_sceneRoot m_pointSize m_globalAmbientColor m_processedNodes].
    destruct (getGeometry sceneData (getResourceName node)) as [[g | g | g |] |];
      try reflexivity;
      destruct mode;
      destruct Haux as [Haux | Haux]; try discriminate Haux;
      destruct Hop as [Hop | Hop]; try discriminate Hop;
      destruct Hps as [Hps | Hps]; try discriminate Hps;
      try subst aux'; try subst op'; try subst ps'; reflexivity.
Qed.

End FrameProperties.

Section StructureProperties.

Context {float : Type} {FO : FloatOps float}.
Variable assertions : bool.

(** The loop over the children keeps the node it was given and adds children
    at the end: one for every child name whose visit gives a node, in the
    order of the names. *)
Lemma attachChildren_inv
  (visit : @PDF3D_U3D_Node float -> QColor -> outcome (option QNode * QColor))
  (p : @PDF3DSceneProcessor float) (node : PDF3D_U3D_Node) :
  forall childNodeNames e name cs ch c processedNode c',
    attachChildren visit p node childNodeNames (mkQNode e name cs ch) c
    = Done (processedNode, c') ->
    exists attached,
      processedNode = mkQNode e name cs (ch ++ attached) /\
      (List.length attached <= List.length childNodeNames)%nat /\
      Forall (fun a =>
                exists childNodeName childNode c0 c1,
                  In childNodeName childNodeNames /\
                  visit (getNode (m_sceneData p) childNodeName) c0
                  = Done (Some childNode, c1) /\
                  a = attachedChild node childNodeName childNode) attached.
Proof.
  induction childNodeNames as [| childNodeName rest IH];
    intros e name cs ch c pn c' H; simpl in H.
  - injection H as <- <-. exists []. rewrite app_nil_r. repeat split; auto.
  - destruct (visit (getNode (m_sceneData p) childNodeName) c) as [[[child |] c1] | | |] eqn:Ev;
      simpl in H; try discriminate H.
    + assert (Ha : exists attached,
                 pn = mkQNode e name cs ((ch ++ [attachedChild node childNodeName child])
                                         ++ attached) /\
                 (List.length attached <= List.length rest)%nat /\
                 Forall (fun a =>
                           exists childNodeName childNode c0 c1,
                             In childNodeName rest /\
                             visit (getNode (m_sceneData p) childNodeName) c0
                             = Done (Some childNode, c1) /\
                             a = attachedChild node childNodeName childNode) attached).
      { apply (IH e name cs _ c1 pn c'). rewrite <- H. unfold attachedChild.
        destruct (hasChildTransform node && negb (hasConstantChildTransform node));
          reflexivity. }
      destruct Ha as [attached [Hpn [Hlen Hall]]].
      exists (attachedChild node childNodeName child :: attached).
      split; [now rewrite Hpn, <- app_assoc |]. split; [simpl; lia |].
      constructor.
      * exists childNodeName, child, c, c1. repeat split; auto. now left.
      * eapply Forall_impl; [| exact Hall].
        intros a [n [ch' [c0 [c2 [Hin [Hv Heq]]]]]].
        exists n, ch', c0, c2. repeat split; auto. now right.
    + destruct (IH e name cs ch c1 pn c' H) as [attached [Hpn [Hlen Hall]]].
      exists attached. split; [exact Hpn |]. split; [simpl; lia |].
      eapply Forall_impl; [| exact Hall].
      intros a [n [ch' [c0 [c2 [Hin [Hv Heq]]]]]].
      exists n, ch', c0, c2. repeat split; auto. now right.
Qed.

(** The node that the switch of [createNode] gives before the children are
    attached. *)
Lemma createNode_inv (fuel : nat) (p : @PDF3DSceneProcessor float) (node : PDF3D_U3D_Node)
  (c c' : QColor) (processedNode : QNode) :
  createNode assertions (S fuel) p node c = Done (Some processedNode, c') ->
  exists e name cs ch c1,
    match getType node with
    | NodeType.Unknown => mkQNode e name cs ch = new_QNode /\ c1 = c
    | NodeType.Group =>
        mkQNode e name cs ch =
        (if hasChildTransform node && hasConstantChildTransform node
         then addComponent new_QEntity (TransformComponent (getConstantChildTransform node))
         else new_QNode) /\ c1 = c
    | NodeType.Model =>
        createModelNode assertions p node = Done (Some (mkQNode e name cs ch)) /\ c1 = c
    | NodeType.Light =>
        createLightNode assertions p node c = Done (Some (mkQNode e name cs ch), c1)
    | NodeType.View => False
    end /\
    attachChildren (createNode assertions fuel p) p node (getChildren node)
                   (mkQNode e (getNodeName node) cs ch) c1
    = Done (processedNode, c').
Proof.
  intro H. simpl in H.
  assert (Hk : forall (first : @QNode float) (c1 : QColor),
             (r <- attachChildren (createNode assertions fuel p) p node (getChildren node)
                     first c1 ;;
              (let (processedNode0, globalAmbientColor) := r in
               Done (Some processedNode0, globalAmbientColor)))
             = Done (Some processedNode, c') ->
             attachChildren (createNode assertions fuel p) p node (getChildren node)
                            first c1
             = Done (processedNode, c')).
  { intros first c1 Hf.
    destruct (attachChildren _ _ _ _ _ _) as [[pn c2] | | |]; simpl in Hf;
      try discriminate Hf.
    now injection Hf as <- <-. }
  destruct (getType node).
  - simpl in H. apply Hk in H. exists false, EmptyString, [], [], c. now split.
  - destruct (hasChildTransform node && hasConstantChildTransform node); simpl in H;
      apply Hk in H.
    + exists true, EmptyString, [TransformComponent (getConstantChildTransform node)], [], c.
      now split.
    + exists false, EmptyString, [], [], c. now split.
  - destruct (createModelNode assertions p node) as [[[e name cs ch] |] | | |]; simpl in H;
      try discriminate H.
    apply Hk in H. exists e, name, cs, ch, c. now split.
  - destruct (createLightNode assertions p node c) as [[[[e name cs ch] |] c1] | | |];
      simpl in H; try discriminate H.
    apply Hk in H. exists e, name, cs, ch, c1. now split.
  - simpl in H. discriminate H.
Qed.

(** A node that is built carries the name of its model node.  The node of an
    unknown node has no component; the node of a group has the constant child
    transform as its only component when the group has a constant child
    transform, and no component otherwise.  A view is never built. *)
Theorem createNode_objectName (fuel : nat) (p : @PDF3DSceneProcessor float)
  (node : PDF3D_U3D_Node) (c c' : QColor) (processedNode : QNode) :
  createNode assertions fuel p node c = Done (Some processedNode, c') ->
  objectName processedNode = getNodeName node /\
  (getType node = NodeType.Unknown -> components processedNode = []) /\
  (getType node = NodeType.Group ->
   components processedNode =
   if hasChildTransform node && hasConstantChildTransform node
   then [TransformComponent (getConstantChildTransform node)] else []) /\
  getType node <> NodeType.View.
Proof.
  intro H. destruct fuel as [| fuel]; [discriminate H |].
  destruct (createNode_inv fuel p node c c' processedNode H)
    as [e [name [cs [ch [c1 [Hfirst Hattach]]]]]].
  destruct (attachChildren_inv _ p node _ _ _ _ _ _ _ _ Hattach)
    as [attached [Hpn _]].
  subst processedNode. cbn [objectName components].
  split; [reflexivity |]. split; [| split].
  - intro Ht. rewrite Ht in Hfirst. destruct Hfirst as [Hf _]. now injection Hf.
  - intro Ht. rewrite Ht in Hfirst. destruct Hfirst as [Hf _].
    destruct (hasChildTransform node && hasConstantChildTransform node);
      now injection Hf.
  - intro Ht. now rewrite Ht in Hfirst.
Qed.

Lemma createLightNode_children (p : @PDF3DSceneProcessor float) (node : PDF3D_U3D_Node)
  (c c1 : QColor) (e : bool) (name : string) (cs : list QComponent) (ch : list QNode) :
  createLightNode assertions p node c = Done (Some (mkQNode e name cs ch), c1) ->
  ch = [] /\ c1 = c.
Proof.
  unfold createLightNode.
  destruct (Q_ASSERT assertions _); simpl; try discriminate.
  destruct (getLight _ _) as [light |]; [| discriminate].
  destruct (light_getType light); try discriminate;
    try destruct (light_getAttenuation light) as [[a0 a1] a2];
    intro H; injection H as _ _ _ <- <-; now split.
Qed.

(** The loop over the children adds the attached nodes after the children
    that the node has, or fails as the visits do. *)
Lemma attachChildren_attachedNodes
  (visit : @PDF3D_U3D_Node float -> QColor -> outcome (option QNode * QColor))
  (p : @PDF3DSceneProcessor float) (node : PDF3D_U3D_Node) :
  forall childNodeNames e name cs ch c,
    attachChildren visit p node childNodeNames (mkQNode e name cs ch) c =
    (r <- attachedNodes visit p node childNodeNames c ;;
     Done (mkQNode e name cs (ch ++ fst r), snd r)).
Proof.
  induction childNodeNames as [| childNodeName rest IH]; intros e name cs ch c; simpl.
  - now rewrite app_nil_r.
  - destruct (visit (getNode (m_sceneData p) childNodeName) c) as [[[child |] c1] | | |];
      simpl; try reflexivity.
    + replace (if hasChildTransform node && negb (hasConstantChildTransform node)
               then mkQNode e name cs
                      (ch ++ [mkQNode true EmptyString
                                [TransformComponent (getChildTransform node childNodeName)]
                                [child]])
               else mkQNode e name cs (ch ++ [child]))
        with (mkQNode e name cs (ch ++ [attachedChild node childNodeName child]))
        by (unfold attachedChild;
            destruct (hasChildTransform node && negb (hasConstantChildTransform node));
            reflexivity).
      rewrite IH.
      destruct (attachedNodes visit p node rest c1) as [[attached c2] | | |];
        simpl; try reflexivity.
      now rewrite <- app_assoc.
    + rewrite IH.
      destruct (attachedNodes visit p node rest c1) as [[attached c2] | | |];
        reflexivity.
Qed.

(** The children of a built node are those of its own geometry, none unless
    it is a model node, followed by the nodes attached for the child names.
    The child names are visited in their order, each visit starting from the
    ambient colour that the one before left, the first from the colour that
    the visit of the node started with; a visit that gives a node attaches it,
    below an entity with the transform of that child when the node has child
    transforms that are not constant, and a visit that gives none attaches
    nothing.  So there is at most one child per child name, and each is the
    node built for one of the child names. *)
Theorem createNode_children (fuel : nat) (p : @PDF3DSceneProcessor float)
  (node : PDF3D_U3D_Node) (c c' : QColor) (processedNode : QNode) :
  createNode assertions (S fuel) p node c = Done (Some processedNode, c') ->
  exists own attached,
    children processedNode = own ++ attached /\
    (getType node <> NodeType.Model -> own = []) /\
    attachedNodes (createNode assertions fuel p) p node (getChildren node) c
    = Done (attached, c') /\
    (List.length attached <= List.length (getChildren node))%nat /\
    Forall (fun a =>
              exists childNodeName childNode c0 c1,
                In childNodeName (getChildren node) /\
                createNode assertions fuel p (getNode (m_sceneData p) childNodeName) c0
                = Done (Some childNode, c1) /\
                a = attachedChild node childNodeName childNode) attached.
Proof.
  intro H.
  destruct (createNode_inv fuel p node c c' processedNode H)
    as [e [name [cs [ch [c1 [Hfirst Hattach]]]]]].
  destruct (attachChildren_inv _ p node _ _ _ _ _ _ _ _ Hattach)
    as [attached [Hpn [Hlen Hall]]].
  assert (Hown : (getType node <> NodeType.Model -> ch = []) /\ c1 = c).
  { destruct (getType node); try contradiction.
    - destruct Hfirst as [Hf ->]. split; [| reflexivity]. intros _. now injection Hf.
    - destruct Hfirst as [Hf ->]. split; [| reflexivity]. intros _.
      destruct (hasChildTransform node && hasConstantChildTransform node);
        now injection Hf.
    - destruct Hfirst as [_ ->]. split; [| reflexivity]. intro Hnm. now elim Hnm.
    - destruct (createLightNode_children p node c c1 e name cs ch Hfirst) as [-> ->].
      now split. }
  destruct Hown as [Hown ->].
  rewrite attachChildren_attachedNodes in Hattach.
  destruct (attachedNodes (createNode assertions fuel p) p node (getChildren node) c)
    as [[attached' c2] | | |] eqn:Ea; cbn [bind fst snd] in Hattach; try discriminate Hattach.
  injection Hattach as Hpn' <-. rewrite Hpn in Hpn'. injection Hpn' as Happ.
  apply app_inv_head in Happ. subst attached'.
  exists ch, attached. subst processedNode. cbn [children].
  split; [reflexivity |]. split; [exact Hown |]. split; [reflexivity |].
  split; [exact Hlen | exact Hall].
Qed.

(** The visit of a node gives no node only from the switch over the node
    type, never after the children were attached. *)
Lemma createNode_none_inv (fuel : nat) (p : @PDF3DSceneProcessor float)
  (node : PDF3D_U3D_Node) (c c' : QColor) :
  createNode assertions (S fuel) p node c = Done (None, c') ->
  match getType node with
  | NodeType.Unknown | NodeType.Group => False
  | NodeType.Model => createModelNode assertions p node = Done None /\ c' = c
  | NodeType.Light => createLightNode assertions p node c = Done (None, c')
  | NodeType.View => c' = c
  end.
Proof.
  assert (Hk : forall (first : @QNode float) (c1 : QColor),
             (r <- attachChildren (createNode assertions fuel p) p node (getChildren node)
                     first c1 ;;
              (let (processedNode0, globalAmbientColor) := r in
               Done (Some processedNode0, globalAmbientColor)))
             <> Done (None, c')).
  { intros first c1.
    destruct (attachChildren _ _ _ _ _ _) as [[pn c2] | | |]; simpl; discriminate. }
  simpl. destruct (getType node).
  - simpl. intro H. now apply Hk in H.
  - destruct (hasChildTransform node && hasConstantChildTransform node); simpl;
      intro H; now apply Hk in H.
  - destruct (createModelNode assertions p node) as [[n |] | | |]; simpl;
      try discriminate.
    + intro H. now apply Hk in H.
    + intro H. injection H as <-. now split.
  - destruct (createLightNode assertions p node c) as [[[n |] c1] | | |]; simpl;
      try discriminate.
    + intro H. now apply Hk in H.
    + intro H. now injection H as <-.
  - simpl. intro H. now injection H as <-.
Qed.

(** The visit of a node gives no node in exactly these cases: a view; a model
    node for which [createModelNode] gives none; a light node whose light is
    missing, which leaves the ambient colour as it is; a light node whose light
    is ambient, which adds the light to the ambient colour.  Unknown nodes and
    groups always give a node. *)
Theorem createNode_without_node (fuel : nat) (p : @PDF3DSceneProcessor float)
  (node : PDF3D_U3D_Node) (c c' : QColor) :
  createNode assertions (S fuel) p node c = Done (None, c') <->
  match getType node with
  | NodeType.Unknown | NodeType.Group => False
  | NodeType.Model => createModelNode assertions p node = Done None /\ c' = c
  | NodeType.Light =>
      match getLight (m_sceneData p) (getResourceName node) with
      | None => c' = c
      | Some light => light_getType light = LightType.Ambient /\ c' = addAmbient c light
      end
  | NodeType.View => c' = c
  end.
Proof.
  split.
  - intro H. apply createNode_none_inv in H.
    destruct (getType node) eqn:Ht; try exact H.
    unfold createLightNode, Q_ASSERT in H. rewrite Ht in H.
    cbn [NodeType.eqb negb] in H. rewrite andb_false_r in H. cbn [bind] in H.
    destruct (getLight (m_sceneData p) (getResourceName node)) as [light |].
    + destruct (light_getType light);
        try destruct (light_getAttenuation light) as [[a0 a1] a2];
        try discriminate H.
      injection H as <-. now split.
    + now injection H as <-.
  - simpl. destruct (getType node) eqn:Ht; try contradiction.
    + intros [-> ->]. reflexivity.
    + unfold createLightNode, Q_ASSERT. rewrite Ht. cbn [NodeType.eqb negb].
      rewrite andb_false_r. cbn [bind].
      destruct (getLight (m_sceneData p) (getResourceName node)) as [light |].
      * intros [-> ->]. reflexivity.
      * intros ->. reflexivity.
    + intros ->. reflexivity.
Qed.

End StructureProperties.

Section SafetyProperties.

Context {float : Type} {FO : FloatOps float}.
Variable assertions : bool.

Lemma createLightNode_alphaF (p : @PDF3DSceneProcessor float) (node : PDF3D_U3D_Node)
  (c c' : QColor) (r : option QNode) :
  createLightNode assertions p node c = Done (r, c') -> alphaF c' = alphaF c.
Proof.
  unfold createLightNode.
  destruct (Q_ASSERT assertions _); simpl; try discriminate.
  destruct (getLight _ _) as [light |].
  - destruct (light_getType light);
      try destruct (light_getAttenuation light) as [[a0 a1] a2];
      intro H; injection H as _ <-; reflexivity.
  - intro H. now injection H as _ <-.
Qed.

Lemma attachChildren_alphaF
  (visit : @PDF3D_U3D_Node float -> QColor -> outcome (option QNode * QColor))
  (p : @PDF3DSceneProcessor float) (node : PDF3D_U3D_Node) :
  (forall n c r c', visit n c = Done (r, c') -> alphaF c' = alphaF c) ->
  forall childNodeNames processedNode c processedNode' c',
    attachChildren visit p node childNodeNames processedNode c = Done (processedNode', c') ->
    alphaF c' = alphaF c.
Proof.
  intro Hv. induction childNodeNames as [| name rest IH]; intros pn c pn' c' H; simpl in H.
  - now injection H as _ <-.
  - destruct (visit (getNode (m_sceneData p) name) c) as [[child c1] | | |] eqn:Ev;
      simpl in H; try discriminate H.
    apply Hv in Ev. rewrite <- Ev.
    destruct child as [child |]; eapply IH; exact H.
Qed.

Lemma createNode_alphaF (fuel : nat) :
  forall (p : @PDF3DSceneProcessor float) (node : PDF3D_U3D_Node) (c c' : QColor)
         (r : option QNode),
    createNode assertions fuel p node c = Done (r, c') -> alphaF c' = alphaF c.
Proof.
  induction fuel as [| fuel IH]; intros p node c c' r H; [discriminate H |].
  destruct r as [n |].
  - destruct (createNode_inv assertions fuel p node c c' n H)
      as [e [name [cs [ch [c1 [Hfirst Hattach]]]]]].
    apply (attachChildren_alphaF _ p node (fun n0 c0 r0 c0' => IH p n0 c0 c0' r0)) in Hattach.
    rewrite Hattach.
    destruct (getType node); try contradiction.
    + now destruct Hfirst as [_ ->].
    + now destruct Hfirst as [_ ->].
    + now destruct Hfirst as [_ ->].
    + now apply createLightNode_alphaF in Hfirst.
  - apply createNode_none_inv in H. destruct (getType node); try contradiction.
    + now destruct H as [_ ->].
    + now apply createLightNode_alphaF in H.
    + now subst.
Qed.

(** A build that returns leaves the mode, the auxiliary colour, the face
    colour, the opacity, the crease angle, the scene root and the point size as
    they were, stores the scene data, and keeps the alpha of the ambient
    colour: the ambient lights add to red, green and blue only. *)
Theorem createScene_members (fuel : nat) (p p' : @PDF3DSceneProcessor float)
  (sceneData : PDF3D_U3D) (scene : Scene) :
  createScene assertions fuel p sceneData = Done (scene, p') ->
  m_mode p' = m_mode p /\ m_auxiliaryColor p' = m_auxiliaryColor p /\
  m_faceColor p' = m_faceColor p /\ m_opacity p' = m_opacity p /\
  m_creaseAngle p' = m_creaseAngle p /\ m_sceneRoot p' = m_sceneRoot p /\
  m_pointSize p' = m_pointSize p /\
  m_sceneData p' = sceneData /\
  alphaF (m_globalAmbientColor p') = alphaF (m_globalAmbientColor p).
Proof.
  unfold createScene.
  destruct (createNode _ _ _ _ _) as [[root c] | | |] eqn:E; simpl; try discriminate.
  intro H. injection H as _ <-. apply createNode_alphaF in E.
  repeat split. exact E.
Qed.

(** *** Where a build can fail *)

Lemma bind_fails {A B : Type} (f : Failure) (m : outcome A) (k : A -> outcome B) :
  ~ fails f m -> (forall a, ~ fails f (k a)) -> ~ fails f (bind m k).
Proof. destruct f, m; simpl; auto. Qed.

Lemma mapM_fails {A B : Type} (f : Failure) (g : A -> outcome B) (l : list A) :
  (forall a, ~ fails f (g a)) -> ~ fails f (mapM g l).
Proof.
  intro Hg. induction l as [| a l IH]; simpl.
  - destruct f; simpl; auto.
  - apply bind_fails; [apply Hg |]. intro b.
    apply bind_fails; [exact IH |]. intro bs. destruct f; simpl; auto.
Qed.

Lemma Done_fails {A : Type} (f : Failure) (a : A) : ~ fails f (Done a).
Proof. destruct f; simpl; auto. Qed.

Lemma OutOfFuel_fails {A : Type} (f : Failure) : ~ fails f (@OutOfFuel A).
Proof. destruct f; simpl; auto. Qed.

Ltac fails_step :=
  match goal with
  | |- ~ fails _ (bind _ _) => apply bind_fails; [| intro]
  | |- ~ fails _ (mapM _ _) => apply mapM_fails; intro
  | |- ~ fails _ (Done _) => apply Done_fails
  | |- ~ fails _ OutOfFuel => apply OutOfFuel_fails
  | |- ~ fails AssertionFailure Undefined => let H := fresh in intro H; exact H
  | |- ~ fails UndefinedBehaviour AssertFailed => let H := fresh in intro H; exact H
  | |- ~ fails _ (if ?b then _ else _) => destruct b
  | |- ~ fails _ (match ?x with _ => _ end) => destruct x
  | |- ~ fails _ (let (_, _) := ?x in _) => destruct x
  end.

Lemma attachChildren_fails (f : Failure)
  (visit : @PDF3D_U3D_Node float -> QColor -> outcome (option QNode * QColor))
  (p : @PDF3DSceneProcessor float) (node : PDF3D_U3D_Node) :
  (forall n c, ~ fails f (visit n c)) ->
  forall childNodeNames processedNode c,
    ~ fails f (attachChildren visit p node childNodeNames processedNode c).
Proof.
  intro Hv. induction childNodeNames as [| name rest IH]; intros pn c; simpl.
  - destruct f; simpl; auto.
  - apply bind_fails; [apply Hv |]. intros [[child |] c1]; apply IH.
Qed.

(** A failure of the visit of a node, other than exhausted fuel, is a failure
    of [createModelNode]. *)
Lemma createNode_fails (f : Failure) (p : @PDF3DSceneProcessor float) :
  (forall node, ~ fails f (createModelNode assertions p node)) ->
  forall fuel node c, ~ fails f (createNode assertions fuel p node c).
Proof.
  intro Hm. induction fuel as [| fuel IH]; intros node c; simpl.
  - destruct f; simpl; auto.
  - apply bind_fails.
    + destruct (getType node) eqn:Ht.
      * destruct f; simpl; auto.
      * destruct (_ && _); destruct f; simpl; auto.
      * apply bind_fails; [apply Hm |]. intro r. destruct f; simpl; auto.
      * unfold createLightNode, Q_ASSERT. rewrite Ht. cbn [NodeType.eqb negb].
        rewrite andb_false_r. cbn [bind]. repeat fails_step.
      * destruct f; simpl; auto.
    + intros [[pn |] c1]; [| destruct f; simpl; auto].
      apply bind_fails; [apply attachChildren_fails; apply IH |].
      intros [pn' c2]. destruct f; simpl; auto.
Qed.

Lemma createScene_fails (f : Failure) (p : @PDF3DSceneProcessor float)
  (sceneData : PDF3D_U3D) (fuel : nat) :
  (forall node, ~ fails f (createModelNode assertions (beginScene p sceneData) node)) ->
  ~ fails f (createScene assertions fuel p sceneData).
Proof.
  intro Hm. unfold createScene. apply bind_fails.
  - now apply createNode_fails.
  - intros [root c]. destruct f; simpl; auto.
Qed.






(** In a bounding box mode every geometry is built, whatever it holds. *)
Lemma boundingBox_geometry_done (p : @PDF3DSceneProcessor float) :
  boundingBoxMode (m_mode p) = true ->
  (forall g, exists r, createMeshGeometry assertions p g = Done r) /\
  (forall g, exists r, createPointSetGeometry p g = Done r) /\
  (forall g, exists r, createLineSetGeometry p g = Done r).
Proof.
  intro H. repeat split; intro g;
    unfold createMeshGeometry, createPointSetGeometry, createLineSetGeometry,
      boundingBoxWire, boundingBoxTransparent, boundingBoxOutline.
  - destruct (mesh_isEmpty g); [now eexists |].
    destruct (mesh_getPositions g) as [| front rest]; [| rewrite getBoundingBox_cons];
      destruct (m_mode p); try discriminate H; eexists; reflexivity.
  - destruct (pointSet_isEmpty g); [now eexists |].
    destruct (pointSet_getPositions g) as [| front rest]; [| rewrite getBoundingBox_cons];
      destruct (m_mode p); try discriminate H; eexists; reflexivity.
  - destruct (lineSet_isEmpty g); [now eexists |].
    destruct (lineSet_getPositions g) as [| front rest]; [| rewrite getBoundingBox_cons];
      destruct (m_mode p); try discriminate H; eexists; reflexivity.
Qed.

Lemma createModelNode_boundingBox (f : Failure) (p : @PDF3DSceneProcessor float)
  (node : PDF3D_U3D_Node) :
  boundingBoxMode (m_mode p) = true ->
  ~ fails f (createModelNode assertions p node).
Proof.
  intro H. unfold createModelNode.
  destruct (boundingBox_geometry_done p H) as [Hmesh [Hpoints Hlines]].
  apply bind_fails; [| intro r; destruct r; apply Done_fails].
  destruct (getGeometry _ _) as [[g | g | g |] |]; try apply Done_fails.
  - destruct (Hmesh g) as [r ->]. apply Done_fails.
  - destruct (Hpoints g) as [r ->]. apply Done_fails.
  - destruct (Hlines g) as [r ->]. apply Done_fails.
Qed.

(** In the three bounding box modes the build of a scene whose child relation
    is well founded returns a scene: no assertion fails and no buffer is
    overrun. *)
Theorem createScene_boundingBox_succeeds (p : @PDF3DSceneProcessor float)
  (sceneData : PDF3D_U3D) (rank : string -> nat) (fuel : nat) :
  boundingBoxMode (m_mode p) = true ->
  ranked sceneData rank -> (rank (m_sceneRoot p) < fuel)%nat ->
  exists scene p', createScene assertions fuel p sceneData = Done (scene, p').
Proof.
  intros Hm Hr Hlt.
  pose proof (createScene_fails AssertionFailure p sceneData fuel
                (fun node => createModelNode_boundingBox AssertionFailure
                               (beginScene p sceneData) node Hm)) as Ha.
  pose proof (createScene_fails UndefinedBehaviour p sceneData fuel
                (fun node => createModelNode_boundingBox UndefinedBehaviour
                               (beginScene p sceneData) node Hm)) as Hu.
  assert (Ht : terminated (createScene assertions fuel p sceneData)).
  { unfold createScene. apply bind_terminated.
    - apply (createNode_terminates assertions (beginScene p sceneData) rank Hr). exact Hlt.
    - intros [root c]. discriminate. }
  destruct (createScene assertions fuel p sceneData) as [[scene p'] | | |].
  - now exists scene, p'.
  - now elim Ha.
  - now elim Hu.
  - now elim Ht.
Qed.

End SafetyProperties.

(** ** Missing resources *)

Section MissingResources.

Context {float : Type} {FO : FloatOps float}.
Variable assertions : bool.

(** A point set that is not empty, with at least one position and with the
    twelve bytes per position fitting an [int], gives a node in every one of
    the fifteen modes. *)
Theorem createPointSetGeometry_every_mode (p : @PDF3DSceneProcessor float)
  (pointSetGeometry : PDF3D_U3D_PointSetGeometry) :
  pointSet_isEmpty pointSetGeometry = false ->
  pointSet_getPositions pointSetGeometry <> [] ->
  12 * size (pointSet_getPositions pointSetGeometry) < 2 ^ 31 ->
  exists node, createPointSetGeometry p pointSetGeometry = Done (Some node).
Proof.
  intros He Hne Hb. unfold createPointSetGeometry. rewrite He.
  pose proof (createVertexGeometry_small p _ Hb) as Hv.
  pose proof (createPositionAttribute_small _ Hb) as Hp.
  pose proof (coloredPoints_small p _ (pointSetColor pointSetGeometry) Hb) as Hc.
  destruct (m_mode p);
    try (rewrite Hv; cbn [bind]; eexists; reflexivity);
    try (rewrite Hp; cbn [bind]; rewrite Hc; cbn [bind]; eexists; reflexivity);
    unfold boundingBoxWire, boundingBoxTransparent, boundingBoxOutline;
    (destruct (pointSet_getPositions pointSetGeometry) as [| front rest];
     [exfalso; apply Hne; reflexivity |]);
    rewrite getBoundingBox_cons; eexists; reflexivity.
Qed.






End MissingResources.

(** ** Names and the growth of the box *)

Section NameProperties.

Context {float : Type} {FO : FloatOps float}.
Variable assertions : bool.

Lemma renderEntity_anonymous (r : @QGeometryRenderer float) (m : QMaterial) :
  anonymous (renderEntity r m).
Proof. repeat constructor. Qed.

Lemma groupEntities_anonymous (entities : list (@QNode float)) :
  Forall anonymous entities -> anonymous (groupEntities entities).
Proof.
  intro H. unfold groupEntities.
  assert (Hg : anonymous (fold_left (fun entity currentEntity => setParent currentEntity entity)
                                    entities new_QEntity)).
  { unfold new_QEntity. rewrite fold_setParent. unfold anonymous. simpl.
    constructor; [reflexivity |].
    induction H as [| x l Hx Hl IH]; simpl; [constructor |].
    apply Forall_app. split; assumption. }
  destruct entities as [| x [| y l]]; try exact Hg.
  now inversion H.
Qed.

Ltac outcome_inv H :=
  repeat match type of H with
         | bind ?m _ = Done _ =>
             let E := fresh "E" in destruct m eqn:E; cbn [bind] in H; try discriminate H
         | (if ?b then _ else _) = Done _ => destruct b; try discriminate H
         | (match ?x with _ => _ end) = Done _ => destruct x; try discriminate H
         end.

Lemma createVertexGeometry_anonymous (p : @PDF3DSceneProcessor float) positions n :
  createVertexGeometry p positions = Done n -> anonymous n.
Proof.
  unfold createVertexGeometry. intro H. outcome_inv H.
  injection H as <-. apply renderEntity_anonymous.
Qed.

Lemma createBoundingBoxWireGeometry_anonymous (p : @PDF3DSceneProcessor float) b n :
  createBoundingBoxWireGeometry p b = Done n -> anonymous n.
Proof. intro H. injection H as <-. apply renderEntity_anonymous. Qed.

Lemma createBoundingBoxTransparentGeometry_anonymous (p : @PDF3DSceneProcessor float) b n :
  createBoundingBoxTransparentGeometry p b = Done n -> anonymous n.
Proof. intro H. injection H as <-. apply renderEntity_anonymous. Qed.

Lemma boundingBox_anonymous (p : @PDF3DSceneProcessor float) positions n :
  boundingBoxWire p positions = Done (Some n) \/
  boundingBoxTransparent p positions = Done (Some n) \/
  boundingBoxOutline p positions = Done (Some n) ->
  anonymous n.
Proof.
  unfold boundingBoxWire, boundingBoxTransparent, boundingBoxOutline.
  intros [H | [H | H]]; destruct (negb (isEmpty (getBoundingBox positions)));
    try discriminate H; cbn [bind] in H; injection H as <-; repeat constructor.
Qed.

Lemma coloredPoints_anonymous (p : @PDF3DSceneProcessor float) a colorOf n :
  coloredPoints p a colorOf = Done n -> anonymous n.
Proof.
  unfold coloredPoints. intro H. outcome_inv H.
  injection H as <-. apply renderEntity_anonymous.
Qed.

Lemma createMeshSolid_anonymous (p : @PDF3DSceneProcessor float) g n :
  createMeshSolid assertions p g = Done n -> anonymous n.
Proof.
  unfold createMeshSolid. intro H. outcome_inv H.
  injection H as <-. repeat constructor.
Qed.

Lemma createMeshWireframe_anonymous (p : @PDF3DSceneProcessor float) g n :
  createMeshWireframe p g = Done n -> anonymous n.
Proof.
  unfold createMeshWireframe. intro H. outcome_inv H.
  injection H as <-. apply renderEntity_anonymous.
Qed.

Lemma createLineSetWireframe_anonymous (p : @PDF3DSceneProcessor float) g n :
  createLineSetWireframe p g = Done n -> anonymous n.
Proof.
  unfold createLineSetWireframe. intro H. outcome_inv H.
  injection H as <-. apply renderEntity_anonymous.
Qed.

(** The step from an encoder of entities to the case of a geometry. *)
Lemma some_anonymous (o : outcome (@QNode float)) (n : QNode) :
  (forall e, o = Done e -> anonymous e) ->
  (entity <- o ;; Done (Some entity)) = Done (Some n) -> anonymous n.
Proof.
  intros Ho H. destruct o as [e | | |]; try discriminate H.
  injection H as <-. now apply Ho.
Qed.

Lemma createMeshGeometry_anonymous (p : @PDF3DSceneProcessor float) g n :
  createMeshGeometry assertions p g = Done (Some n) -> anonymous n.
Proof.
  unfold createMeshGeometry. destruct (mesh_isEmpty g); [discriminate |].
  destruct (m_mode p); intro H;
    try (apply (boundingBox_anonymous p (mesh_getPositions g)); now auto);
    try (destruct (Q_ASSERT assertions false); discriminate H);
    (eapply some_anonymous; [| exact H]); intro e.
  - apply createMeshSolid_anonymous.
  - apply createMeshWireframe_anonymous.
  - apply createVertexGeometry_anonymous.
Qed.

Lemma coloredPointsOf_anonymous (p : @PDF3DSceneProcessor float) positions colorOf n :
  (positionAttribute <- createPositionAttribute positions ;;
   entity <- coloredPoints p positionAttribute colorOf ;;
   Done (Some entity)) = Done (Some n) ->
  anonymous n.
Proof.
  intro H. destruct (createPositionAttribute positions) as [a | | |];
    try discriminate H; cbn [bind] in H.
  eapply some_anonymous; [| exact H]. intro e. apply coloredPoints_anonymous.
Qed.

Lemma createPointSetGeometry_anonymous (p : @PDF3DSceneProcessor float) g n :
  createPointSetGeometry p g = Done (Some n) -> anonymous n.
Proof.
  unfold createPointSetGeometry. destruct (pointSet_isEmpty g); [discriminate |].
  destruct (m_mode p); intro H;
    try (apply (boundingBox_anonymous p (pointSet_getPositions g)); now auto);
    try (now apply coloredPointsOf_anonymous in H);
    (eapply some_anonymous; [| exact H]); intro e; apply createVertexGeometry_anonymous.
Qed.

Lemma createLineSetSolid_anonymous (p : @PDF3DSceneProcessor float) g n :
  createLineSetSolid p g = Done n -> anonymous n.
Proof.
  unfold createLineSetSolid.
  destruct (mapM _ _) as [entities | | |] eqn:E; try discriminate.
  intro H. injection H as <-. apply groupEntities_anonymous.
  apply mapM_Forall2 in E.
  induction E as [| entry entity entries entities He _ IH]; constructor; [| exact IH].
  apply createLineSetEntity_inv in He.
  destruct He as [pa [ca [material [_ [_ [_ ->]]]]]]. apply renderEntity_anonymous.
Qed.

Lemma createLineSetGeometry_anonymous (p : @PDF3DSceneProcessor float) g n :
  createLineSetGeometry p g = Done (Some n) -> anonymous n.
Proof.
  unfold createLineSetGeometry. destruct (lineSet_isEmpty g); [discriminate |].
  destruct (m_mode p); intro H;
    try (apply (boundingBox_anonymous p (lineSet_getPositions g)); now auto);
    try (now apply coloredPointsOf_anonymous in H);
    (eapply some_anonymous; [| exact H]); intro e;
    first [ apply createLineSetSolid_anonymous
          | apply createLineSetWireframe_anonymous
          | apply createVertexGeometry_anonymous ].
Qed.

(** The nodes below the node of a model node have no name. *)
Lemma createModelNode_children_anonymous (p : @PDF3DSceneProcessor float)
  (node : PDF3D_U3D_Node) e name cs ch :
  createModelNode assertions p node = Done (Some (mkQNode e name cs ch)) ->
  Forall (fun name => name = EmptyString) (flat_map nodeNames ch).
Proof.
  unfold createModelNode. intro H.
  assert (Hg : forall g : @QNode float,
             anonymous g -> setObjectName g (getNodeName node) = mkQNode e name cs ch ->
             Forall (fun name => name = EmptyString) (flat_map nodeNames ch)).
  { intros [e' name' cs' ch'] Ha Heq. injection Heq as _ _ _ <-.
    unfold anonymous in Ha. simpl in Ha. now inversion Ha. }
  destruct (getGeometry (m_sceneData p) (getResourceName node)) as [[g | g | g |] |];
    cbn [bind] in H; try discriminate H.
  - destruct (createMeshGeometry assertions p g) as [[n |] | | |] eqn:E;
      cbn [bind] in H; try discriminate H.
    injection H as H. apply (Hg n); [| exact H]. now apply createMeshGeometry_anonymous in E.
  - destruct (createPointSetGeometry p g) as [[n |] | | |] eqn:E;
      cbn [bind] in H; try discriminate H.
    injection H as H. apply (Hg n); [| exact H].
    now apply createPointSetGeometry_anonymous in E.
  - destruct (createLineSetGeometry p g) as [[n |] | | |] eqn:E;
      cbn [bind] in H; try discriminate H.
    injection H as H. apply (Hg n); [| exact H].
    now apply createLineSetGeometry_anonymous in E.
Qed.

(** The children of the visit of a model node, of a group, of an unknown node
    and of a light before the loop over the children. *)
Lemma createNode_own_anonymous (fuel : nat) (p : @PDF3DSceneProcessor float)
  (node : PDF3D_U3D_Node) (c c' : QColor) (processedNode : QNode) :
  createNode assertions (S fuel) p node c = Done (Some processedNode, c') ->
  exists e cs own attached,
    processedNode = mkQNode e (getNodeName node) cs (own ++ attached) /\
    Forall anonymous own /\
    (getType node <> NodeType.Model -> own = []) /\
    attachedNodes (createNode assertions fuel p) p node (getChildren node) c
    = Done (attached, c').
Proof.
  intro H.
  destruct (createNode_inv assertions fuel p node c c' processedNode H)
    as [e [name [cs [ch [c1 [Hfirst Hattach]]]]]].
  assert (Hown : Forall anonymous ch /\ (getType node <> NodeType.Model -> ch = []) /\ c1 = c).
  { destruct (getType node); try contradiction.
    - destruct Hfirst as [Hf ->]. injection Hf as _ _ _ ->. repeat split; constructor.
    - destruct Hfirst as [Hf ->].
      destruct (hasChildTransform node && hasConstantChildTransform node);
        injection Hf as _ _ _ ->; repeat split; constructor.
    - destruct Hfirst as [Hf ->]. apply createModelNode_children_anonymous in Hf.
      split; [| split; [intro Hnm; now elim Hnm | reflexivity]].
      apply Forall_flat_map in Hf. exact Hf.
    - destruct (createLightNode_children assertions p node c c1 e name cs ch Hfirst)
        as [-> ->]. repeat split; constructor. }
  destruct Hown as [Hanon [Hown ->]].
  rewrite attachChildren_attachedNodes in Hattach.
  destruct (attachedNodes (createNode assertions fuel p) p node (getChildren node) c)
    as [[attached c2] | | |] eqn:Ea; cbn [bind fst snd] in Hattach; try discriminate Hattach.
  injection Hattach as <- <-.
  exists e, cs, ch, attached. repeat split; auto.
Qed.

Lemma attachedNodes_built
  (visit : @PDF3D_U3D_Node float -> QColor -> outcome (option QNode * QColor))
  (p : @PDF3DSceneProcessor float) (node : PDF3D_U3D_Node) :
  (forall n c child c1, visit n c = Done (Some child, c1) -> built (m_sceneData p) n child) ->
  forall childNodeNames c attached c',
    attachedNodes visit p node childNodeNames c = Done (attached, c') ->
    builtChildren (m_sceneData p) node childNodeNames attached.
Proof.
  intro Hv. induction childNodeNames as [| childNodeName rest IH];
    intros c attached c' H; simpl in H.
  - injection H as <- _. constructor.
  - destruct (visit (getNode (m_sceneData p) childNodeName) c) as [[[child |] c1] | | |] eqn:Ev;
      cbn [bind fst snd] in H; try discriminate H;
      destruct (attachedNodes visit p node rest c1) as [[attached' c2] | | |] eqn:Ea;
      cbn [bind fst snd] in H; try discriminate H; injection H as <- _.
    + apply builtChildren_some; [exact (Hv _ _ _ _ Ev) | exact (IH _ _ _ Ea)].
    + apply builtChildren_none. exact (IH _ _ _ Ea).
Qed.

(** The names in a built tree.  The tree built for a node has the shape of
    [built]: the root carries the name of the node; the nodes that a geometry
    puts below the node of a model node have no name; the other children are,
    in the order of the child names, the trees built for the nodes of the
    child names, each below an entity without a name when the node has child
    transforms that are not constant.  So every name in the tree is empty, the
    name of the node, or the name of a node of the scene data. *)
Theorem createNode_names (fuel : nat) :
  forall (p : @PDF3DSceneProcessor float) (node : PDF3D_U3D_Node) (c c' : QColor)
         (processedNode : QNode),
    createNode assertions fuel p node c = Done (Some processedNode, c') ->
    built (m_sceneData p) node processedNode /\
    Forall (namedAfter (m_sceneData p) node) (nodeNames processedNode).
Proof.
  induction fuel as [| fuel IH]; intros p node c c' processedNode H; [discriminate H |].
  split.
  - destruct (createNode_own_anonymous fuel p node c c' processedNode H)
      as [e [cs [own [attached [-> [Hanon [Hown Hattached]]]]]]].
    apply built_node; [exact Hanon | exact Hown |].
    apply (attachedNodes_built (createNode assertions fuel p) p node) with (c := c) (c' := c');
      [| exact Hattached].
    intros n c0 child c1 Hv. exact (proj1 (IH p n c0 c1 child Hv)).
  - destruct (createNode_inv assertions fuel p node c c' processedNode H)
      as [e [name [cs [ch [c1 [Hfirst Hattach]]]]]].
    destruct (attachChildren_inv _ p node _ _ _ _ _ _ _ _ Hattach)
      as [attached [Hpn [_ Hall]]].
    subst processedNode. cbn [nodeNames]. constructor; [right; now left |].
    rewrite flat_map_app. apply Forall_app. split.
    + assert (Hch : Forall (fun name => name = EmptyString) (flat_map nodeNames ch)).
      { destruct (getType node); try contradiction.
        - destruct Hfirst as [Hf _]. injection Hf as _ _ _ ->. constructor.
        - destruct Hfirst as [Hf _].
          destruct (hasChildTransform node && hasConstantChildTransform node);
            injection Hf as _ _ _ ->; constructor.
        - destruct Hfirst as [Hf _]. now apply createModelNode_children_anonymous in Hf.
        - destruct (createLightNode_children assertions p node c c1 e name cs ch Hfirst)
            as [-> _]. constructor. }
      eapply Forall_impl; [| exact Hch]. intros a Ha. now left.
    + clear H Hattach. induction Hall as [| a attached Ha _ IHa]; simpl; [constructor |].
      apply Forall_app. split; [| exact IHa].
      destruct Ha as [childNodeName [childNode [c0 [c2 [_ [Hv ->]]]]]].
      apply IH in Hv. destruct Hv as [_ Hv].
      assert (Hchild : Forall (namedAfter (m_sceneData p) node) (nodeNames childNode)).
      { eapply Forall_impl; [| exact Hv]. intros a [Ha | [Ha | Ha]].
        - now left.
        - right. right. now exists childNodeName.
        - right. now right. }
      unfold attachedChild.
      destruct (hasChildTransform node && negb (hasConstantChildTransform node)).
      * cbn [nodeNames flat_map]. constructor; [now left |]. now rewrite app_nil_r.
      * exact Hchild.
Qed.

End NameProperties.

Section IEEEBoxProperties.

(** The folds over values that are all one of two values [lo <= hi]. *)
Lemma fold_corner_values (lo hi : PrimFloat.float) (xs : list PrimFloat.float) :
  notNaN lo -> notNaN hi -> (hi <? lo)%float = false ->
  (forall x, In x xs -> x = lo \/ x = hi) -> In lo xs -> In hi xs ->
  (fold_left qMin xs lo =? lo)%float = true /\ (fold_left qMax xs lo =? hi)%float = true.
Proof.
  intros Nlo Nhi Hle Hxs Hinlo Hinhi.
  assert (HS : ordered_on [lo; hi])
    by (apply notNaN_ordered_on; intros x [<- | [<- | []]]; assumption).
  destruct (fold_two_values [lo; hi] HS lo hi xs) as [[H1 H2] [H3 H4]];
    simpl; auto.
  assert (Nmin : notNaN (fold_left qMin xs lo)).
  { destruct (fold_qMin_In xs lo) as [<- | E]; [exact Nlo |].
    destruct (Hxs _ E) as [-> | ->]; assumption. }
  assert (Nmax : notNaN (fold_left qMax xs lo)).
  { destruct (fold_qMax_In xs lo) as [<- | E]; [exact Nlo |].
    destruct (Hxs _ E) as [-> | ->]; assumption. }
  split; apply ltb_eqb; assumption.
Qed.

(** On every coordinate without NaN, the eight corners drawn for the bounding
    box of the points have a bounding box with [==] corners. *)
Theorem getBoundingBox_of_corners (P : list (@QVector3D PrimFloat.float)) :
  P <> [] ->
  let b := getBoundingBox P in
  let b' := getBoundingBox (boundingBoxPositions b) in
  isEmpty b' = false /\
  forall axis, In axis axes -> noNaN axis P ->
    (axis (getMin b') =? axis (getMin b))%float = true /\
    (axis (getMax b') =? axis (getMax b))%float = true.
Proof.
  intros Hne b b'. destruct P as [| front rest]; [now elim Hne |].
  subst b b'. rewrite getBoundingBox_cons. unfold boundingBoxPositions.
  cbn [getMin getMax vx vy vz]. rewrite getBoundingBox_cons.
  cbn [isEmpty getMin getMax]. split; [reflexivity |].
  intros axis Hax Hnan.
  destruct (axis_extrema axis front rest Hnan) as [_ [[Nlo Nhi] [_ Hlohi]]].
  destruct Hax as [<- | [<- | [<- | []]]]; cbn [vx vy vz map];
    apply fold_corner_values; auto; simpl; intuition.
Qed.

(** The box grows with the points: on every coordinate without NaN, the
    bounding box of a non-empty list lies in the bounding box of the list with
    more points appended. *)
Theorem getBoundingBox_app (P Q : list (@QVector3D PrimFloat.float)) :
  P <> [] ->
  forall axis, In axis axes -> noNaN axis (P ++ Q) ->
    (axis (getMin (getBoundingBox (P ++ Q))) <=? axis (getMin (getBoundingBox P)))%float
    = true /\
    (axis (getMax (getBoundingBox P)) <=? axis (getMax (getBoundingBox (P ++ Q))))%float
    = true.
Proof.
  intros Hne axis Hax Hnan.
  destruct P as [| front rest]; [exfalso; apply Hne; reflexivity |].
  cbn [app] in *.
  destruct (axes_getBoundingBox axis front rest Hax) as [Emin Emax].
  destruct (axes_getBoundingBox axis front (rest ++ Q) Hax) as [Emin' Emax'].
  rewrite Emin, Emax, Emin', Emax'.
  assert (HnanP : noNaN axis (front :: rest)).
  { intros q Hq. apply Hnan. change (In q ((front :: rest) ++ Q)).
    apply in_or_app. now left. }
  destruct (axis_extrema axis front rest HnanP) as [[Hlo Hhi] [[Nlo Nhi] _]].
  destruct (axis_extrema axis front (rest ++ Q) Hnan) as [_ [[Nlo' Nhi'] [Hb' _]]].
  apply in_map_iff in Hlo, Hhi.
  destruct Hlo as [q1 [E1 Hq1]], Hhi as [q2 [E2 Hq2]].
  assert (Hq1' : In q1 (front :: rest ++ Q))
    by (change (In q1 ((front :: rest) ++ Q)); apply in_or_app; now left).
  assert (Hq2' : In q2 (front :: rest ++ Q))
    by (change (In q2 ((front :: rest) ++ Q)); apply in_or_app; now left).
  destruct (Hb' q1 Hq1') as [A1 _]. destruct (Hb' q2 Hq2') as [_ A2].
  rewrite E1 in A1. rewrite E2 in A2.
  split; apply ltb_leb; assumption.
Qed.

End IEEEBoxProperties.

(** ** The properties on the example data *)

Open Scope string_scope.

(** The model node "M" of [ex_dropData] has a missing resource: it builds to
    nothing with one unit of fuel. *)
Lemma createNode_model_without_geometry_witness :
  createNode true 1 (ex_processorIEEE SceneMode.Solid ex_dropData)
             (getNode ex_dropData "M") ex_black = Done (None, ex_black).
Proof.
  apply (createNode_model_without_geometry true
           (ex_processorIEEE SceneMode.Solid ex_dropData) (getNode ex_dropData "M")).
  - reflexivity.
  - exact I.
Defined.

(** The child "C" of the dropped model node "M" builds to a node of its own,
    and yet the scene built from the root "R" holds no node named "C". *)
Lemma model_children_dropped_counterexample :
  let p := ex_processorIEEE SceneMode.Solid ex_dropData in
  getType (getNode ex_dropData "M") = NodeType.Model /\
  noRenderableGeometry p (getNode ex_dropData "M") /\
  getChildren (getNode ex_dropData "M") = ["C"] /\
  createNode true 1 p (getNode ex_dropData "C") ex_black
  = Done (Some (mkQNode false "C" [] []), ex_black) /\
  (r <- createScene true 3 p ex_dropData ;; Done (sceneRoot (fst r)))
  = Done (Some (mkQNode false "R" [] [])) /\
  ~ In "C" (nodeNames (@mkQNode PrimFloat.float false "R" [] [])).
Proof.
  repeat split; try exact I.
  simpl. intros [H | []]. discriminate H.
Qed.

(** The visit of a group that is its own child exhausts every fuel. *)
Lemma createNode_self_child (assertions : bool) (fuel : nat) :
  forall (p : @PDF3DSceneProcessor PrimFloat.float) (c : QColor),
    m_sceneData p = ex_cyclicData ->
    createNode assertions fuel p (getNode ex_cyclicData "R") c = OutOfFuel.
Proof.
  induction fuel as [| fuel IH]; intros p c Hd; [reflexivity |].
  simpl. rewrite Hd. simpl.
  change (ex_node NodeType.Group "R" ["R"] "") with (getNode ex_cyclicData "R").
  now rewrite (IH p _ Hd).
Qed.

(** C2.  On [ex_cyclicData], whose group "R" names itself as its child, the
    build returns for no fuel, in a build with assertions and in one without:
    the visit recurses on the child name without end.  The processed node names
    were cleared when the build started; the visit does not look at them. *)
Theorem createScene_cycle :
  (forall assertions fuel,
     createScene assertions fuel (ex_processorIEEE SceneMode.Solid ex_cyclicData) ex_cyclicData
     = OutOfFuel) /\
  getChildren (getNode ex_cyclicData "R") = ["R"] /\
  m_processedNodes (beginScene (ex_processorIEEE SceneMode.Solid ex_cyclicData) ex_cyclicData)
  = [].
Proof.
  split; [| split; reflexivity]. intros assertions fuel. unfold createScene.
  change (getNode ex_cyclicData
            (m_sceneRoot (beginScene (ex_processorIEEE SceneMode.Solid ex_cyclicData)
                                     ex_cyclicData)))
    with (getNode ex_cyclicData "R").
  now rewrite createNode_self_child.
Qed.

(** [ex_rank] decreases along the child relation of [ex_dropData]. *)
Lemma ex_dropData_ranked : ranked ex_dropData ex_rank.
Proof.
  intros name child. unfold ex_dropData, ex_data, ex_dropNodes, ex_rank. cbn [getNode].
  destruct (String.eqb_spec name "R") as [-> | HR].
  - intros [<- | []]. simpl. lia.
  - destruct (String.eqb_spec name "M") as [-> | HM].
    + intros [<- | []]. simpl. lia.
    + intros [].
Qed.

(** The build of [ex_dropData] with fuel 3 returns. *)
Lemma createScene_terminates_witness :
  (ex_rank "R" < 3)%nat /\
  terminated (createScene true 3 (ex_processorIEEE SceneMode.Solid ex_dropData) ex_dropData).
Proof.
  assert (H : (ex_rank "R" < 3)%nat) by (unfold ex_rank; simpl; lia).
  split; [exact H |].
  exact (proj1 (createScene_terminates true (ex_processorIEEE SceneMode.Solid ex_dropData)
                  ex_dropData ex_rank 3 ex_dropData_ranked H)).
Defined.

(** A view node with a child is skipped with one unit of fuel. *)
Lemma createNode_view_witness :
  createNode true 1 (ex_processorIEEE SceneMode.Solid ex_dropData) ex_viewNode ex_black
  = Done (None, ex_black).
Proof.
  exact (createNode_view true (ex_processorIEEE SceneMode.Solid ex_dropData) ex_viewNode
           0 ex_black eq_refl).
Defined.

(** The build of a scene whose root is an ambient light adds to the ambient
    colour of the processor, here one half in every component. *)
Lemma createScene_keeps_ambient_witness :
  (r <- createScene true 1 ex_processorExact ex_ambientData ;;
   Done (sceneRoot (fst r), m_globalAmbientColor (snd r)))
  = Done (None, ex_color (Q2Qc 2) (Q2Qc (7 # 2)) ex_half (Q2Qc 1)).
Proof.
  rewrite (createScene_keeps_ambient true ex_processorExact ex_ambientData ex_light1 0
             eq_refl eq_refl eq_refl).
  cbn [bind fst snd sceneRoot m_globalAmbientColor setGlobalAmbientColor].
  apply (f_equal (fun c => Done (@None (@QNode Qc), c))).
  unfold addAmbient, ex_color. cbn [redF greenF blueF alphaF].
  f_equal; apply Qc_is_canon; reflexivity.
Defined.

(** A spot light over exact arithmetic. *)
Lemma createLightNode_entity_witness :
  createLightNode true ex_spotProcessor (ex_lightNode "spot")
                  (m_globalAmbientColor ex_processorExact)
  = Done (Some (mkQNode true "" [ SpotLightComponent (light_getColor ex_spotLight) (Q2Qc 2)
                                    (Q2Qc 1) ex_half (Q2Qc 0) (Q2Qc 30) ] []),
          m_globalAmbientColor ex_processorExact).
Proof.
  assert (Hl : getLight (m_sceneData ex_spotProcessor)
                 (getResourceName (ex_lightNode "spot")) = Some ex_spotLight)
    by reflexivity.
  assert (Ha : light_getType ex_spotLight <> LightType.Ambient) by discriminate.
  exact (createLightNode_entity true ex_spotProcessor (ex_lightNode "spot") ex_spotLight
           (m_globalAmbientColor ex_processorExact) eq_refl Hl Ha).
Defined.

(** An instance of the injectivity of the mapping. *)
Lemma alphaFunctionOf_injective_witness :
  AlphaTestFunction.LEQUAL = AlphaTestFunction.LEQUAL.
Proof.
  exact (alphaFunctionOf_injective AlphaTestFunction.LEQUAL AlphaTestFunction.LEQUAL eq_refl).
Defined.

(** A mesh of two triangles in shaded illustration mode, assertions enabled. *)
Lemma createMeshGeometry_mode_not_covered_witness :
  createMeshGeometry true (ex_processorIEEE SceneMode.ShadedIllustration ex_shaderData)
                     ex_twoTriangles = AssertFailed.
Proof.
  exact (createMeshGeometry_mode_not_covered true
           (ex_processorIEEE SceneMode.ShadedIllustration ex_shaderData)
           ex_twoTriangles eq_refl).
Defined.

(** In shaded illustration mode a non-empty mesh gives no node without any
    error when assertions are compiled out, and an empty mesh gives no node even
    when they are compiled in. *)
Lemma createMeshGeometry_silent_counterexample :
  let p := ex_processorIEEE SceneMode.ShadedIllustration ex_shaderData in
  meshModeNotCovered (m_mode p) = true /\
  mesh_isEmpty ex_twoTriangles = false /\
  createMeshGeometry false p ex_twoTriangles = Done None /\
  mesh_isEmpty ex_emptyMesh = true /\
  createMeshGeometry true p ex_emptyMesh = Done None.
Proof. repeat split. Qed.

(** The solid encoding of a mesh of two triangles: six vertices, stride 48. *)
Lemma createMeshGeometry_solid_witness :
  144 * size (mesh_getTriangles ex_twoTriangles) < 2 ^ 31 /\
  exists entity,
    createMeshGeometry true (ex_processorIEEE SceneMode.Solid ex_shaderData) ex_twoTriangles
    = Done (Some entity) /\
    map byteOffset (rendererAttributes entity) = [0; 12; 24; 40] /\
    map byteStride (rendererAttributes entity) = [48; 48; 48; 48] /\
    map count (rendererAttributes entity) = [6; 6; 6; 6].
Proof.
  split; [reflexivity |].
  destruct (createMeshGeometry_solid true (ex_processorIEEE SceneMode.Solid ex_shaderData)
              ex_twoTriangles eq_refl eq_refl eq_refl)
    as (vb & pa & na & ca & ta & data & Hres & Hp & Hn & Hc & Ht & _).
  destruct (createMaterialFromShader (ex_processorIEEE SceneMode.Solid ex_shaderData)
              (mesh_getShaderName ex_twoTriangles 0) false) as [material | | |] eqn:Hm;
    try (vm_compute in Hm; discriminate Hm).
  exists (renderEntity {| geometry := [pa; na; ca; ta]; primitiveRestartEnabled := false;
                          primitiveType := PrimitiveType.Triangles |} material).
  split; [exact Hres |].
  destruct Hp as (_ & _ & _ & _ & Hp1 & Hp2 & Hp3 & _).
  destruct Hn as (_ & _ & _ & _ & Hn1 & Hn2 & Hn3 & _).
  destruct Hc as (_ & _ & _ & _ & Hc1 & Hc2 & Hc3 & _).
  destruct Ht as (_ & _ & _ & _ & Ht1 & Ht2 & Ht3 & _).
  cbn [rendererAttributes renderEntity addComponent new_QEntity components flat_map app
       geometry map].
  rewrite Hp1, Hp2, Hp3, Hn1, Hn2, Hn3, Hc1, Hc2, Hc3, Ht1, Ht2, Ht3. repeat split.
Defined.

(** The texture coordinate attribute starts at byte 40 of a vertex, after the
    four floats of the colour, and not at byte 36. *)
Lemma createMeshGeometry_solid_counterexample :
  let p := ex_processorIEEE SceneMode.Solid ex_shaderData in
  mesh_isEmpty ex_twoTriangles = false /\
  exists entity,
    createMeshGeometry true p ex_twoTriangles = Done (Some entity) /\
    map attribute_name (rendererAttributes entity)
    = [defaultPositionAttributeName; defaultNormalAttributeName;
       defaultColorAttributeName; defaultTextureCoordinateAttributeName] /\
    map vertexSize (rendererAttributes entity) = [3; 3; 4; 2] /\
    map byteOffset (rendererAttributes entity) = [0; 12; 24; 40].
Proof.
  split; [reflexivity |]. eexists. split; [vm_compute; reflexivity |]. repeat split.
Qed.

(** The three kinds of material on the shaders of [ex_shaderData]. *)
Lemma createMaterialFromShader_cases_witness :
  createMaterialFromShader (ex_processorIEEE SceneMode.Solid ex_shaderData) "shader" false
  = Done {| material_kind := QDiffuseSpecular
              {| ambient := ex_red; diffuse := ColorValue ex_green; specular := ex_black;
                 alphaBlendingEnabled := true |};
            renderStates := [QAlphaTest_state QAlphaTest.Greater 0.5%float] |} /\
  createMaterialFromShader (ex_processorIEEE SceneMode.Solid ex_shaderData) "shader" true
  = Done {| material_kind := QPerVertexColorMaterial;
            renderStates := [QAlphaTest_state QAlphaTest.Greater 0.5%float] |} /\
  createMaterialFromShader (ex_processorIEEE SceneMode.Solid ex_shaderData) "other" false
  = Done {| material_kind := QDiffuseSpecular
              {| ambient := Qt_transparent;
                 diffuse := TextureValue
                              {| texture_size := (2, 1);
                                 textureImages :=
                                   [ {| m_image := ex_image; textureImage_size := (2, 1) |} ] |};
                 specular := Qt_transparent;
                 alphaBlendingEnabled := false |};
            renderStates := [] |}.
Proof.
  split; [| split].
  - refine (proj1 (proj2 (createMaterialFromShader_cases
                            (ex_processorIEEE SceneMode.Solid ex_shaderData) "shader" false
                            _ eq_refl)) eq_refl eq_refl _ eq_refl).
  - refine (proj1 (createMaterialFromShader_cases
                     (ex_processorIEEE SceneMode.Solid ex_shaderData) "shader" true
                     _ eq_refl) eq_refl eq_refl).
  - refine (proj2 (proj2 (createMaterialFromShader_cases
                            (ex_processorIEEE SceneMode.Solid ex_shaderData) "other" false
                            _ eq_refl)) _ _ eq_refl).
Defined.

(** Three lines with shading ids 7, 3 and 7 give two entities under one parent. *)
Lemma createLineSetGeometry_colored_lines_witness :
  24 * size (lineSet_getLines ex_lines) < 2 ^ 31 /\
  exists entity3 entity7,
    mapM (createLineSetEntity (ex_processorIEEE SceneMode.Solid ex_shaderData) ex_lines)
         (shadingIdToLines (lineSet_getLines ex_lines)) = Done [entity3; entity7] /\
    map fst (shadingIdToLines (lineSet_getLines ex_lines)) = [3; 7] /\
    createLineSetGeometry (ex_processorIEEE SceneMode.Solid ex_shaderData) ex_lines
    = Done (Some (mkQNode true "" [] [entity3; entity7])).
Proof.
  split; [reflexivity |].
  destruct (createLineSetGeometry_colored_lines
              (ex_processorIEEE SceneMode.Solid ex_shaderData) ex_lines
              eq_refl eq_refl eq_refl)
    as (entities & Hmap & _ & _ & _ & _ & Hlen & _ & Hmany).
  - intros l [<- | [<- | [<- | []]]]; eexists; reflexivity.
  - destruct entities as [| entity3 [| entity7 [| ? ?]]]; try discriminate Hlen.
    exists entity3, entity7. split; [exact Hmap |]. split; [reflexivity |].
    apply Hmany. discriminate.
Defined.

(** C6.  A line set of 89478486 lines of one shading id whose shader resolves,
    in solid mode, gives no line-list unit: the position attribute of the
    entry has 178956972 positions of twelve bytes, 2147483664 bytes in all,
    which [resize] takes as a negative [int]; the array stays empty and the
    stores of the loop of [createGenericAttribute] are past its end. *)
Theorem createLineSetGeometry_colored_lines_overrun :
  let p := ex_processorIEEE SceneMode.Solid ex_shaderData in
  lineSet_isEmpty ex_hugeLines = false /\
  solidFamily (m_mode p) = true /\
  size (lineSet_getLines ex_hugeLines) = 89478486 /\
  createMaterialFromShader p (lineSet_getShaderName ex_hugeLines 7) true
  = Done {| material_kind := QPerVertexColorMaterial; renderStates := [] |} /\
  to_int (24 * 89478486) = -2147483632 /\
  QByteArray_resize (24 * 89478486) = 0 /\
  createLineSetGeometry p ex_hugeLines = Undefined.
Proof.
  assert (Hsize : size (repeat (@ex_line 0 1 7) (S (Z.to_nat 89478485))) = 89478486).
  { unfold size. rewrite repeat_length, Nat2Z.inj_succ, Z2Nat.id by discriminate.
    reflexivity. }
  split; [reflexivity |]. split; [reflexivity |]. split; [exact Hsize |].
  split; [reflexivity |]. split; [reflexivity |]. split; [reflexivity |].
  unfold createLineSetGeometry.
  change (lineSet_isEmpty ex_hugeLines) with false.
  change (m_mode (ex_processorIEEE SceneMode.Solid ex_shaderData)) with SceneMode.Solid.
  cbv beta iota. unfold createLineSetSolid.
  change (lineSet_getLines ex_hugeLines)
    with (repeat (@ex_line 0 1 7) (S (Z.to_nat 89478485))).
  rewrite shadingIdToLines_repeat. cbn [mapM].
  unfold createLineSetEntity at 1. cbn [fst snd].
  unfold createPositionAttribute.
  assert (Hover : createGenericAttribute
                    (linePositions ex_hugeLines
                       (repeat (@ex_line 0 1 7) (S (Z.to_nat 89478485)))) = Undefined).
  { apply createGenericAttribute_overrun; rewrite size_linePositions, Hsize; [reflexivity |].
    discriminate. }
  rewrite Hover. reflexivity.
Qed.

(** The box of three ordinary points; on the first coordinate min is below max
    and the reversed list gives the same min. *)
Lemma getBoundingBox_extrema_witness :
  getBoundingBox ex_positions
  = PDF3DBoundingBox_corners {| vx := 0%float; vy := (-1)%float; vz := 1%float |}
                             {| vx := 3%float; vy := 1%float; vz := 5%float |} /\
  (vx (getMin (getBoundingBox ex_positions)) <=? vx (getMax (getBoundingBox ex_positions)))%float
  = true /\
  (vx (getMin (getBoundingBox ex_positions))
   =? vx (getMin (getBoundingBox (rev ex_positions))))%float = true.
Proof.
  split; [reflexivity |].
  assert (Hax : In (@vx PrimFloat.float) axes) by (left; reflexivity).
  assert (Hnan : noNaN vx ex_positions)
    by (intros q [<- | [<- | [<- | []]]]; reflexivity).
  assert (Hne : ex_positions <> []) by discriminate.
  destruct (proj2 (proj2 (getBoundingBox_extrema ex_positions)) vx Hax Hnan Hne)
    as (_ & _ & _ & Hle & Hperm).
  split; [exact Hle |].
  exact (proj1 (Hperm (rev ex_positions) (Permutation_rev ex_positions))).
Defined.

(** Two lists with the same first point and the same other points in two
    orders, one first coordinate being NaN: the min corners differ, the first
    holds the NaN, and the second lies above the point (0, 0, 0) of the
    list. *)
Lemma getBoundingBox_nan_counterexample :
  hd_error ex_nanPoints1 = hd_error ex_nanPoints2 /\
  Permutation (tl ex_nanPoints1) (tl ex_nanPoints2) /\
  getBoundingBox ex_nanPoints1
  = PDF3DBoundingBox_corners {| vx := nan; vy := 0%float; vz := 0%float |}
                             {| vx := 1%float; vy := 0%float; vz := 0%float |} /\
  getBoundingBox ex_nanPoints2
  = PDF3DBoundingBox_corners {| vx := 1%float; vy := 0%float; vz := 0%float |}
                             {| vx := 1%float; vy := 0%float; vz := 0%float |} /\
  In {| vx := 0%float; vy := 0%float; vz := 0%float |} ex_nanPoints2 /\
  (vx (getMin (getBoundingBox ex_nanPoints2)) <=? 0)%float = false /\
  (vx (getMin (getBoundingBox ex_nanPoints1))
   =? vx (getMin (getBoundingBox ex_nanPoints2)))%float = false.
Proof.
  split; [reflexivity |]. split; [apply perm_swap |]. split; [reflexivity |].
  split; [reflexivity |]. split; [now left |]. split; reflexivity.
Qed.

(** The wireframe encoding of a mesh of two triangles: twelve indices. *)
Lemma createMeshGeometry_wireframe_witness :
  24 * size (mesh_getTriangles ex_twoTriangles) < 2 ^ 31 /\
  exists entity,
    createMeshGeometry true (ex_processorIEEE SceneMode.Wireframe ex_shaderData) ex_twoTriangles
    = Done (Some entity) /\
    map count (rendererAttributes entity) = [3; 12].
Proof.
  split; [reflexivity |].
  destruct (createMeshGeometry_wireframe true
              (ex_processorIEEE SceneMode.Wireframe ex_shaderData)
              ex_twoTriangles eq_refl eq_refl eq_refl)
    as (ib & data & Hres & _ & _ & Hcount & _).
  destruct (createPositionAttribute (mesh_getPositions ex_twoTriangles))
    as [positionAttribute | | |] eqn:Hp; try (vm_compute in Hp; discriminate Hp).
  exists (renderEntity {| geometry := [positionAttribute;
                                       indexAttribute ib
                                         (6 * size (mesh_getTriangles ex_twoTriangles))];
                          primitiveRestartEnabled := false;
                          primitiveType := PrimitiveType.Lines |}
                       (auxiliaryMaterial (ex_processorIEEE SceneMode.Wireframe ex_shaderData))).
  split; [exact Hres |].
  cbn [rendererAttributes renderEntity addComponent new_QEntity components flat_map app
       geometry map].
  rewrite Hcount. vm_compute in Hp. injection Hp as <-. reflexivity.
Defined.

(** C8.  A mesh of 89478486 triangles in wireframe mode gives no index buffer
    of 536870916 indices: they take 2147483664 bytes, which [resize] takes as
    a negative [int]; the index array stays empty and the stores of the loop
    are past its end, in a build with assertions and in one without. *)
Theorem createMeshGeometry_wireframe_overrun :
  let p := ex_processorIEEE SceneMode.Wireframe ex_shaderData in
  mesh_isEmpty ex_hugeWireMesh = false /\
  size (mesh_getTriangles ex_hugeWireMesh) = 89478486 /\
  (exists positionAttribute,
     createPositionAttribute (mesh_getPositions ex_hugeWireMesh) = Done positionAttribute) /\
  to_int (6 * 89478486 * 4) = -2147483632 /\
  QByteArray_resize (6 * 89478486 * 4) = 0 /\
  createMeshGeometry true p ex_hugeWireMesh = Undefined /\
  createMeshGeometry false p ex_hugeWireMesh = Undefined.
Proof.
  assert (Hsize : size (mesh_getTriangles ex_hugeWireMesh) = 89478486).
  { change (mesh_getTriangles ex_hugeWireMesh)
      with (repeat (@ex_triangle) (Z.to_nat 89478486)).
    unfold size. rewrite repeat_length. apply Z2Nat.id. discriminate. }
  destruct (createGenericAttribute_defined ex_positions eq_refl) as [a Ha].
  assert (Hpos : createPositionAttribute (mesh_getPositions ex_hugeWireMesh)
                 = Done (setName a defaultPositionAttributeName)).
  { change (mesh_getPositions ex_hugeWireMesh) with ex_positions.
    unfold createPositionAttribute. now rewrite Ha. }
  assert (Hbound : 2 ^ 31 <= 24 * size (mesh_getTriangles ex_hugeWireMesh))
    by (rewrite Hsize; discriminate).
  pose proof (createMeshWireframe_overrun
                (ex_processorIEEE SceneMode.Wireframe ex_shaderData) ex_hugeWireMesh
                (setName a defaultPositionAttributeName) Hpos Hbound) as Hover.
  split; [reflexivity |]. split; [exact Hsize |].
  split; [now exists (setName a defaultPositionAttributeName) |].
  split; [reflexivity |]. split; [reflexivity |].
  unfold createMeshGeometry.
  change (mesh_isEmpty ex_hugeWireMesh) with false.
  change (m_mode (ex_processorIEEE SceneMode.Wireframe ex_shaderData)) with SceneMode.Wireframe.
  cbv beta iota. rewrite Hover. split; reflexivity.
Qed.



(** *** The further properties on the example data *)

(** The position attribute of three points: 36 bytes, count 3. *)
Lemma createGenericAttribute_packed_witness :
  createPositionAttribute ex_positions
  = Done (packedAttribute defaultPositionAttributeName ex_positions) /\
  buffer_size (attribute_buffer (packedAttribute defaultPositionAttributeName ex_positions))
  = 36.
Proof.
  split; [| reflexivity].
  assert (H : 12 * size ex_positions < 2 ^ 31) by (vm_compute; reflexivity).
  exact (proj1 (proj1 (proj2 (createGenericAttribute_packed ex_positions)) H)).
Defined.

(** A mesh in vertices mode. *)
Lemma createVertexGeometry_every_kind_witness :
  createMeshGeometry true (ex_processorIEEE SceneMode.Vertices ex_shaderData) ex_twoTriangles
  = Done (Some (vertexEntity (ex_processorIEEE SceneMode.Vertices ex_shaderData) ex_positions)).
Proof.
  assert (H : 12 * size ex_positions < 2 ^ 31) by (vm_compute; reflexivity).
  exact (proj1 (proj2 (createVertexGeometry_every_kind true
                         (ex_processorIEEE SceneMode.Vertices ex_shaderData) ex_positions H))
           ex_twoTriangles eq_refl eq_refl eq_refl).
Defined.

(** The line set in outline mode: a node over the wire box and the
    transparent box. *)
Lemma boundingBox_modes_every_kind_witness :
  exists wire transparent,
    createBoundingBoxWireGeometry
      (ex_processorIEEE SceneMode.TransparentBoundingBoxOutline ex_shaderData)
      (getBoundingBox ex_positions) = Done wire /\
    createBoundingBoxTransparentGeometry
      (ex_processorIEEE SceneMode.TransparentBoundingBoxOutline ex_shaderData)
      (getBoundingBox ex_positions) = Done transparent /\
    createLineSetGeometry
      (ex_processorIEEE SceneMode.TransparentBoundingBoxOutline ex_shaderData) ex_lines
    = Done (Some (mkQNode false "" [] [wire; transparent])).
Proof.
  destruct (boundingBox_modes_every_kind true
              (ex_processorIEEE SceneMode.TransparentBoundingBoxOutline ex_shaderData)
              ex_positions eq_refl) as [wire [transparent [Hw [Ht [_ [_ Hl]]]]]].
  exists wire, transparent. split; [exact Hw |]. split; [exact Ht |].
  exact (Hl ex_lines eq_refl eq_refl).
Defined.

(** The point set in solid mode: red, black for the unreferenced second
    position, green. *)
Lemma createPointSetGeometry_colored_witness :
  createPointSetGeometry (ex_processorIEEE SceneMode.Solid ex_shaderData) ex_pointSet
  = Done (Some (coloredPointsEntity (ex_processorIEEE SceneMode.Solid ex_shaderData)
                  ex_positions
                  [ {| vx := 1%float; vy := 0%float; vz := 0%float |};
                    {| vx := 0%float; vy := 0%float; vz := 0%float |};
                    {| vx := 0%float; vy := 1%float; vz := 0%float |} ])).
Proof.
  assert (H : 12 * size (pointSet_getPositions ex_pointSet) < 2 ^ 31)
    by (vm_compute; reflexivity).
  exact (proj1 (createPointSetGeometry_colored
                  (ex_processorIEEE SceneMode.Solid ex_shaderData) ex_pointSet
                  eq_refl eq_refl H)).
Defined.

(** The point set is drawn in hidden wireframe mode. *)
Lemma createPointSetGeometry_every_mode_witness :
  exists node,
    createPointSetGeometry (ex_processorIEEE SceneMode.HiddenWireframe ex_shaderData)
                           ex_pointSet = Done (Some node).
Proof.
  assert (H : 12 * size (pointSet_getPositions ex_pointSet) < 2 ^ 31)
    by (vm_compute; reflexivity).
  assert (Hne : pointSet_getPositions ex_pointSet <> []) by discriminate.
  exact (createPointSetGeometry_every_mode
           (ex_processorIEEE SceneMode.HiddenWireframe ex_shaderData) ex_pointSet
           eq_refl Hne H).
Defined.

(** The three lines of [ex_lines] in illustration mode: six indices. *)
Lemma createLineSetGeometry_indexed_lines_witness :
  createLineSetGeometry (ex_processorIEEE SceneMode.Illustration ex_shaderData) ex_lines
  = Done (Some (indexedLinesEntity (ex_processorIEEE SceneMode.Illustration ex_shaderData)
                  ex_positions [0; 1; 1; 2; 2; 0])).
Proof.
  assert (H : 12 * size (lineSet_getPositions ex_lines) < 2 ^ 31)
    by (vm_compute; reflexivity).
  assert (Hl : size (lineSet_getLines ex_lines) < 2 ^ 32) by (vm_compute; reflexivity).
  assert (H2 : size (lineSet_getLines ex_lines) < 2 ^ 28) by (vm_compute; reflexivity).
  exact (proj1 (proj1 (createLineSetGeometry_indexed_lines
                         (ex_processorIEEE SceneMode.Illustration ex_shaderData) ex_lines
                         eq_refl eq_refl H Hl) H2)).
Defined.

(** The line set in shaded vertices mode: position 0 is the first end of the
    first line that touches it and is red, positions 1 and 2 are second ends
    and are green. *)
Lemma createLineSetGeometry_shaded_vertices_witness :
  createLineSetGeometry (ex_processorIEEE SceneMode.ShadedVertices ex_shaderData)
                        ex_coloredLines
  = Done (Some (coloredPointsEntity
                  (ex_processorIEEE SceneMode.ShadedVertices ex_shaderData) ex_positions
                  [ {| vx := 1%float; vy := 0%float; vz := 0%float |};
                    {| vx := 0%float; vy := 1%float; vz := 0%float |};
                    {| vx := 0%float; vy := 1%float; vz := 0%float |} ])).
Proof.
  assert (H : 12 * size (lineSet_getPositions ex_coloredLines) < 2 ^ 31)
    by (vm_compute; reflexivity).
  exact (proj1 (createLineSetGeometry_shaded_vertices
                  (ex_processorIEEE SceneMode.ShadedVertices ex_shaderData) ex_coloredLines
                  eq_refl eq_refl H)).
Defined.


(** The root of [ex_dropData] keeps its name. *)
Lemma createNode_objectName_witness :
  createNode true 3 (ex_processorIEEE SceneMode.Solid ex_dropData)
             (getNode ex_dropData "R") ex_black
  = Done (Some (mkQNode false "R" [] []), ex_black) /\
  objectName (@mkQNode PrimFloat.float false "R" [] []) = "R".
Proof.
  assert (H : createNode true 3 (ex_processorIEEE SceneMode.Solid ex_dropData)
                         (getNode ex_dropData "R") ex_black
              = Done (Some (mkQNode false "R" [] []), ex_black)) by reflexivity.
  split; [exact H |].
  exact (proj1 (createNode_objectName true 3 (ex_processorIEEE SceneMode.Solid ex_dropData)
                  (getNode ex_dropData "R") ex_black ex_black _ H)).
Defined.

(** The group "G": the view "V" is skipped, "A" and "B" are wrapped. *)
Lemma createNode_children_witness :
  let p := ex_processorIEEE SceneMode.Solid ex_groupData in
  createNode true 2 p ex_groupNode ex_black = Done (Some ex_groupBuilt, ex_black) /\
  attachedNodes (createNode true 1 p) p ex_groupNode ["A"; "V"; "B"] ex_black
  = Done (children ex_groupBuilt, ex_black) /\
  exists own attached,
    children ex_groupBuilt = (own ++ attached)%list /\ own = [] /\
    (List.length attached <= 3)%nat.
Proof.
  assert (H : createNode true 2 (ex_processorIEEE SceneMode.Solid ex_groupData)
                         ex_groupNode ex_black
              = Done (Some ex_groupBuilt, ex_black)) by reflexivity.
  split; [exact H |]. split; [reflexivity |].
  destruct (createNode_children true 1 (ex_processorIEEE SceneMode.Solid ex_groupData)
              ex_groupNode ex_black ex_black ex_groupBuilt H)
    as [own [attached [Hc [Ho [_ [Hl _]]]]]].
  exists own, attached. split; [exact Hc |]. split; [| exact Hl].
  apply Ho. discriminate.
Defined.

(** The corners of the box of three points, on the first coordinate. *)
Lemma getBoundingBox_of_corners_witness :
  (vx (getMin (getBoundingBox (boundingBoxPositions (getBoundingBox ex_positions))))
   =? vx (getMin (getBoundingBox ex_positions)))%float = true /\
  (vx (getMax (getBoundingBox (boundingBoxPositions (getBoundingBox ex_positions))))
   =? vx (getMax (getBoundingBox ex_positions)))%float = true.
Proof.
  assert (Hax : In (@vx PrimFloat.float) axes) by (left; reflexivity).
  assert (Hnan : noNaN vx ex_positions)
    by (intros q [<- | [<- | [<- | []]]]; reflexivity).
  assert (Hne : ex_positions <> []) by discriminate.
  exact (proj2 (getBoundingBox_of_corners ex_positions Hne) vx Hax Hnan).
Defined.

(** In solid mode the scene of [ex_modelData] is the same for two processors
    with different auxiliary colours, face colours, opacities and crease
    angles. *)
Lemma createScene_settings_read_witness :
  sceneAndAmbient (createScene true 2 (ex_otherProcessor SceneMode.Solid) ex_modelData) =
  sceneAndAmbient (createScene true 2 (ex_processorIEEE SceneMode.Solid ex_shaderData)
                               ex_modelData).
Proof.
  exact (createScene_settings_read true (ex_processorIEEE SceneMode.Solid ex_shaderData)
           (ex_otherProcessor SceneMode.Solid) ex_modelData 2
           eq_refl eq_refl eq_refl (or_introl eq_refl) (or_introl eq_refl)
           (or_intror eq_refl)).
Defined.

(** The members after the build of [ex_dropData]. *)
Lemma createScene_members_witness :
  createScene true 3 (ex_processorIEEE SceneMode.Solid ex_shaderData) ex_dropData
  = Done ({| sceneRoot := Some (mkQNode false "R" [] []) |},
          beginScene (ex_processorIEEE SceneMode.Solid ex_shaderData) ex_dropData) /\
  m_sceneData (beginScene (ex_processorIEEE SceneMode.Solid ex_shaderData) ex_dropData)
  = ex_dropData.
Proof.
  assert (H : createScene true 3 (ex_processorIEEE SceneMode.Solid ex_shaderData) ex_dropData
              = Done ({| sceneRoot := Some (mkQNode false "R" [] []) |},
                      beginScene (ex_processorIEEE SceneMode.Solid ex_shaderData)
                                 ex_dropData)) by reflexivity.
  split; [exact H |].
  exact (proj1 (proj2 (proj2 (proj2 (proj2 (proj2 (proj2 (proj2
           (createScene_members true 3 _ _ ex_dropData _ H))))))))).
Defined.

(** [ex_modelRank] decreases along the child relation of [ex_modelData]. *)
Lemma ex_modelData_ranked : ranked ex_modelData ex_modelRank.
Proof.
  intros name child. unfold ex_modelData, ex_data, ex_modelNodes, ex_modelRank.
  cbn [getNode].
  destruct (String.eqb_spec name "R") as [-> | HR].
  - intros [<- | [<- | [<- | []]]]; simpl; lia.
  - destruct (String.eqb_spec name "M") as [-> | HM]; [intros [] |].
    destruct (String.eqb_spec name "P") as [-> | HP]; [intros [] |].
    destruct (String.eqb_spec name "L") as [-> | HL]; intros [].
Defined.


(** The build of [ex_modelData] in outline mode succeeds. *)
Lemma createScene_boundingBox_succeeds_witness :
  exists scene p',
    createScene true 2
      (ex_processorIEEE SceneMode.TransparentBoundingBoxOutline ex_shaderData) ex_modelData
    = Done (scene, p').
Proof.
  assert (H : (ex_modelRank "R" < 2)%nat) by (unfold ex_modelRank; simpl; lia).
  exact (createScene_boundingBox_succeeds true
           (ex_processorIEEE SceneMode.TransparentBoundingBoxOutline ex_shaderData)
           ex_modelData ex_modelRank 2 eq_refl ex_modelData_ranked H).
Defined.

(** The names below the group "G": its own, those of "A" and "B", and none for
    the two entities that carry the child transforms. *)
Lemma createNode_names_witness :
  nodeNames ex_groupBuilt = ["G"; ""; "A"; ""; "B"] /\
  built ex_groupData ex_groupNode ex_groupBuilt /\
  Forall (namedAfter ex_groupData ex_groupNode) (nodeNames ex_groupBuilt).
Proof.
  split; [reflexivity |].
  assert (H : createNode true 2 (ex_processorIEEE SceneMode.Solid ex_groupData)
                         ex_groupNode ex_black
              = Done (Some ex_groupBuilt, ex_black)) by reflexivity.
  exact (createNode_names true 2 (ex_processorIEEE SceneMode.Solid ex_groupData)
           ex_groupNode ex_black ex_black ex_groupBuilt H).
Defined.

(** The box of the first of three points lies in the box of all three, on the
    second coordinate. *)
Lemma getBoundingBox_app_witness :
  (vy (getMin (getBoundingBox ex_positions))
   <=? vy (getMin (getBoundingBox (firstn 1 ex_positions))))%float = true /\
  (vy (getMax (getBoundingBox (firstn 1 ex_positions)))
   <=? vy (getMax (getBoundingBox ex_positions)))%float = true.
Proof.
  assert (Hax : In (@vy PrimFloat.float) axes) by (right; left; reflexivity).
  assert (Hnan : noNaN vy (firstn 1 ex_positions ++ skipn 1 ex_positions))
    by (intros q [<- | [<- | [<- | []]]]; reflexivity).
  assert (Hne : firstn 1 ex_positions <> []) by discriminate.
  exact (getBoundingBox_app (firstn 1 ex_positions) (skipn 1 ex_positions) Hne vy Hax Hnan).
Defined.
